(** * Burrow: a resilient RabbitMQ client

    A shallow embedding of the connection manager ([src/connection.ts]),
    the consumer ([src/consumer.ts]), the publisher ([src/publisher.ts])
    and the bridge ([src/bridge.ts]), with the properties the design
    document states about them.

    Conventions of the embedding.
    - JavaScript numbers that hold counts and milliseconds are integers
      ([Z]); object identities (connections, channels, callbacks) are
      natural numbers.
    - An [async] function is cut at its [await]s: every piece between two
      suspension points runs to completion, and what the awaited promise
      settles to is an event (or an argument) supplied by the environment.
    - [try]/[catch] is modelled wherever the source has it: a call that
      sits inside a [try] may end in [Thrown], and the [catch] arm is the
      code that runs then.  Log lines and observer notifications are
      effects, listed in the order the program produces them.
    - A callback of the caller that is called outside every [try] may
      throw as well: how it ends is given with the options or the
      environment of the call, and its exception ends the code that
      called it. *)

From stdpp Require Import base list gmap strings.
From Stdlib Require Import ZArith Lia DecimalString.

Local Open Scope Z_scope.

(** ** Exceptions *)

(** How a call ends: it returns, or it throws an error with a message. *)
Inductive outcome (A : Type) : Type :=
| Returned (a : A)
| Thrown (message : string).
Arguments Returned {A} a.
Arguments Thrown {A} message.

(** Template literal [`${n}`] for an integer. *)
Definition showZ (n : Z) : string := NilZero.string_of_int (Z.to_int n).

(** ** [Set<() => void>]

    ECMAScript keeps the entries of a [Set] in insertion order.  [delete]
    leaves a hole where the entry stood, [add] of a value that is not in
    the set appends a new entry, and the iterator of [for ... of] walks the
    entries by index, reading the current length at every step: entries
    appended during the walk are visited, entries deleted before their turn
    are not.  A callback is known by its identity, a natural number. *)
Module JsSet.

Abbreviation SetData := (list (option nat)).

Definition has (k : nat) (d : SetData) : bool := bool_decide (Some k ∈ d).

Definition add (k : nat) (d : SetData) : SetData :=
  if has k d then d else d ++ [Some k].

Definition delete (k : nat) (d : SetData) : SetData :=
  (λ e, if bool_decide (e = Some k) then None else e) <$> d.

(** The members, in insertion order. *)
Definition values (d : SetData) : list nat := omap id d.

(** Every value has at most one entry. *)
Definition wf (d : SetData) : Prop := NoDup (values d).

(** *** Invariant of the entries

    Used to state what the operations keep. *)

(** Entries are only ever appended or turned into holes. *)
Definition evolves (d d' : SetData) : Prop :=
  (length d ≤ length d')%nat
  ∧ (∀ p x, (p < length d)%nat → d' !! p = Some (Some x) → d !! p = Some (Some x))
  ∧ (∀ p, d !! p = Some None → d' !! p = Some None).

End JsSet.

(** ** The connection manager ([createConnection]) *)
Module Connection.
Import JsSet.

Inductive ConnectionState : Type :=
| disconnected
| connecting
| connected
| reconnecting.

Global Instance ConnectionState_eq_dec : EqDecision ConnectionState.
Proof. solve_decision. Defined.

(** [ReconnectConfig], for configurations whose numbers are integers,
    small enough for JavaScript to compute [delay * multiplier] exactly
    (magnitudes below 2^53): there the arithmetic of JavaScript numbers
    is that of [Z].  Fractions, [NaN] and [Infinity] are outside this
    type, and nothing is stated here about them. *)
Record ReconnectConfig : Type := {
  initialDelayMs : Z;
  maxDelayMs : Z;
  multiplier : Z;
  maxRetries : Z;
}.

Definition DEFAULT_RECONNECT : ReconnectConfig :=
  {| initialDelayMs := 1000; maxDelayMs := 30000; multiplier := 2; maxRetries := -1 |}.

(** The options the manager reads: the reconnect configuration, which
    of the three observers are configured, and how the two that are called
    outside any [try] end.  [onDisconnectEnds lost] is how
    [options.onDisconnect()] ends when it is called for the [lost]-th
    connection lost; [onReconnectingEnds lost attempt] is how
    [options.onReconnecting(attempt)] ends when it is called after [lost]
    connections were lost.  Every call has arguments of its own here, so
    the calls may end in any way, one independently of the other.  How
    [options.onConnect()] ends comes with the event that makes the
    manager call it. *)
Record ResilientConnectionOptions : Type := {
  reconnect : ReconnectConfig;
  onConnect : bool;
  onDisconnect : bool;
  onReconnecting : bool;
  onDisconnectEnds : Z → outcome unit;
  onReconnectingEnds : Z → Z → outcome unit;
}.

(** [interface ConnectionManagerState] *)
Record ConnectionManagerState : Type := {
  connection : option nat;
  state : ConnectionState;
  isShuttingDown : bool;
  reconnectSubscribers : SetData;
}.

(** The part of [MetricsCollector] the manager writes. *)
Record Metrics : Type := {
  connectionState : ConnectionState;
  connectionsEstablished : Z;
  connectionsLost : Z;
  reconnectAttempt : Z;
}.

(** Where an invocation of [connectWithRetry] is suspended. *)
Inductive Await : Type :=
| AwaitConnect                      (* await amqp.connect(...) *)
| AwaitCleanup (message : string)   (* await state.connection.close(), in the catch arm *)
| AwaitSleep.                       (* await sleep(delay) *)

(** The locals of a suspended [connectWithRetry]; [initial] tells the call
    at the end of [createConnection] from the one in [scheduleReconnect]. *)
Record Loop : Type := {
  delay : Z;
  attempt : Z;
  pc : Await;
  initial : bool;
}.

(** What a reconnect subscriber does to the subscriber set when it is
    called, and whether it throws at the end. *)
Inductive SubscriberOp : Type :=
| Subscribe (k : nat)
| Cancel (k : nat).

Record Behaviour : Type := {
  ops : list SubscriberOp;
  throws : option string;
}.

(** Log lines, observer notifications and timers, as the manager produces
    them.  [NotifySubscribers] is one run of the [for ... of] loop over
    the subscribers: the callbacks called, in order, each with the message
    of the error it threw, if any. *)
Inductive Effect : Type :=
| LogConnecting (attempt : Z)
| LogConnected
| LogConnectionFailed (message : string)
| LogRetrying (delay : Z)
| Sleep (ms : Z)
| LogScheduling
| LogReconnectionFailed (error : string)
| LogConnectionClosed
| LogClosed (ok : bool)
| NotifyReconnecting (attempt : Z)
| NotifyConnected
| NotifyDisconnected
| NotifySubscribers (calls : list (nat * option string)).

(** The manager with what surrounds it: the suspended [connectWithRetry]
    if there is one, the connections whose "close" observer is attached
    and which have not closed yet, the number of [close()] calls suspended
    at their [await], the number of subscriber calls made so far, and the
    error [createConnection] was rejected with. *)
Record Manager : Type := {
  st : ConnectionManagerState;
  metrics : Metrics;
  pending : option Loop;
  armed : list nat;
  closing : nat;
  clock : nat;
  failure : option string;
}.

(** What the environment does. *)
Inductive Event : Type :=
| ConnectResolved (c : nat) (observer : outcome unit)
    (* amqp.connect resolves with connection c; [observer] is how
       options.onConnect() ends when it is called *)
| ConnectRejected (message : string)
| CleanupSettled
| SleepElapsed
| ConnectionClosed (c : nat)        (* connection c emits "close" *)
| CloseCalled                       (* close() *)
| CloseSettled (ok : bool)          (* await state.connection.close() in close() *)
| OnReconnect (k : nat)             (* onReconnect(k) *)
| Unsubscribe (k : nat).            (* the function onReconnect(k) returned *)

(** *** Field updates *)

Definition setConnection (c : option nat) (s : ConnectionManagerState) :=
  {| connection := c; state := state s; isShuttingDown := isShuttingDown s;
     reconnectSubscribers := reconnectSubscribers s |}.
Definition setState (x : ConnectionState) (s : ConnectionManagerState) :=
  {| connection := connection s; state := x; isShuttingDown := isShuttingDown s;
     reconnectSubscribers := reconnectSubscribers s |}.
Definition setShuttingDown (b : bool) (s : ConnectionManagerState) :=
  {| connection := connection s; state := state s; isShuttingDown := b;
     reconnectSubscribers := reconnectSubscribers s |}.
Definition setSubscribers (d : SetData) (s : ConnectionManagerState) :=
  {| connection := connection s; state := state s; isShuttingDown := isShuttingDown s;
     reconnectSubscribers := d |}.

Definition withSt (f : ConnectionManagerState → ConnectionManagerState) (m : Manager) :=
  {| st := f (st m); metrics := metrics m; pending := pending m; armed := armed m;
     closing := closing m; clock := clock m; failure := failure m |}.
Definition withMetrics (f : Metrics → Metrics) (m : Manager) :=
  {| st := st m; metrics := f (metrics m); pending := pending m; armed := armed m;
     closing := closing m; clock := clock m; failure := failure m |}.
Definition withPending (l : option Loop) (m : Manager) :=
  {| st := st m; metrics := metrics m; pending := l; armed := armed m;
     closing := closing m; clock := clock m; failure := failure m |}.
Definition withArmed (a : list nat) (m : Manager) :=
  {| st := st m; metrics := metrics m; pending := pending m; armed := a;
     closing := closing m; clock := clock m; failure := failure m |}.
Definition withClosing (n : nat) (m : Manager) :=
  {| st := st m; metrics := metrics m; pending := pending m; armed := armed m;
     closing := n; clock := clock m; failure := failure m |}.
Definition withClock (n : nat) (m : Manager) :=
  {| st := st m; metrics := metrics m; pending := pending m; armed := armed m;
     closing := closing m; clock := n; failure := failure m |}.
Definition withFailure (e : option string) (m : Manager) :=
  {| st := st m; metrics := metrics m; pending := pending m; armed := armed m;
     closing := closing m; clock := clock m; failure := e |}.
Definition withPc (a : Await) (l : Loop) :=
  {| delay := delay l; attempt := attempt l; pc := a; initial := initial l |}.

(** *** [metrics.ts] *)

Definition setConnectionState (x : ConnectionState) (t : Metrics) :=
  {| connectionState := x; connectionsEstablished := connectionsEstablished t;
     connectionsLost := connectionsLost t; reconnectAttempt := reconnectAttempt t |}.
Definition setReconnectAttempt (n : Z) (t : Metrics) :=
  {| connectionState := connectionState t; connectionsEstablished := connectionsEstablished t;
     connectionsLost := connectionsLost t; reconnectAttempt := n |}.
Definition recordConnect (t : Metrics) :=
  {| connectionState := connected; connectionsEstablished := connectionsEstablished t + 1;
     connectionsLost := connectionsLost t; reconnectAttempt := 0 |}.
Definition recordDisconnect (t : Metrics) :=
  {| connectionState := disconnected; connectionsEstablished := connectionsEstablished t;
     connectionsLost := connectionsLost t + 1; reconnectAttempt := reconnectAttempt t |}.
Definition createMetricsCollector : Metrics :=
  {| connectionState := disconnected; connectionsEstablished := 0;
     connectionsLost := 0; reconnectAttempt := 0 |}.

(** *** Reads *)

Definition isConnected (m : Manager) : bool :=
  bool_decide (state (st m) = connected) && bool_decide (connection (st m) ≠ None).

Definition getState (m : Manager) : ConnectionState := state (st m).

Definition getConnection (m : Manager) : option nat := connection (st m).

(** [createChannel] and [createConfirmChannel] have the same shape:
    [null] without a connection, else what the broker's call gives, an
    exception of the call turned into [null].  [broker] is how
    [state.connection.createChannel()] ends. *)
Definition createChannel (m : Manager) (broker : outcome nat) : option nat :=
  match connection (st m) with
  | None => None
  | Some _ => match broker with Returned ch => Some ch | Thrown _ => None end
  end.

Definition createConfirmChannel (m : Manager) (broker : outcome nat) : option nat :=
  match connection (st m) with
  | None => None
  | Some _ => match broker with Returned ch => Some ch | Thrown _ => None end
  end.

(** [onReconnect(callback)] and the [Unsubscribe] it returns. *)
Definition onReconnect (k : nat) (m : Manager) : Manager :=
  withSt (λ s, setSubscribers (add k (reconnectSubscribers s)) s) m.

Definition unsubscribe (k : nat) (m : Manager) : Manager :=
  withSt (λ s, setSubscribers (delete k (reconnectSubscribers s)) s) m.

(** *** The program *)
Section Program.

Variable options : ResilientConnectionOptions.
(** [subscriber k t] is what callback [k] does when it is called as the
    [t]-th subscriber call of this manager. *)
Variable subscriber : nat → nat → Behaviour.
(** The number of iterator steps one run of the subscriber loop is followed
    for; a loop that needs more has not finished. *)
Variable fuel : nat.

Definition applyOp (d : SetData) (o : SubscriberOp) : SetData :=
  match o with
  | Subscribe k => add k d
  | Cancel k => delete k d
  end.

(** [for (const subscriber of state.reconnectSubscribers)
       { try { subscriber(); } catch (err) { log.error(...) } }]
    from entry [i] of the set on. *)
Fixpoint notify (n i : nat) (d : SetData) (t : nat) (calls : list (nat * option string))
  : option (SetData * nat * list (nat * option string)) :=
  match n with
  | O => None
  | S n =>
      match d !! i with
      | None => Some (d, t, calls)
      | Some None => notify n (S i) d t calls
      | Some (Some k) =>
          let b := subscriber k t in
          notify n (S i) (foldl applyOp d (ops b)) (S t) (calls ++ [(k, throws b)])
      end
  end.

(** The head of [while (!state.isShuttingDown)], up to [await amqp.connect].
    [options.onReconnecting(attempt)] is called before the [try]: when it
    throws, [connectWithRetry] ends with its error, which rejects
    [createConnection] in the initial invocation and is logged by
    [scheduleReconnect] in the others. *)
Definition loopHead (m : Manager) (delay attempt : Z) (initial : bool)
  : Manager * list Effect :=
  if isShuttingDown (st m) then (withPending None m, [])
  else
    let n := attempt + 1 in
    match (if onReconnecting options
           then onReconnectingEnds options (connectionsLost (metrics m)) n
           else Returned ()) with
    | Returned _ =>
        (withPending (Some {| delay := delay; attempt := n; pc := AwaitConnect; initial := initial |})
           (withSt (setState connecting)
              (withMetrics (λ t, setConnectionState connecting (setReconnectAttempt n t)) m)),
         (if onReconnecting options then [NotifyReconnecting n] else []) ++ [LogConnecting n])
    | Thrown message =>
        let m1 :=
          withPending None
            (withSt (setState connecting)
               (withMetrics (λ t, setConnectionState connecting (setReconnectAttempt n t)) m)) in
        if initial then (withFailure (Some message) m1, [NotifyReconnecting n])
        else (m1, [NotifyReconnecting n; LogReconnectionFailed message])
    end.

Definition connectWithRetry (m : Manager) (initial : bool) : Manager * list Effect :=
  loopHead m (initialDelayMs (reconnect options)) 0 initial.

(** The end of the [catch] arm: give up, or sleep. *)
Definition afterFailure (m : Manager) (l : Loop) (message : string)
  : Manager * list Effect :=
  if bool_decide (maxRetries (reconnect options) ≠ -1)
     && bool_decide (maxRetries (reconnect options) ≤ attempt l)
  then
    let error := ("Failed to connect after " +:+ showZ (attempt l)
                  +:+ " attempts: " +:+ message)%string in
    if initial l then (withFailure (Some error) (withPending None m), [])
    else (withPending None m, [LogReconnectionFailed error])
  else
    (withPending (Some (withPc AwaitSleep l)) m, [LogRetrying (delay l); Sleep (delay l)]).

(** The [catch] arm, up to [await state.connection.close()] when a
    connection is held. *)
Definition catchArm (m : Manager) (l : Loop) (message : string)
  : Manager * list Effect :=
  match connection (st m) with
  | Some c =>
      (withPending (Some (withPc (AwaitCleanup message) l))
         (withArmed (List.filter (λ x, negb (Nat.eqb x c)) (armed m)) m),
       [LogConnectionFailed message])
  | None =>
      let '(m', e) := afterFailure m l message in
      (m', LogConnectionFailed message :: e)
  end.

(** The [try] block after [await amqp.connect] resolved. *)
Definition connectResolved (m : Manager) (l : Loop) (c : nat) (observer : outcome unit)
  : option (Manager * list Effect) :=
  let m1 :=
    withMetrics recordConnect
      (withSt (λ s, setState connected (setConnection (Some c) s))
         (withArmed (c :: armed m) m)) in
  let thrown :=
    if onConnect options
    then match observer with Thrown message => Some message | Returned _ => None end
    else None in
  let seen := LogConnected :: (if onConnect options then [NotifyConnected] else []) in
  match thrown with
  | Some message =>
      let '(m', e) := catchArm m1 l message in Some (m', seen ++ e)
  | None =>
      match notify fuel 0 (reconnectSubscribers (st m1)) (clock m1) [] with
      | None => None
      | Some (d, t, calls) =>
          Some (withPending None (withClock t (withSt (setSubscribers d) m1)),
                seen ++ [NotifySubscribers calls])
      end
  end.

Definition scheduleReconnect (m : Manager) : Manager * list Effect :=
  if isShuttingDown (st m) || bool_decide (state (st m) = reconnecting) then (m, [])
  else
    let m1 :=
      withSt (λ s, setConnection None (setState reconnecting s))
        (withMetrics (setConnectionState reconnecting) m) in
    let '(m', e) := connectWithRetry m1 false in
    (m', LogScheduling :: e).

(** The "close" observer of a connection.  [options.onDisconnect()] is
    called outside any [try]: when it throws, the observer ends there and
    [scheduleReconnect] is not reached. *)
Definition connectionClosed (m : Manager) (c : nat) : Manager * list Effect :=
  let m1 :=
    withMetrics recordDisconnect
      (withArmed (List.filter (λ x, negb (Nat.eqb x c)) (armed m)) m) in
  let seen := LogConnectionClosed :: (if onDisconnect options then [NotifyDisconnected] else []) in
  match (if onDisconnect options
         then onDisconnectEnds options (connectionsLost (metrics m1))
         else Returned ()) with
  | Thrown _ => (m1, seen)
  | Returned _ =>
      if isShuttingDown (st m1) then (m1, seen)
      else let '(m', e) := scheduleReconnect m1 in (m', seen ++ e)
  end.

(** The end of [close()]. *)
Definition finishClose (m : Manager) : Manager :=
  withMetrics (setConnectionState disconnected)
    (withSt (λ s, setState disconnected (setConnection None s)) m).

Definition close (m : Manager) : Manager * list Effect :=
  let m1 := withSt (setShuttingDown true) m in
  match connection (st m1) with
  | Some _ => (withClosing (S (closing m1)) m1, [])
  | None => (finishClose m1, [])
  end.

Definition step (m : Manager) (ev : Event) : option (Manager * list Effect) :=
  match ev with
  | ConnectResolved c observer =>
      match pending m with
      | Some l =>
          match pc l with
          | AwaitConnect => connectResolved m l c observer
          | _ => Some (m, [])
          end
      | None => Some (m, [])
      end
  | ConnectRejected message =>
      match pending m with
      | Some l =>
          match pc l with
          | AwaitConnect => Some (catchArm m l message)
          | _ => Some (m, [])
          end
      | None => Some (m, [])
      end
  | CleanupSettled =>
      match pending m with
      | Some l =>
          match pc l with
          | AwaitCleanup message =>
              Some (afterFailure (withSt (setConnection None) m) l message)
          | _ => Some (m, [])
          end
      | None => Some (m, [])
      end
  | SleepElapsed =>
      match pending m with
      | Some l =>
          match pc l with
          | AwaitSleep =>
              Some (loopHead m
                      (Z.min (delay l * multiplier (reconnect options))
                         (maxDelayMs (reconnect options)))
                      (attempt l) (initial l))
          | _ => Some (m, [])
          end
      | None => Some (m, [])
      end
  | ConnectionClosed c =>
      if bool_decide (c ∈ armed m) then Some (connectionClosed m c) else Some (m, [])
  | CloseCalled => Some (close m)
  | CloseSettled ok =>
      match closing m with
      | O => Some (m, [])
      | S n => Some (finishClose (withClosing n m), [LogClosed ok])
      end
  | OnReconnect k => Some (onReconnect k m, [])
  | Unsubscribe k => Some (unsubscribe k m, [])
  end.

Fixpoint run (m : Manager) (evs : list Event) : option (Manager * list Effect) :=
  match evs with
  | [] => Some (m, [])
  | ev :: evs =>
      match step m ev with
      | None => None
      | Some (m1, e1) =>
          match run m1 evs with
          | None => None
          | Some (m2, e2) => Some (m2, e1 ++ e2)
          end
      end
  end.

(** [createConnection], up to the first suspension of
    [await connectWithRetry()]. *)
Definition createConnection : Manager * list Effect :=
  connectWithRetry
    {| st := {| connection := None; state := disconnected; isShuttingDown := false;
                reconnectSubscribers := [] |};
       metrics := createMetricsCollector;
       pending := None; armed := []; closing := 0%nat; clock := 0%nat;
       failure := None |}
    true.

(** [createConnection] followed by what the environment does. *)
Definition session (evs : list Event) : option (Manager * list Effect) :=
  let '(m0, e0) := createConnection in
  match run m0 evs with
  | None => None
  | Some (m, e) => Some (m, e0 ++ e)
  end.

End Program.

(** *** Reading a list of effects *)

(** The runs of the subscriber loop: for each, the callbacks called. *)
Definition rounds (e : list Effect) : list (list nat) :=
  omap (λ x, match x with NotifySubscribers calls => Some calls.*1 | _ => None end) e.

(** The number of times callback [k] was called. *)
Definition invocations (k : nat) (e : list Effect) : nat :=
  length (filter (λ x, x = k) (concat (rounds e))).

(** The delays slept, and the attempts made. *)
Definition sleeps (e : list Effect) : list Z :=
  omap (λ x, match x with Sleep ms => Some ms | _ => None end) e.

Definition attempts (e : list Effect) : list Z :=
  omap (λ x, match x with LogConnecting n => Some n | _ => None end) e.

(** The broker is unreachable: every attempt is rejected, with these
    messages in turn, and every sleep elapses. *)
Definition unreachable (messages : list string) : list Event :=
  messages ≫= λ message, [ConnectRejected message; SleepElapsed].

(** *** Subscribers and options used in examples *)

(** A subscriber that leaves the subscriber set alone and returns. *)
Definition quiet : nat → nat → Behaviour :=
  λ _ _, {| ops := []; throws := None |}.

(** Callback 1 cancels the subscription of callback [k] and registers it
    again; the other callbacks are quiet. *)
Definition resubscribes (k : nat) : nat → nat → Behaviour :=
  λ j _, if Nat.eqb j 1 then {| ops := [Cancel k; Subscribe k]; throws := None |}
         else {| ops := []; throws := None |}.

(** Callback 1 cancels the subscription of callback [k]; the other
    callbacks are quiet. *)
Definition cancels (k : nat) : nat → nat → Behaviour :=
  λ j _, if Nat.eqb j 1 then {| ops := [Cancel k]; throws := None |}
         else {| ops := []; throws := None |}.

Definition withReconnect (c : ReconnectConfig) : ResilientConnectionOptions :=
  {| reconnect := c; onConnect := false; onDisconnect := false; onReconnecting := false;
     onDisconnectEnds := λ _, Returned (); onReconnectingEnds := λ _ _, Returned () |}.

(** The defaults, with an [onConnect] observer. *)
Definition observed : ResilientConnectionOptions :=
  {| reconnect := DEFAULT_RECONNECT; onConnect := true; onDisconnect := false;
     onReconnecting := false;
     onDisconnectEnds := λ _, Returned (); onReconnectingEnds := λ _ _, Returned () |}.

(** The delay before retry number [n] (from 0) of one invocation of
    [connectWithRetry]: [let delay = initialDelayMs] and then
    [delay = Math.min(delay * multiplier, maxDelayMs)] after every sleep. *)
Definition backoff (c : ReconnectConfig) (n : nat) : Z :=
  Nat.iter n (λ d, Z.min (d * multiplier c) (maxDelayMs c)) (initialDelayMs c).

(** *** Invariants of the manager *)

(** No callback called from time [t] up to time [t'] cancels a
    subscription of [P]. *)
Definition spared (subscriber : nat → nat → Behaviour) (P : nat → Prop) (t t' : nat)
  : Prop :=
  ∀ k τ j, (t ≤ τ < t')%nat → P j → Cancel j ∉ ops (subscriber k τ).

(** What holds of every manager, whatever the observers do: a connection
    is held only in state [connected], a suspended [connectWithRetry]
    holds none unless it is cleaning up, and no connection has its
    "close" observer attached while [connectWithRetry] is suspended. *)
Definition settled (m : Manager) : Prop :=
  (connection (st m) ≠ None → state (st m) = connected)
  ∧ (∀ l, pending m = Some l → (∀ message, pc l ≠ AwaitCleanup message) →
       connection (st m) = None)
  ∧ (pending m ≠ None → armed m = [])
  ∧ (length (armed m) ≤ 1)%nat.

(** What holds besides when [options.onConnect] never throws: state
    [connected] comes with a connection, and [connectWithRetry] is never
    cleaning up. *)
Definition steady (m : Manager) : Prop :=
  (state (st m) = connected → connection (st m) ≠ None)
  ∧ (∀ l message, pending m = Some l → pc l ≠ AwaitCleanup message).

(** [options.onConnect], when configured, returns. *)
Definition observerReturns (options : ResilientConnectionOptions) (ev : Event) : Prop :=
  onConnect options = false ∨ ∀ c message, ev ≠ ConnectResolved c (Thrown message).

(** [n] sleeps into an invocation of [connectWithRetry], the local
    [delay] is the [n]-th delay of the schedule; while the [n]-th sleep
    lasts it still is the one before. *)
Definition pacing (c : ReconnectConfig) (n : nat) (m : Manager) : Prop :=
  match pending m with
  | None => True
  | Some l =>
      match pc l with
      | AwaitSleep => ∃ n', n = S n' ∧ delay l = backoff c n'
      | _ => delay l = backoff c n
      end
  end.

(** *** Reading the delays of a trace, invocation by invocation

    [scheduleReconnect] logs [LogScheduling] right before it calls
    [connectWithRetry], and the subscriber loop is the last thing an
    invocation does before it returns.  The position in a trace is the
    number of delays the running invocation has slept so far, and [None]
    once the last invocation has returned. *)
Definition position (n : option nat) (x : Effect) : option nat :=
  match x with
  | Sleep _ => S <$> n
  | LogScheduling => Some 0%nat
  | NotifySubscribers _ => None
  | _ => n
  end.

(** Every delay slept is the one the schedule [backoff] has at its
    position, and none is slept after an invocation has returned and
    before the next one is scheduled. *)
Fixpoint paced (c : ReconnectConfig) (n : option nat) (e : list Effect) : Prop :=
  match e with
  | [] => True
  | x :: e =>
      match x with
      | Sleep d => ∃ i, n = Some i ∧ d = backoff c i
      | _ => True
      end
      ∧ paced c (position n x) e
  end.

Definition pacingAt (c : ReconnectConfig) (n : option nat) (m : Manager) : Prop :=
  match n with
  | Some i => pacing c i m
  | None => pending m = None
  end.

End Connection.

(** ** Calls on the broker client, and code that makes them *)
Module Js.

(** [ConsumeMessage]: the body, [fields.routingKey], [fields.redelivered]. *)
Record ConsumeMessage : Type := {
  content : string;
  routingKey : string;
  redelivered : bool;
}.

Global Instance ConsumeMessage_eq_dec : EqDecision ConsumeMessage.
Proof. solve_decision. Defined.

(** What a component does that can be seen from outside: calls on a
    channel [ch], on the caller's callbacks, and log lines. *)
Inductive Call : Type :=
| ChannelClose (ch : nat)
| Prefetch (ch : nat) (count : Z)
| AssertQueue (ch : nat) (queue : string) (durable : bool)
| AssertExchange (ch : nat) (exchange kind : string) (durable : bool)
| BindQueue (ch : nat) (queue exchange pattern : string)
| OnClose (ch : nat)
| Consume (ch : nat) (queue : string)
| Ack (ch : nat) (msg : ConsumeMessage)
| Nack (ch : nat) (msg : ConsumeMessage) (multiple requeue : bool)
| Publish (ch : nat) (exchange routingKey body contentType : string)
    (deliveryMode : Z) (persistent : bool)
| OnMessage (msg : ConsumeMessage)
| OnError (error : string) (msg : ConsumeMessage)
| Info (text : string)
| Warn (text : string)
| Error (text : string).

Global Instance Call_eq_dec : EqDecision Call.
Proof. solve_decision. Defined.

(** Code over a state [S] that makes calls and may throw: the outcome,
    the state it leaves, and the calls it made, in order. *)
Definition M (S A : Type) : Type := S → outcome A * S * list Call.

Definition ret {S A} (a : A) : M S A := λ s, (Returned a, s, []).

Definition throw {S A} (message : string) : M S A := λ s, (Thrown message, s, []).

Definition bind {S A B} (c : M S A) (k : A → M S B) : M S B :=
  λ s,
    match c s with
    | (Returned a, s1, t1) => let '(r, s2, t2) := k a s1 in (r, s2, t1 ++ t2)
    | (Thrown message, s1, t1) => (Thrown message, s1, t1)
    end.

(** [try { c } catch (err) { h(err) }] *)
Definition tryCatch {S A} (c : M S A) (h : string → M S A) : M S A :=
  λ s,
    match c s with
    | (Returned a, s1, t1) => (Returned a, s1, t1)
    | (Thrown message, s1, t1) => let '(r, s2, t2) := h message s1 in (r, s2, t1 ++ t2)
    end.

(** A call, with the outcome the environment gives it. *)
Definition call {S A} (c : Call) (r : outcome A) : M S A := λ s, (r, s, [c]).

(** An awaited promise settles. *)
Definition settle {S A} (r : outcome A) : M S A := λ s, (r, s, []).

(** An expression is evaluated: it has a value, or it throws. *)
Definition eval {S A} (r : outcome A) : M S A := λ s, (r, s, []).

Definition get {S} : M S S := λ s, (Returned s, s, []).

Definition modify {S} (f : S → S) : M S unit := λ s, (Returned (), f s, []).

Definition when {S} (b : bool) (c : M S unit) : M S unit := if b then c else ret ().

(** The acknowledgements among the calls made. *)
Definition acknowledgements (t : list Call) : list Call :=
  List.filter (λ c, match c with Ack _ _ | Nack _ _ _ _ => true | _ => false end) t.

(** The calls made on the broker's publish. *)
Definition publishes (t : list Call) : list Call :=
  List.filter (λ c, match c with Publish _ _ _ _ _ _ _ => true | _ => false end) t.

End Js.

Global Instance M_ret {S} : MRet (Js.M S) := λ A, Js.ret.
Global Instance M_bind {S} : MBind (Js.M S) := λ A B k c, Js.bind c k.

(** ** The publisher ([createPublisher]) *)
Module Publisher.
Import Js.

Record PublisherOptions : Type := {
  exchange : string;
  exchangeType : option string;
  durable : option bool;
  deliveryMode : option Z;
  contentType : option string;
}.

(** [{ ...DEFAULT_OPTIONS, ...options }] *)
Record Options : Type := {
  opt_exchange : string;
  opt_exchangeType : string;
  opt_durable : bool;
  opt_deliveryMode : Z;
  opt_contentType : string;
}.

Definition withDefaults (o : PublisherOptions) : Options :=
  {| opt_exchange := exchange o;
     opt_exchangeType := default "topic"%string (exchangeType o);
     opt_durable := default true (durable o);
     opt_deliveryMode := default 2 (deliveryMode o);
     opt_contentType := default "application/json"%string (contentType o) |}.

(** [interface PublisherState] *)
Record PublisherState : Type := {
  channel : option nat;
  isReady : bool;
  messagesPublished : Z;
  messagesPublishFailed : Z;
  lastPublishAt : option Z;
}.

Definition setChannel (c : option nat) (s : PublisherState) :=
  {| channel := c; isReady := isReady s; messagesPublished := messagesPublished s;
     messagesPublishFailed := messagesPublishFailed s; lastPublishAt := lastPublishAt s |}.
Definition setReady (b : bool) (s : PublisherState) :=
  {| channel := channel s; isReady := b; messagesPublished := messagesPublished s;
     messagesPublishFailed := messagesPublishFailed s; lastPublishAt := lastPublishAt s |}.
Definition countFailed (s : PublisherState) :=
  {| channel := channel s; isReady := isReady s; messagesPublished := messagesPublished s;
     messagesPublishFailed := messagesPublishFailed s + 1; lastPublishAt := lastPublishAt s |}.
Definition countPublished (now : Z) (s : PublisherState) :=
  {| channel := channel s; isReady := isReady s; messagesPublished := messagesPublished s + 1;
     messagesPublishFailed := messagesPublishFailed s; lastPublishAt := Some now |}.

(** What [publish] is given: a string, a value with its JSON text, or a
    value of which no buffer can be made: [JSON.stringify] throws on it (a
    [BigInt], a cyclic object) or gives [undefined] ([undefined], a
    function, a symbol), which [Buffer.from] throws on. *)
Inductive Content : Type :=
| Text (s : string)
| Value (json : string)
| Unserialisable (error : string).

(** [Buffer.from(typeof content === "string" ? content : JSON.stringify(content))] *)
Definition body (c : Content) : outcome string :=
  match c with
  | Text s => Returned s
  | Value json => Returned json
  | Unserialisable error => Thrown error
  end.

(** The promise [publish] returns: rejected already, or waiting for the
    broker's confirmation. *)
Inductive Promise : Type :=
| Rejected (error : string)
| Pending.

(** How the awaited calls of [setup] end. *)
Record SetupEnv : Type := {
  confirmChannel : outcome nat;     (* state.connection.createConfirmChannel() *)
  assertExchange : outcome unit;
}.

Section Program.
Variable options : PublisherOptions.
Local Abbreviation opts := (withDefaults options).

Definition setup (m : Connection.Manager) (env : SetupEnv) : M PublisherState unit :=
  modify (setChannel (Connection.createConfirmChannel m (confirmChannel env))) ;;
  s ← get;
  match channel s with
  | None => throw "Failed to create confirm channel"
  | Some ch =>
      call (AssertExchange ch (opt_exchange opts) (opt_exchangeType opts) (opt_durable opts))
        (assertExchange env) ;;
      call (OnClose ch) (Returned ()) ;;
      modify (setReady true) ;;
      call (Info ("[burrow:publisher] Ready on exchange " +:+ opt_exchange opts)) (Returned ())
  end.

(** The "close" observer [setup] attaches to the channel. *)
Definition channelClosed : M PublisherState unit :=
  call (Warn ("[burrow:publisher] Channel closed for exchange " +:+ opt_exchange opts))
    (Returned ()) ;;
  modify (setReady false) ;;
  modify (setChannel None).

(** [publish(routingKey, content)]; [broker] is how [channel.publish]
    ends when it is called.  The buffer is made before the promise and
    outside the [try]: when that throws, [publish] throws, and returns no
    promise. *)
Definition publish (routingKey : string) (content : Content) (broker : outcome unit)
  : M PublisherState Promise :=
  s ← get;
  match channel s with
  | Some ch =>
      if isReady s then
        buffer ← eval (body content);
        tryCatch
          (call (Publish ch (opt_exchange opts) routingKey buffer
                   (opt_contentType opts) (opt_deliveryMode opts)
                   (bool_decide (opt_deliveryMode opts = 2)))
             broker ;;
           ret Pending)
          (λ publishErr, modify countFailed ;; ret (Rejected publishErr))
      else
        modify countFailed ;; ret (Rejected "Publisher not ready")
  | None =>
      modify countFailed ;; ret (Rejected "Publisher not ready")
  end.

(** The confirmation callback handed to [channel.publish]. *)
Definition confirmed (err : option string) (now : Z) (s : PublisherState) : PublisherState :=
  match err with
  | Some _ => countFailed s
  | None => countPublished now s
  end.

(** [createPublisher(connection, options)]: the publisher's state and
    calls, and the manager as the call leaves it. *)
Definition createPublisher (m : Connection.Manager) (env : SetupEnv)
  : (outcome unit * PublisherState * list Call) * Connection.Manager :=
  (setup m env
     {| channel := None; isReady := false; messagesPublished := 0;
        messagesPublishFailed := 0; lastPublishAt := None |},
   m).

End Program.
End Publisher.

(** ** The consumer ([createConsumer]) *)
Module Consumer.
Import Js.

Record ConsumerOptions : Type := {
  queue : string;
  exchange : option string;
  routingKey : option string;
  durable : option bool;
  prefetch : option Z;
  onError : bool;                (* whether an [onError] callback is given *)
}.

(** [{ ...DEFAULT_OPTIONS, ...options }] *)
Definition opt_routingKey (o : ConsumerOptions) : string := default "#"%string (routingKey o).
Definition opt_durable (o : ConsumerOptions) : bool := default true (durable o).
Definition opt_prefetch (o : ConsumerOptions) : Z := default 10 (prefetch o).

(** [interface ConsumerState] *)
Record ConsumerState : Type := {
  channel : option nat;
  consumerTag : option string;
  isActive : bool;
  wasActive : bool;
  messagesConsumed : Z;
  messagesConsumeFailed : Z;
  lastConsumeAt : option Z;
  unsubscribeReconnect : option nat;
}.

Definition setChannel (c : option nat) (s : ConsumerState) :=
  {| channel := c; consumerTag := consumerTag s; isActive := isActive s;
     wasActive := wasActive s; messagesConsumed := messagesConsumed s;
     messagesConsumeFailed := messagesConsumeFailed s; lastConsumeAt := lastConsumeAt s;
     unsubscribeReconnect := unsubscribeReconnect s |}.
Definition setConsumerTag (t : option string) (s : ConsumerState) :=
  {| channel := channel s; consumerTag := t; isActive := isActive s;
     wasActive := wasActive s; messagesConsumed := messagesConsumed s;
     messagesConsumeFailed := messagesConsumeFailed s; lastConsumeAt := lastConsumeAt s;
     unsubscribeReconnect := unsubscribeReconnect s |}.
Definition setActive (b : bool) (s : ConsumerState) :=
  {| channel := channel s; consumerTag := consumerTag s; isActive := b;
     wasActive := wasActive s; messagesConsumed := messagesConsumed s;
     messagesConsumeFailed := messagesConsumeFailed s; lastConsumeAt := lastConsumeAt s;
     unsubscribeReconnect := unsubscribeReconnect s |}.
Definition setWasActive (b : bool) (s : ConsumerState) :=
  {| channel := channel s; consumerTag := consumerTag s; isActive := isActive s;
     wasActive := b; messagesConsumed := messagesConsumed s;
     messagesConsumeFailed := messagesConsumeFailed s; lastConsumeAt := lastConsumeAt s;
     unsubscribeReconnect := unsubscribeReconnect s |}.
Definition countConsumed (now : Z) (s : ConsumerState) :=
  {| channel := channel s; consumerTag := consumerTag s; isActive := isActive s;
     wasActive := wasActive s; messagesConsumed := messagesConsumed s + 1;
     messagesConsumeFailed := messagesConsumeFailed s; lastConsumeAt := Some now;
     unsubscribeReconnect := unsubscribeReconnect s |}.
Definition countFailed (s : ConsumerState) :=
  {| channel := channel s; consumerTag := consumerTag s; isActive := isActive s;
     wasActive := wasActive s; messagesConsumed := messagesConsumed s;
     messagesConsumeFailed := messagesConsumeFailed s + 1; lastConsumeAt := lastConsumeAt s;
     unsubscribeReconnect := unsubscribeReconnect s |}.
Definition setUnsubscribe (k : option nat) (s : ConsumerState) :=
  {| channel := channel s; consumerTag := consumerTag s; isActive := isActive s;
     wasActive := wasActive s; messagesConsumed := messagesConsumed s;
     messagesConsumeFailed := messagesConsumeFailed s; lastConsumeAt := lastConsumeAt s;
     unsubscribeReconnect := k |}.

(** How the awaited calls of [setup] end; [closeEvent] tells whether
    closing the stale channel makes it emit "close" before [setup] goes
    on.  Nothing else is taken to run between the awaits of [setup].
    [setup] attaches the "close" observer as its last step, so a channel
    left by a [setup] that failed half way has none and emits nothing the
    consumer hears: [closeEvent] ranges over more than can happen for it,
    and what is proved for every [closeEvent] holds for it too. *)
Record SetupEnv : Type := {
  closeStale : outcome unit;
  closeEvent : bool;
  newChannel : outcome nat;       (* state.connection.createChannel() *)
  prefetched : outcome unit;
  assertQueue : outcome unit;
  assertExchange : outcome unit;
  bindQueue : outcome unit;
}.

(** How the calls of [handleMessage] end. *)
Record MessageEnv : Type := {
  onMessage : outcome unit;       (* await opts.onMessage(msg) *)
  acked : outcome unit;           (* state.channel.ack(msg) *)
  onErrored : outcome unit;       (* opts.onError(error, msg) *)
  nacked : outcome unit;          (* state.channel.nack(msg, false, requeue) *)
}.

Section Program.
Variable options : ConsumerOptions.

(** The "close" observer [setup] attaches to the channel. *)
Definition channelClosed : M ConsumerState unit :=
  call (Warn ("[burrow:consumer] Channel closed for queue " +:+ queue options))
    (Returned ()) ;;
  modify (λ s, setWasActive (isActive s) s) ;;
  modify (setActive false) ;;
  modify (setChannel None) ;;
  modify (setConsumerTag None).

Definition setup (m : Connection.Manager) (env : SetupEnv) : M ConsumerState unit :=
  s ← get;
  match channel s with
  | Some stale =>
      tryCatch (call (ChannelClose stale) (closeStale env)) (λ _, ret ()) ;;
      when (closeEvent env) channelClosed ;;
      modify (setChannel None)
  | None => ret ()
  end ;;
  modify (setChannel (Connection.createChannel m (newChannel env))) ;;
  s ← get;
  match channel s with
  | None => throw "Failed to create channel"
  | Some ch =>
      call (Prefetch ch (opt_prefetch options)) (prefetched env) ;;
      call (AssertQueue ch (queue options) (opt_durable options)) (assertQueue env) ;;
      match exchange options with
      | Some ex =>
          if bool_decide (ex = ""%string) then ret ()
          else
            call (AssertExchange ch ex "topic" (opt_durable options)) (assertExchange env) ;;
            call (BindQueue ch (queue options) ex (opt_routingKey options)) (bindQueue env)
      | None => ret ()
      end ;;
      call (OnClose ch) (Returned ()) ;;
      call (Info ("[burrow:consumer] Setup complete for queue " +:+ queue options))
        (Returned ())
  end.

(** [startConsuming]; [consumed] is how [channel.consume] ends. *)
Definition startConsuming (consumed : outcome string) : M ConsumerState unit :=
  s ← get;
  match channel s with
  | None => throw "No channel available"
  | Some ch =>
      tag ← call (Consume ch (queue options)) consumed;
      modify (setConsumerTag (Some tag)) ;;
      modify (setActive true) ;;
      modify (setWasActive true)
  end.

Definition handleReconnect (m : Connection.Manager) (env : SetupEnv)
  (consumed : outcome string) : M ConsumerState unit :=
  call (Info ("[burrow:consumer] Connection restored, re-setting up queue "
              +:+ queue options)) (Returned ()) ;;
  tryCatch
    (setup m env ;;
     s ← get;
     when (wasActive s)
       (startConsuming consumed ;;
        call (Info ("[burrow:consumer] Resumed consuming from " +:+ queue options))
          (Returned ())))
    (λ message,
       call (Error ("[burrow:consumer] Failed to re-setup after reconnect: " +:+ message))
         (Returned ())).

(** [state.channel.f(...)]: a [TypeError] when [state.channel] is [null]. *)
Definition channelOrTypeError : M ConsumerState nat :=
  s ← get;
  match channel s with
  | Some ch => ret ch
  | None => throw "Cannot read properties of null"
  end.

(** [handleMessage(msg)].  [meanwhile] is what the handlers that ran
    while [opts.onMessage(msg)] was awaited did to the state.
    [opts.onError] is called in the [catch] arm, outside the inner [try]:
    when it throws, [handleMessage] is rejected before [nack] is reached. *)
Definition handleMessage (msg : option ConsumeMessage) (env : MessageEnv)
  (meanwhile : ConsumerState → ConsumerState) (now : Z) : M ConsumerState unit :=
  s ← get;
  match msg, channel s with
  | Some msg, Some _ =>
      tryCatch
        (call (OnMessage msg) (Returned ()) ;;
         modify meanwhile ;;
         settle (onMessage env) ;;
         ch ← channelOrTypeError;
         call (Ack ch msg) (acked env) ;;
         modify (countConsumed now))
        (λ message,
           modify countFailed ;;
           (if onError options then call (OnError message msg) (onErrored env)
            else call (Error ("[burrow:consumer] Message processing failed: " +:+ message))
                   (Returned ())) ;;
           tryCatch
             (let requeue := negb (redelivered msg) in
              ch ← channelOrTypeError;
              call (Nack ch msg false requeue) (nacked env))
             (λ _, ret ()))
  | _, _ => ret ()
  end.

(** [createConsumer(connection, options)]: the consumer's state and
    calls, and the manager as the call leaves it.  [callback] is the
    arrow function handed to [connection.onReconnect]. *)
Definition createConsumer (m : Connection.Manager) (env : SetupEnv) (callback : nat)
  : (outcome unit * ConsumerState * list Call) * Connection.Manager :=
  let r :=
    setup m env
      {| channel := None; consumerTag := None; isActive := false; wasActive := false;
         messagesConsumed := 0; messagesConsumeFailed := 0; lastConsumeAt := None;
         unsubscribeReconnect := None |} in
  match r with
  | (Returned _, s, t) =>
      ((Returned (), setUnsubscribe (Some callback) s, t), Connection.onReconnect callback m)
  | (Thrown message, s, t) => ((Thrown message, s, t), m)
  end.

End Program.

(** What the callback a consumer registers does when the manager calls
    it: it starts [handleReconnect()], which runs on its own, and returns;
    a rejection is logged. *)
Definition reconnectCallback : Connection.Behaviour :=
  {| Connection.ops := []; Connection.throws := None |}.

End Consumer.

(** ** The bridge ([createBridge]) *)
Module Bridge.
Import Js.

Record BridgeOptions : Type := {
  exchanges : list string;
  prefetch : option Z;
  queuePrefix : option string;
  deliveryMode : option Z;
  logEveryNMessages : option Z;
  onStart : bool;
  onStop : bool;
}.

(** [options.x ?? DEFAULT_OPTIONS.x] *)
Definition opt_prefetch (o : BridgeOptions) : Z := default 50 (prefetch o).
Definition opt_queuePrefix (o : BridgeOptions) : string :=
  default "bridge_"%string (queuePrefix o).
Definition opt_deliveryMode (o : BridgeOptions) : Z := default 2 (deliveryMode o).
Definition opt_logEveryNMessages (o : BridgeOptions) : Z := default 100 (logEveryNMessages o).

Record BridgeMetrics : Type := {
  messagesForwarded : Z;
  messagesFailed : Z;
  lastMessageAt : option Z;
}.

(** [interface BridgeInternalState] *)
Record BridgeInternalState : Type := {
  consumerChannel : option nat;
  producerChannel : option nat;
  isRunning : bool;
  consumerTags : list string;
  metrics : BridgeMetrics;
  errorLogCount : Z;
  lastErrorLogReset : Z;
}.

Definition ERROR_LOG_LIMIT : Z := 10.
Definition ERROR_LOG_WINDOW_MS : Z := 5000.

Definition setErrorLog (count reset : Z) (s : BridgeInternalState) :=
  {| consumerChannel := consumerChannel s; producerChannel := producerChannel s;
     isRunning := isRunning s; consumerTags := consumerTags s; metrics := metrics s;
     errorLogCount := count; lastErrorLogReset := reset |}.
Definition setMetrics (t : BridgeMetrics) (s : BridgeInternalState) :=
  {| consumerChannel := consumerChannel s; producerChannel := producerChannel s;
     isRunning := isRunning s; consumerTags := consumerTags s; metrics := t;
     errorLogCount := errorLogCount s; lastErrorLogReset := lastErrorLogReset s |}.

(** The names of the closures [createBridge] defines and returns. *)
Inductive Method : Type :=
| start
| stop
| isRunning_
| getMetrics
| getState.

(** [interface Bridge] of [types.ts]: the members it declares. *)
Definition BridgeInterface : list string :=
  ["start"; "stop"; "close"; "isRunning"; "getMetrics"; "getState"]%string.

(** How the calls of [handleMessage] end, and what the clock reads. *)
Record MessageEnv : Type := {
  forwarded : outcome unit;       (* channel.publish and its confirmation *)
  acked : outcome unit;
  nacked : outcome unit;
  date : Z;                       (* new Date() in logForwarded *)
  now1 : Z;                       (* Date.now() in the first shouldLogError *)
  now2 : Z;                       (* Date.now() in the second *)
}.

(** [message.includes(part)] *)
Definition includes (part message : string) : bool :=
  bool_decide (is_Some (String.index 0 part message)).

Section Program.
Variable options : BridgeOptions.

Definition shouldLogError (now : Z) : M BridgeInternalState bool :=
  s ← get;
  when (bool_decide (now - lastErrorLogReset s > ERROR_LOG_WINDOW_MS))
    (when (bool_decide (errorLogCount s > ERROR_LOG_LIMIT))
       (call (Warn ("[bridge] Suppressed " +:+ showZ (errorLogCount s - ERROR_LOG_LIMIT)
                    +:+ " error logs in last " +:+ showZ ERROR_LOG_WINDOW_MS +:+ "ms"))
          (Returned ())) ;;
     modify (setErrorLog 0 now)) ;;
  modify (λ s, setErrorLog (errorLogCount s + 1) (lastErrorLogReset s) s) ;;
  s ← get;
  ret (bool_decide (errorLogCount s ≤ ERROR_LOG_LIMIT)).

Definition logForwarded (exchange routingKey : string) (date : Z)
  : M BridgeInternalState unit :=
  modify (λ s, setMetrics
                 {| messagesForwarded := messagesForwarded (metrics s) + 1;
                    messagesFailed := messagesFailed (metrics s);
                    lastMessageAt := Some date |} s) ;;
  s ← get;
  when (bool_decide (opt_logEveryNMessages options > 0)
        && bool_decide (Z.rem (messagesForwarded (metrics s)) (opt_logEveryNMessages options) = 0))
    (call (Info ("[bridge] Forwarded " +:+ showZ (messagesForwarded (metrics s))
                 +:+ " messages, last: " +:+ exchange +:+ " -> " +:+ routingKey))
       (Returned ())).

(** [forwardMessage]: the publish, and the promise that settles with the
    broker's confirmation or with the exception of the call.  [meanwhile]
    is what the handlers that ran while it was awaited did to the state. *)
Definition forwardMessage (channel : nat) (exchange routingKey content : string)
  (result : outcome unit) (meanwhile : BridgeInternalState → BridgeInternalState)
  : M BridgeInternalState unit :=
  call (Publish channel exchange routingKey content "application/json"
          (opt_deliveryMode options) (bool_decide (opt_deliveryMode options = 2)))
    (Returned ()) ;;
  modify meanwhile ;;
  settle result.

(** [handleMessage(msg, exchange)] *)
Definition handleMessage (msg : option ConsumeMessage) (exchange : string)
  (env : MessageEnv) (meanwhile : BridgeInternalState → BridgeInternalState)
  : M BridgeInternalState unit :=
  s ← get;
  match msg, consumerChannel s, producerChannel s with
  | Some msg, Some consumerChannel, Some producerChannel =>
      let routingKey := routingKey msg in
      tryCatch
        (forwardMessage producerChannel exchange routingKey (content msg)
           (forwarded env) meanwhile ;;
         logForwarded exchange routingKey (date env) ;;
         call (Ack consumerChannel msg) (acked env))
        (λ message,
           modify (λ s, setMetrics
                          {| messagesForwarded := messagesForwarded (metrics s);
                             messagesFailed := messagesFailed (metrics s) + 1;
                             lastMessageAt := lastMessageAt (metrics s) |} s) ;;
           if includes "Channel closed" message || includes "channel closed" message
           then
             b ← shouldLogError (now1 env);
             when b
               (call (Warn "[bridge] Channel closed, messages will be redelivered on reconnect")
                  (Returned ()))
           else
             b ← shouldLogError (now1 env);
             when b
               (call (Error ("[bridge] Forward error (" +:+ exchange +:+ " -> " +:+ routingKey
                             +:+ "): " +:+ message)) (Returned ())) ;;
             tryCatch
               (let requeue := negb (redelivered msg) in
                call (Nack consumerChannel msg false requeue) (nacked env) ;;
                if negb requeue then
                  b ← shouldLogError (now2 env);
                  when b
                    (call (Error ("[bridge] Message permanently failed: " +:+ exchange
                                  +:+ " -> " +:+ routingKey)) (Returned ()))
                else ret ())
               (λ _, ret ()))
  | _, _, _ => ret ()
  end.

End Program.

(** [createBridge(options)] at time [now]: the state, the object it
    returns, and the two managers as the call leaves them. *)
Definition createBridge (options : BridgeOptions) (source target : Connection.Manager)
  (now : Z)
  : BridgeInternalState * gmap string Method * Connection.Manager * Connection.Manager :=
  ({| consumerChannel := None; producerChannel := None; isRunning := false;
      consumerTags := [];
      metrics := {| messagesForwarded := 0; messagesFailed := 0; lastMessageAt := None |};
      errorLogCount := 0; lastErrorLogReset := now |},
   {[ "start"%string := start; "stop"%string := stop; "isRunning"%string := isRunning_;
      "getMetrics"%string := getMetrics; "getState"%string := getState ]},
   source, target).

(** A run of the limiter: the answers to calls at the given times, the
    lines logged, and the state left. *)
Fixpoint shouldLogErrors (times : list Z) (s : BridgeInternalState)
  : list bool * list Call * BridgeInternalState :=
  match times with
  | [] => ([], [], s)
  | now :: times =>
      match shouldLogError now s with
      | (Returned b, s1, t1) =>
          let '(bs, t2, s2) := shouldLogErrors times s1 in (b :: bs, t1 ++ t2, s2)
      | (Thrown _, s1, t1) => ([], t1, s1)
      end
  end.

(** The summary line for [n] suppressed error logs. *)
Definition suppressed (n : Z) : Call :=
  Warn ("[bridge] Suppressed " +:+ showZ n +:+ " error logs in last "
        +:+ showZ ERROR_LOG_WINDOW_MS +:+ "ms").

End Bridge.

(** ** More invariants of the manager *)
Module ManagerInvariants.
Import JsSet Connection.

(** No [connectWithRetry] is suspended, and none can be started: the
    manager is shutting down, or no connection has its "close" observer
    attached. *)
Definition idle (m : Manager) : Prop :=
  pending m = None ∧ (isShuttingDown (st m) = true ∨ armed m = []).

(** What the metrics and the state of every manager satisfy at rest
    (between two events), whatever the observers do. *)
Definition consistent (m : Manager) : Prop :=
  (isShuttingDown (st m) = false → closing m = 0%nat)
  ∧ (isShuttingDown (st m) = false → ∀ l, pending m = Some l → pc l = AwaitConnect →
     state (st m) = connecting)
  ∧ state (st m) ≠ reconnecting
  ∧ connectionState (metrics m) ≠ reconnecting
  ∧ (state (st m) = connected → reconnectAttempt (metrics m) = 0)
  ∧ 0 ≤ connectionsLost (metrics m)
  ∧ connectionsLost (metrics m) + Z.of_nat (length (armed m))
    ≤ connectionsEstablished (metrics m).

(** [options.onDisconnect], when configured, returns. *)
Definition disconnectReturns (options : ResilientConnectionOptions) : Prop :=
  onDisconnect options = false ∨ ∀ lost, onDisconnectEnds options lost = Returned ().

(** Until [close()] is called the metrics hold the state of the manager. *)
Definition agrees (m : Manager) : Prop :=
  isShuttingDown (st m) = false → connectionState (metrics m) = state (st m).

End ManagerInvariants.

(** ** The metrics collector ([metrics.ts]), in full *)
Module MetricsCollector.

(** [interface MutableMetrics]; a [Date] is the time it holds. *)
Record MutableMetrics : Type := {
  connectionState : Connection.ConnectionState;
  connectionsEstablished : Z;
  connectionsLost : Z;
  messagesPublished : Z;
  messagesPublishFailed : Z;
  messagesConsumed : Z;
  messagesConsumeFailed : Z;
  lastPublishAt : option Z;
  lastConsumeAt : option Z;
  reconnectAttempt : Z;
}.

(** The state [createMetricsCollector] starts from. *)
Definition createMetricsCollector : MutableMetrics :=
  {| connectionState := Connection.disconnected; connectionsEstablished := 0;
     connectionsLost := 0; messagesPublished := 0; messagesPublishFailed := 0;
     messagesConsumed := 0; messagesConsumeFailed := 0; lastPublishAt := None;
     lastConsumeAt := None; reconnectAttempt := 0 |}.

(** [getMetrics()]: [{ ...state }], a copy. *)
Definition getMetrics (s : MutableMetrics) : MutableMetrics := s.

Definition recordConnect (s : MutableMetrics) : MutableMetrics :=
  {| connectionState := Connection.connected;
     connectionsEstablished := connectionsEstablished s + 1;
     connectionsLost := connectionsLost s; messagesPublished := messagesPublished s;
     messagesPublishFailed := messagesPublishFailed s;
     messagesConsumed := messagesConsumed s;
     messagesConsumeFailed := messagesConsumeFailed s; lastPublishAt := lastPublishAt s;
     lastConsumeAt := lastConsumeAt s; reconnectAttempt := 0 |}.

Definition recordDisconnect (s : MutableMetrics) : MutableMetrics :=
  {| connectionState := Connection.disconnected;
     connectionsEstablished := connectionsEstablished s;
     connectionsLost := connectionsLost s + 1; messagesPublished := messagesPublished s;
     messagesPublishFailed := messagesPublishFailed s;
     messagesConsumed := messagesConsumed s;
     messagesConsumeFailed := messagesConsumeFailed s; lastPublishAt := lastPublishAt s;
     lastConsumeAt := lastConsumeAt s; reconnectAttempt := reconnectAttempt s |}.

(** [now] is what [new Date()] reads. *)
Definition recordPublish (now : Z) (s : MutableMetrics) : MutableMetrics :=
  {| connectionState := connectionState s;
     connectionsEstablished := connectionsEstablished s;
     connectionsLost := connectionsLost s; messagesPublished := messagesPublished s + 1;
     messagesPublishFailed := messagesPublishFailed s;
     messagesConsumed := messagesConsumed s;
     messagesConsumeFailed := messagesConsumeFailed s; lastPublishAt := Some now;
     lastConsumeAt := lastConsumeAt s; reconnectAttempt := reconnectAttempt s |}.

Definition recordPublishFailed (s : MutableMetrics) : MutableMetrics :=
  {| connectionState := connectionState s;
     connectionsEstablished := connectionsEstablished s;
     connectionsLost := connectionsLost s; messagesPublished := messagesPublished s;
     messagesPublishFailed := messagesPublishFailed s + 1;
     messagesConsumed := messagesConsumed s;
     messagesConsumeFailed := messagesConsumeFailed s; lastPublishAt := lastPublishAt s;
     lastConsumeAt := lastConsumeAt s; reconnectAttempt := reconnectAttempt s |}.

Definition recordConsume (now : Z) (s : MutableMetrics) : MutableMetrics :=
  {| connectionState := connectionState s;
     connectionsEstablished := connectionsEstablished s;
     connectionsLost := connectionsLost s; messagesPublished := messagesPublished s;
     messagesPublishFailed := messagesPublishFailed s;
     messagesConsumed := messagesConsumed s + 1;
     messagesConsumeFailed := messagesConsumeFailed s; lastPublishAt := lastPublishAt s;
     lastConsumeAt := Some now; reconnectAttempt := reconnectAttempt s |}.

Definition recordConsumeFailed (s : MutableMetrics) : MutableMetrics :=
  {| connectionState := connectionState s;
     connectionsEstablished := connectionsEstablished s;
     connectionsLost := connectionsLost s; messagesPublished := messagesPublished s;
     messagesPublishFailed := messagesPublishFailed s;
     messagesConsumed := messagesConsumed s;
     messagesConsumeFailed := messagesConsumeFailed s + 1; lastPublishAt := lastPublishAt s;
     lastConsumeAt := lastConsumeAt s; reconnectAttempt := reconnectAttempt s |}.

Definition setConnectionState (newState : Connection.ConnectionState) (s : MutableMetrics)
  : MutableMetrics :=
  {| connectionState := newState;
     connectionsEstablished := connectionsEstablished s;
     connectionsLost := connectionsLost s; messagesPublished := messagesPublished s;
     messagesPublishFailed := messagesPublishFailed s;
     messagesConsumed := messagesConsumed s;
     messagesConsumeFailed := messagesConsumeFailed s; lastPublishAt := lastPublishAt s;
     lastConsumeAt := lastConsumeAt s; reconnectAttempt := reconnectAttempt s |}.

Definition setReconnectAttempt (attempt : Z) (s : MutableMetrics) : MutableMetrics :=
  {| connectionState := connectionState s;
     connectionsEstablished := connectionsEstablished s;
     connectionsLost := connectionsLost s; messagesPublished := messagesPublished s;
     messagesPublishFailed := messagesPublishFailed s;
     messagesConsumed := messagesConsumed s;
     messagesConsumeFailed := messagesConsumeFailed s; lastPublishAt := lastPublishAt s;
     lastConsumeAt := lastConsumeAt s; reconnectAttempt := attempt |}.

Definition reset (s : MutableMetrics) : MutableMetrics := createMetricsCollector.

(** A call on the collector, and a sequence of calls. *)
Inductive Op : Type :=
| RecordConnect
| RecordDisconnect
| RecordPublish (now : Z)
| RecordPublishFailed
| RecordConsume (now : Z)
| RecordConsumeFailed
| SetConnectionState (newState : Connection.ConnectionState)
| SetReconnectAttempt (attempt : Z)
| Reset.

Definition apply (s : MutableMetrics) (op : Op) : MutableMetrics :=
  match op with
  | RecordConnect => recordConnect s
  | RecordDisconnect => recordDisconnect s
  | RecordPublish now => recordPublish now s
  | RecordPublishFailed => recordPublishFailed s
  | RecordConsume now => recordConsume now s
  | RecordConsumeFailed => recordConsumeFailed s
  | SetConnectionState x => setConnectionState x s
  | SetReconnectAttempt n => setReconnectAttempt n s
  | Reset => reset s
  end.

Definition applyAll (ops : list Op) (s : MutableMetrics) : MutableMetrics :=
  foldl apply s ops.

(** The calls made since the last [reset()]. *)
Definition sinceReset (ops : list Op) : list Op :=
  foldl (λ acc op, match op with Reset => [] | _ => acc ++ [op] end) [] ops.

(** How many of the calls are of one kind. *)
Definition count (p : Op → bool) (ops : list Op) : Z := Z.of_nat (length (List.filter p ops)).

Definition isRecordConnect (op : Op) : bool :=
  match op with RecordConnect => true | _ => false end.
Definition isRecordDisconnect (op : Op) : bool :=
  match op with RecordDisconnect => true | _ => false end.
Definition isRecordPublish (op : Op) : bool :=
  match op with RecordPublish _ => true | _ => false end.
Definition isRecordPublishFailed (op : Op) : bool :=
  match op with RecordPublishFailed => true | _ => false end.
Definition isRecordConsume (op : Op) : bool :=
  match op with RecordConsume _ => true | _ => false end.
Definition isRecordConsumeFailed (op : Op) : bool :=
  match op with RecordConsumeFailed => true | _ => false end.

(** The counters, against the calls since the last reset. *)
Definition counted (ops : list Op) (s : MutableMetrics) : Prop :=
  connectionsEstablished s = count isRecordConnect ops
  ∧ connectionsLost s = count isRecordDisconnect ops
  ∧ messagesPublished s = count isRecordPublish ops
  ∧ messagesPublishFailed s = count isRecordPublishFailed ops
  ∧ messagesConsumed s = count isRecordConsume ops
  ∧ messagesConsumeFailed s = count isRecordConsumeFailed ops.

(** What a collector satisfies whatever was called on it. *)
Definition coherent (s : MutableMetrics) : Prop :=
  0 ≤ messagesPublished s ∧ 0 ≤ messagesConsumed s
  ∧ (lastPublishAt s = None ↔ messagesPublished s = 0)
  ∧ (lastConsumeAt s = None ↔ messagesConsumed s = 0).

(** The part of the collector the connection manager writes. *)
Definition view (s : MutableMetrics) : Connection.Metrics :=
  {| Connection.connectionState := connectionState s;
     Connection.connectionsEstablished := connectionsEstablished s;
     Connection.connectionsLost := connectionsLost s;
     Connection.reconnectAttempt := reconnectAttempt s |}.

End MetricsCollector.

(** ** The publisher: the rest of the object [createPublisher] returns *)
Module PublisherRest.
Import Js Publisher.

(** How [await state.channel.close()] ends in [close()], and whether the
    channel emits "close" before [close()] goes on. *)
Record CloseEnv : Type := {
  closed : outcome unit;
  closeEvent : bool;
}.

Section Program.
Variable options : PublisherOptions.
Local Abbreviation opts := (withDefaults options).

(** [isReady()] *)
Definition isReady_ (s : PublisherState) : bool :=
  isReady s && bool_decide (channel s ≠ None).

(** [close()] *)
Definition close (env : CloseEnv) : M PublisherState unit :=
  s ← get;
  match channel s with
  | Some ch =>
      tryCatch
        (call (ChannelClose ch) (closed env) ;;
         when (closeEvent env) (channelClosed options) ;;
         call (Info ("[burrow:publisher] Closed for exchange " +:+ opt_exchange opts))
           (Returned ()))
        (λ message,
           call (Error ("[burrow:publisher] Error closing: " +:+ message)) (Returned ()))
  | None => ret ()
  end ;;
  modify (setChannel None) ;;
  modify (setReady false).

(** [getMetrics()]: the two counters and the time of the last publish. *)
Definition getMetrics (s : PublisherState) : Z * Z * option Z :=
  (messagesPublished s, messagesPublishFailed s, lastPublishAt s).

(** One [publish] and, when the broker took the call, its confirmation:
    [err] is what the confirmation callback is given, at time [now]. *)
Definition publishAndConfirm (routingKey : string) (content : Content)
  (broker : outcome unit) (err : option string) (now : Z) (s : PublisherState)
  : PublisherState :=
  match publish options routingKey content broker s with
  | (Returned Pending, s1, _) => confirmed err now s1
  | (_, s1, _) => s1
  end.

End Program.
End PublisherRest.

(** ** The consumer: the rest of the object [createConsumer] returns *)
Module ConsumerRest.
Import Js Consumer.

(** How the awaited calls of [stop()] and [close()] end:
    [state.channel.cancel(tag)], which is not among the calls recorded,
    and [state.channel.close()]; and whether the channel emits "close"
    before [close()] goes on.  Nothing else is taken to run between the
    awaits. *)
Record CloseEnv : Type := {
  cancelled : outcome unit;
  closed : outcome unit;
  closeEvent : bool;
}.

Section Program.
Variable options : ConsumerOptions.

(** [start()] *)
Definition start (m : Connection.Manager) (env : SetupEnv) (consumed : outcome string)
  : M ConsumerState unit :=
  s ← get;
  match channel s with
  | None => setup options m env
  | Some _ => ret ()
  end ;;
  s ← get;
  match channel s with
  | None => throw "Failed to setup channel"
  | Some _ =>
      if isActive s then
        call (Warn ("[burrow:consumer] Already consuming from " +:+ queue options))
          (Returned ())
      else
        startConsuming options consumed ;;
        call (Info ("[burrow:consumer] Started consuming from " +:+ queue options))
          (Returned ())
  end.

(** [stop()]; an empty consumer tag is falsy. *)
Definition stop (cancelled : outcome unit) : M ConsumerState unit :=
  s ← get;
  match channel s, consumerTag s with
  | Some _, Some tag =>
      if bool_decide (tag = ""%string) then ret ()
      else
        tryCatch
          (settle cancelled ;;
           call (Info ("[burrow:consumer] Stopped consuming from " +:+ queue options))
             (Returned ()))
          (λ message,
             call (Error ("[burrow:consumer] Error stopping: " +:+ message)) (Returned ()))
  | _, _ => ret ()
  end ;;
  modify (setConsumerTag None) ;;
  modify (setActive false) ;;
  modify (setWasActive false).

(** [close()]: the consumer's state and calls, and the manager as the
    call leaves it. *)
Definition close (m : Connection.Manager) (env : CloseEnv) (s : ConsumerState)
  : (outcome unit * ConsumerState * list Call) * Connection.Manager :=
  ((modify (setUnsubscribe None) ;;
    stop (cancelled env) ;;
    s ← get;
    match channel s with
    | Some ch =>
        tryCatch (call (ChannelClose ch) (closed env)) (λ _, ret ()) ;;
        when (closeEvent env) (channelClosed options) ;;
        modify (setChannel None)
    | None => ret ()
    end) s,
   match unsubscribeReconnect s with
   | Some callback => Connection.unsubscribe callback m
   | None => m
   end).

(** [getMetrics()] *)
Definition getMetrics (s : ConsumerState) : Z * Z * option Z :=
  (messagesConsumed s, messagesConsumeFailed s, lastConsumeAt s).

(** Whether the consumer was consuming when its channel was lost, as
    [handleReconnect] sees it once [setup] has closed a stale channel: the
    "close" observer of that channel copies the active flag into the
    was-active flag. *)
Definition toResume (env : SetupEnv) (s : ConsumerState) : bool :=
  if Consumer.closeEvent env && bool_decide (is_Some (channel s)) then isActive s
  else wasActive s.

(** The [consume] calls among the calls made. *)
Definition consumes (t : list Call) : list Call :=
  List.filter (λ c, match c with Consume _ _ => true | _ => false end) t.

End Program.
End ConsumerRest.

(** ** The bridge: [start], [stop] and [getState] *)
Module BridgeRest.
Import Js Bridge.

Definition setConsumerChannel (c : option nat) (s : BridgeInternalState) :=
  {| consumerChannel := c; producerChannel := producerChannel s;
     isRunning := isRunning s; consumerTags := consumerTags s; metrics := metrics s;
     errorLogCount := errorLogCount s; lastErrorLogReset := lastErrorLogReset s |}.
Definition setProducerChannel (c : option nat) (s : BridgeInternalState) :=
  {| consumerChannel := consumerChannel s; producerChannel := c;
     isRunning := isRunning s; consumerTags := consumerTags s; metrics := metrics s;
     errorLogCount := errorLogCount s; lastErrorLogReset := lastErrorLogReset s |}.
Definition setRunning (b : bool) (s : BridgeInternalState) :=
  {| consumerChannel := consumerChannel s; producerChannel := producerChannel s;
     isRunning := b; consumerTags := consumerTags s; metrics := metrics s;
     errorLogCount := errorLogCount s; lastErrorLogReset := lastErrorLogReset s |}.
Definition setConsumerTags (tags : list string) (s : BridgeInternalState) :=
  {| consumerChannel := consumerChannel s; producerChannel := producerChannel s;
     isRunning := isRunning s; consumerTags := tags; metrics := metrics s;
     errorLogCount := errorLogCount s; lastErrorLogReset := lastErrorLogReset s |}.

(** How the awaited calls of [start()] end; the calls made in the loop
    over the exchanges are told apart by the position of the exchange in
    [options.exchanges]. *)
Record StartEnv : Type := {
  sourceChannel : outcome nat;      (* the source connection's createChannel() *)
  targetChannel : outcome nat;      (* the target connection's createConfirmChannel() *)
  prefetched : outcome unit;
  consumerExchange : nat → outcome unit;
  producerExchange : nat → outcome unit;
  queueAsserted : nat → outcome unit;
  queueBound : nat → outcome unit;
  consumed : nat → outcome string;
  started : outcome unit;           (* options.onStart() *)
}.

(** How the calls of [stop()] end: [cancel] of the tag at each position,
    which is not among the calls recorded, [close] of the two channels,
    and the observer. *)
Record StopEnv : Type := {
  cancelled : nat → outcome unit;
  consumerClosed : outcome unit;
  producerClosed : outcome unit;
  stopped : outcome unit;           (* options.onStop() *)
}.

(** [interface BridgeState] *)
Record BridgeState : Type := {
  sourceConnected : bool;
  targetConnected : bool;
  running : bool;                   (* isRunning *)
  bridgeMetrics : BridgeMetrics;    (* metrics *)
}.

Section Program.
Variable options : BridgeOptions.

(** [state.consumerChannel.f(...)] and [state.producerChannel.f(...)]: a
    [TypeError] when the channel is [null]. *)
Definition consumerChannelOrTypeError : M BridgeInternalState nat :=
  s ← get;
  match consumerChannel s with
  | Some ch => ret ch
  | None => throw "Cannot read properties of null"
  end.

Definition producerChannelOrTypeError : M BridgeInternalState nat :=
  s ← get;
  match producerChannel s with
  | Some ch => ret ch
  | None => throw "Cannot read properties of null"
  end.

(** The body of [for (const exchange of options.exchanges)], from the
    exchange at position [i] on. *)
Fixpoint consumeAll (env : StartEnv) (i : nat) (exchanges : list string)
  : M BridgeInternalState unit :=
  match exchanges with
  | [] => ret ()
  | exchange :: exchanges =>
      cc ← consumerChannelOrTypeError;
      call (AssertExchange cc exchange "topic" true) (consumerExchange env i) ;;
      pc ← producerChannelOrTypeError;
      call (AssertExchange pc exchange "topic" true) (producerExchange env i) ;;
      let queueName := (opt_queuePrefix options +:+ exchange)%string in
      cc ← consumerChannelOrTypeError;
      tryCatch
        (call (AssertQueue cc queueName true) (queueAsserted env i))
        (λ message,
           call (Warn ("[bridge] Queue " +:+ queueName +:+ " assertion warning: "
                       +:+ message)) (Returned ())) ;;
      cc ← consumerChannelOrTypeError;
      call (BindQueue cc queueName exchange "#") (queueBound env i) ;;
      cc ← consumerChannelOrTypeError;
      consumerTag ← call (Consume cc queueName) (consumed env i);
      modify (λ s, setConsumerTags (consumerTags s ++ [consumerTag]) s) ;;
      call (Info ("[bridge] Consuming from " +:+ queueName)) (Returned ()) ;;
      consumeAll env (S i) exchanges
  end.

(** [start()].  The observer [options.onStart] is called last, outside
    any [try]: when it throws, [start()] is rejected, with the bridge
    running.  It is not among the calls recorded. *)
Definition start (source target : Connection.Manager) (env : StartEnv)
  : M BridgeInternalState bool :=
  if negb (Connection.isConnected source) || negb (Connection.isConnected target) then
    call (Warn "[bridge] Cannot start - waiting for both connections") (Returned ()) ;;
    ret false
  else
    s ← get;
    match consumerChannel s with
    | None => modify (setConsumerChannel (Connection.createChannel source (sourceChannel env)))
    | Some _ => ret ()
    end ;;
    s ← get;
    match producerChannel s with
    | None =>
        modify (setProducerChannel
                  (Connection.createConfirmChannel target (targetChannel env)))
    | Some _ => ret ()
    end ;;
    s ← get;
    match consumerChannel s, producerChannel s with
    | Some _, Some _ =>
        modify (setConsumerTags []) ;;
        cc ← consumerChannelOrTypeError;
        call (Prefetch cc (opt_prefetch options)) (prefetched env) ;;
        consumeAll env 0 (exchanges options) ;;
        modify (setRunning true) ;;
        call (Info "[bridge] Started - forwarding messages") (Returned ()) ;;
        when (onStart options) (eval (started env)) ;;
        ret true
    | _, _ =>
        call (Warn "[bridge] Cannot start - failed to create channels") (Returned ()) ;;
        ret false
    end.

(** [for (const tag of state.consumerTags)
       { try { await state.consumerChannel?.cancel(tag); } catch { } }] *)
Fixpoint cancelAll (env : StopEnv) (i : nat) (tags : list string)
  : M BridgeInternalState unit :=
  match tags with
  | [] => ret ()
  | _ :: tags =>
      s ← get;
      match consumerChannel s with
      | Some _ => tryCatch (settle (cancelled env i)) (λ _, ret ())
      | None => ret ()
      end ;;
      cancelAll env (S i) tags
  end.

(** [stop()].  The observer [options.onStop] is called last, outside any
    [try]: when it throws, [stop()] is rejected, with the bridge stopped.
    It is not among the calls recorded. *)
Definition stop (env : StopEnv) : M BridgeInternalState unit :=
  s ← get;
  cancelAll env 0 (consumerTags s) ;;
  modify (setConsumerTags []) ;;
  s ← get;
  match consumerChannel s with
  | Some ch => tryCatch (call (ChannelClose ch) (consumerClosed env)) (λ _, ret ())
  | None => ret ()
  end ;;
  s ← get;
  match producerChannel s with
  | Some ch => tryCatch (call (ChannelClose ch) (producerClosed env)) (λ _, ret ())
  | None => ret ()
  end ;;
  modify (setConsumerChannel None) ;;
  modify (setProducerChannel None) ;;
  modify (setRunning false) ;;
  call (Info "[bridge] Stopped") (Returned ()) ;;
  when (onStop options) (eval (stopped env)).

End Program.

(** [getState()] *)
Definition getState (source target : Connection.Manager) (s : BridgeInternalState)
  : BridgeState :=
  {| sourceConnected := Connection.isConnected source;
     targetConnected := Connection.isConnected target;
     running := isRunning s;
     bridgeMetrics := metrics s |}.

(** The channels [start()] works on: the ones the bridge holds, else new
    ones from the connections. *)
Definition channelsFor (source target : Connection.Manager) (env : StartEnv)
  (s : BridgeInternalState) : option nat * option nat :=
  (match consumerChannel s with
   | Some cc => Some cc
   | None => Connection.createChannel source (sourceChannel env)
   end,
   match producerChannel s with
   | Some pc => Some pc
   | None => Connection.createConfirmChannel target (targetChannel env)
   end).

(** The tags and the queues of a [start()] in which all goes well. *)
Definition tagsOf (env : StartEnv) (exchanges : list string) : list string :=
  omap (λ i, match consumed env i with Returned tag => Some tag | Thrown _ => None end)
    (seq 0 (length exchanges)).

Definition queuesOf (options : BridgeOptions) (ch : nat) (exchanges : list string)
  : list Call :=
  (λ exchange, Consume ch (opt_queuePrefix options +:+ exchange)%string) <$> exchanges.

(** The [consume] calls among the calls made. *)
Definition consumes (t : list Call) : list Call :=
  List.filter (λ c, match c with Consume _ _ => true | _ => false end) t.

(** All goes well for the exchanges at positions [i] to [j - 1]. *)
Definition cooperative (env : StartEnv) (i j : nat) : Prop :=
  ∀ p, (i ≤ p < j)%nat →
    consumerExchange env p = Returned () ∧ producerExchange env p = Returned ()
    ∧ queueBound env p = Returned () ∧ ∃ tag, consumed env p = Returned tag.

(** [logForwarded] for each of the messages of a list, in turn: the
    exchange, the routing key and the time of each. *)
Fixpoint logForwardedAll (options : BridgeOptions) (messages : list (string * string * Z))
  : M BridgeInternalState unit :=
  match messages with
  | [] => ret ()
  | (exchange, routingKey, date) :: messages =>
      logForwarded options exchange routingKey date ;;
      logForwardedAll options messages
  end.

(** The progress lines among the calls made. *)
Definition infos (t : list Call) : list Call :=
  List.filter (λ c, match c with Info _ => true | _ => false end) t.

(** The first call that fails for the exchange at position [p], when one
    does; a failed [assertQueue] is not a failure of [start()]. *)
Definition failsAt (env : StartEnv) (p : nat) (message : string) : Prop :=
  consumerExchange env p = Thrown message
  ∨ (consumerExchange env p = Returned () ∧ producerExchange env p = Thrown message)
  ∨ (consumerExchange env p = Returned () ∧ producerExchange env p = Returned ()
     ∧ queueBound env p = Thrown message)
  ∨ (consumerExchange env p = Returned () ∧ producerExchange env p = Returned ()
     ∧ queueBound env p = Returned () ∧ consumed env p = Thrown message).

End BridgeRest.

(** ** Inputs used in evaluations *)
Module Examples.
Import Js.

Definition jobs : Consumer.ConsumerOptions :=
  {| Consumer.queue := "jobs"; Consumer.exchange := None; Consumer.routingKey := None;
     Consumer.durable := None; Consumer.prefetch := None; Consumer.onError := false |}.

(** A consumer with a channel, not consuming. *)
Definition idleConsumer : Consumer.ConsumerState :=
  {| Consumer.channel := Some 3%nat; Consumer.consumerTag := None;
     Consumer.isActive := false; Consumer.wasActive := false;
     Consumer.messagesConsumed := 0; Consumer.messagesConsumeFailed := 0;
     Consumer.lastConsumeAt := None; Consumer.unsubscribeReconnect := Some 4%nat |}.

(** The broker accepts every call of [setup] and gives channel 3. *)
Definition brokerAccepts : Consumer.SetupEnv :=
  {| Consumer.closeStale := Returned (); Consumer.closeEvent := true;
     Consumer.newChannel := Returned 3%nat; Consumer.prefetched := Returned ();
     Consumer.assertQueue := Returned (); Consumer.assertExchange := Returned ();
     Consumer.bindQueue := Returned () |}.

Definition userCreated : ConsumeMessage :=
  {| content := "{}"; routingKey := "user.created"; redelivered := false |}.

(** A bridge over two exchanges, with the defaults. *)
Definition twoExchanges : Bridge.BridgeOptions :=
  {| Bridge.exchanges := ["events"; "audit"]%string; Bridge.prefetch := None;
     Bridge.queuePrefix := None; Bridge.deliveryMode := None;
     Bridge.logEveryNMessages := Some 2; Bridge.onStart := false; Bridge.onStop := false |}.

(** A bridge that holds consumer channel 1 and producer channel 2. *)
Definition runningBridge : Bridge.BridgeInternalState :=
  {| Bridge.consumerChannel := Some 1%nat; Bridge.producerChannel := Some 2%nat;
     Bridge.isRunning := true; Bridge.consumerTags := ["t"%string];
     Bridge.metrics := {| Bridge.messagesForwarded := 0; Bridge.messagesFailed := 0;
                          Bridge.lastMessageAt := None |};
     Bridge.errorLogCount := 0; Bridge.lastErrorLogReset := 0 |}.

(** The broker accepts every call of [start()]; the tag of the consumer
    of the exchange at position 0 is "tag-0", the others' "tag-n". *)
Definition startAccepted : BridgeRest.StartEnv :=
  {| BridgeRest.sourceChannel := Returned 1%nat; BridgeRest.targetChannel := Returned 2%nat;
     BridgeRest.prefetched := Returned ();
     BridgeRest.consumerExchange := λ _, Returned ();
     BridgeRest.producerExchange := λ _, Returned ();
     BridgeRest.queueAsserted := λ _, Returned ();
     BridgeRest.queueBound := λ _, Returned ();
     BridgeRest.consumed := λ i, Returned (if Nat.eqb i 0 then "tag-0" else "tag-n")%string;
     BridgeRest.started := Returned () |}.

(** As [startAccepted], but [consume] fails for the exchange at position 1. *)
Definition secondConsumeFails : BridgeRest.StartEnv :=
  {| BridgeRest.sourceChannel := Returned 1%nat; BridgeRest.targetChannel := Returned 2%nat;
     BridgeRest.prefetched := Returned ();
     BridgeRest.consumerExchange := λ _, Returned ();
     BridgeRest.producerExchange := λ _, Returned ();
     BridgeRest.queueAsserted := λ _, Returned ();
     BridgeRest.queueBound := λ _, Returned ();
     BridgeRest.consumed := λ i, if Nat.eqb i 0 then Returned "tag-0"%string
                                 else Thrown "access refused";
     BridgeRest.started := Returned () |}.

(** A bridge just made, at time 0. *)
Definition newBridge : Bridge.BridgeInternalState :=
  {| Bridge.consumerChannel := None; Bridge.producerChannel := None;
     Bridge.isRunning := false; Bridge.consumerTags := [];
     Bridge.metrics := {| Bridge.messagesForwarded := 0; Bridge.messagesFailed := 0;
                          Bridge.lastMessageAt := None |};
     Bridge.errorLogCount := 0; Bridge.lastErrorLogReset := 0 |}.

End Examples.

(** * Properties *)

(** ** Facts about [Set] *)
Module JsSetFacts.
Import JsSet.

Lemma has_spec k d : has k d = true ↔ Some k ∈ d.
Proof. unfold has. rewrite bool_decide_eq_true. done. Qed.

Lemma elem_of_values k d : k ∈ values d ↔ Some k ∈ d.
Proof.
  unfold values. rewrite list_elem_of_omap. split.
  - intros ([x|] & Hx & Hk); simplify_eq/=. done.
  - intros Hk. exists (Some k). done.
Qed.

Lemma values_snoc d k : values (d ++ [Some k]) = values d ++ [k].
Proof. unfold values. by rewrite omap_app. Qed.

Lemma values_delete k d : values (delete k d) = filter (λ x, x ≠ k) (values d).
Proof.
  unfold values, delete. induction d as [|[x|] d IH]; [done| |done].
  rewrite fmap_cons. cbn [omap list_omap id]. rewrite filter_cons.
  case_bool_decide as E; simplify_eq.
  - rewrite decide_False by naive_solver. done.
  - rewrite decide_True by naive_solver. cbn. by f_equal.
Qed.

Lemma delete_drop k d i : drop i (delete k d) = delete k (drop i d).
Proof. unfold delete. by rewrite fmap_drop. Qed.

Lemma length_delete k d : length (delete k d) = length d.
Proof. unfold delete. by rewrite length_fmap. Qed.

Lemma length_add k d : (length d ≤ length (add k d))%nat.
Proof. unfold add. destruct (has k d); [done|]. rewrite length_app. lia. Qed.

Lemma lookup_delete_Some k d p x :
  delete k d !! p = Some (Some x) ↔ d !! p = Some (Some x) ∧ x ≠ k.
Proof.
  unfold delete. rewrite list_lookup_fmap.
  destruct (d !! p) as [[y|]|]; simpl.
  - case_bool_decide as E; split.
    + done.
    + intros [? ?]. congruence.
    + intros ?. split; congruence.
    + intros [? ?]. done.
  - split; [done|]. by intros [? _].
  - split; [done|]. by intros [? _].
Qed.

Lemma lookup_delete_hole k d p :
  d !! p = Some None → delete k d !! p = Some None.
Proof. unfold delete. rewrite list_lookup_fmap. by intros ->. Qed.

Lemma lookup_add_old k d p e :
  d !! p = Some e → add k d !! p = Some e.
Proof.
  unfold add. destruct (has k d); [done|]. intros H.
  rewrite lookup_app_l; [done|]. by eapply lookup_lt_Some.
Qed.

Lemma lookup_add_inv k d p x :
  (p < length d)%nat → add k d !! p = Some (Some x) → d !! p = Some (Some x).
Proof.
  unfold add. destruct (has k d); [done|]. intros H. by rewrite lookup_app_l.
Qed.

Lemma wf_add k d : wf d → wf (add k d).
Proof.
  unfold wf, add. destruct (has k d) eqn:E; [done|]. intros H.
  rewrite values_snoc. apply NoDup_app. split_and!; [done| |apply NoDup_singleton].
  intros x Hx ->%list_elem_of_singleton.
  apply elem_of_values, has_spec in Hx. congruence.
Qed.

Lemma wf_delete k d : wf d → wf (delete k d).
Proof. unfold wf. rewrite values_delete. apply NoDup_filter. Qed.

End JsSetFacts.

(** ** The subscriber loop *)
Module NotifyFacts.
Import JsSet JsSetFacts Connection.

Lemma evolves_refl d : evolves d d.
Proof. by split_and!. Qed.

Lemma evolves_trans d1 d2 d3 : evolves d1 d2 → evolves d2 d3 → evolves d1 d3.
Proof.
  intros (L1 & A1 & B1) (L2 & A2 & B2). split_and!.
  - lia.
  - intros p x Hp H. apply A1; [done|]. apply A2; [lia|done].
  - intros p H. by apply B2, B1.
Qed.

Lemma evolves_applyOp d o : evolves d (applyOp d o).
Proof.
  destruct o as [k|k]; simpl; split_and!.
  - apply length_add.
  - intros p x. apply lookup_add_inv.
  - intros p. apply lookup_add_old.
  - by rewrite length_delete.
  - intros p x _ H. by apply lookup_delete_Some in H as [? _].
  - intros p. apply lookup_delete_hole.
Qed.

Lemma evolves_applyOps os d : evolves d (foldl applyOp d os).
Proof.
  revert d. induction os as [|o os IH]; intros d; simpl; [apply evolves_refl|].
  eapply evolves_trans; [apply evolves_applyOp|apply IH].
Qed.

(** An entry nobody cancels stays where it is. *)
Lemma applyOps_persist os d p k :
  Cancel k ∉ os → d !! p = Some (Some k) → foldl applyOp d os !! p = Some (Some k).
Proof.
  revert d. induction os as [|o os IH]; intros d Hno H; simpl; [done|].
  apply not_elem_of_cons in Hno as [Ho Hno]. apply IH; [done|].
  destruct o as [j|j]; simpl.
  - by apply lookup_add_old.
  - apply lookup_delete_Some. split; [done|]. congruence.
Qed.

Section Notify.
Variable subscriber : nat → nat → Behaviour.

Lemma notify_evolves n : ∀ i d t calls d' t' calls',
  notify subscriber n i d t calls = Some (d', t', calls') →
  evolves d d' ∧ ∃ new, calls' = calls ++ new.
Proof.
  induction n as [|n IH]; intros i d t calls d' t' calls' H; simpl in H; [done|].
  destruct (d !! i) as [[k|]|] eqn:E.
  - apply IH in H as [Hev [new ->]]. split.
    + eapply evolves_trans; [apply evolves_applyOps|done].
    + eexists. by rewrite <- app_assoc.
  - by apply IH in H.
  - simplify_eq. split; [apply evolves_refl|]. exists []. by rewrite app_nil_r.
Qed.

(** Never skipped: a callback that is in the set when the loop ends, at an
    entry the loop had still to visit, has been called. *)
Lemma notify_no_skip n : ∀ i d t calls d' t' calls' p k,
  notify subscriber n i d t calls = Some (d', t', calls') →
  (i ≤ p)%nat → d' !! p = Some (Some k) → k ∈ calls'.*1.
Proof.
  induction n as [|n IH]; intros i d t calls d' t' calls' p k H Hp Hk; simpl in H; [done|].
  destruct (d !! i) as [[k0|]|] eqn:E.
  - destruct (decide (p = i)) as [->|Hne].
    + pose proof (notify_evolves _ _ _ _ _ _ _ _ H) as [(_ & A & _) [new ->]].
      pose proof (evolves_applyOps (ops (subscriber k0 t)) d) as (L & A' & _).
      assert (i < length d)%nat by (by eapply lookup_lt_Some).
      apply A in Hk; [|lia]. apply A' in Hk; [|done]. simplify_eq.
      rewrite !fmap_app. set_solver.
    + eapply IH; [done| |done]. lia.
  - destruct (decide (p = i)) as [->|Hne].
    + pose proof (notify_evolves _ _ _ _ _ _ _ _ H) as [(_ & _ & B) _].
      apply B in E. congruence.
    + eapply IH; [done| |done]. lia.
  - simplify_eq. apply lookup_ge_None_1 in E. apply lookup_lt_Some in Hk. lia.
Qed.

Lemma notify_clock n : ∀ i d t calls d' t' calls',
  notify subscriber n i d t calls = Some (d', t', calls') → (t ≤ t')%nat.
Proof.
  induction n as [|n IH]; intros i d t calls d' t' calls' H; simpl in H; [done|].
  destruct (d !! i) as [[k|]|] eqn:E.
  - apply IH in H. lia.
  - by apply IH in H.
  - by simplify_eq.
Qed.

Lemma length_applyOps os : ∀ d,
  (∀ j, Subscribe j ∉ os) → length (foldl applyOp d os) = length d.
Proof.
  induction os as [|o os IH]; intros d Hno; simpl; [done|].
  rewrite IH by (intros j Hj; apply (Hno j); by right).
  destruct o as [j|j]; simpl; [|apply length_delete].
  destruct (Hno j). left.
Qed.

(** The loop ends when no callback registers a callback: it visits every
    entry once. *)
Lemma notify_returns n : ∀ i d t calls,
  (∀ k τ j, Subscribe j ∉ ops (subscriber k τ)) →
  (length d - i < n)%nat →
  ∃ d' t' calls',
    notify subscriber n i d t calls = Some (d', t', calls') ∧ length d' = length d.
Proof.
  induction n as [|n IH]; intros i d t calls Hno Hn; simpl; [lia|].
  destruct (d !! i) as [[k|]|] eqn:E.
  - apply lookup_lt_Some in E.
    destruct (IH (S i) (foldl applyOp d (ops (subscriber k t))) (S t)
                (calls ++ [(k, throws (subscriber k t))]) Hno)
      as (d' & t' & calls' & H & L).
    { rewrite length_applyOps by apply Hno. lia. }
    rewrite length_applyOps in L by apply Hno. by eexists _, _, _.
  - apply lookup_lt_Some in E.
    destruct (IH (S i) d t calls Hno) as (d' & t' & calls' & H & L); [lia|].
    by eexists _, _, _.
  - by eexists _, _, _.
Qed.

Section Stable.
Context (P : nat → Prop) `{Pdec : !∀ k, Decision (P k)}.
Local Abbreviation spared := (Connection.spared subscriber P).

Lemma spared_weaken t1 t2 t' : (t1 ≤ t2)%nat → spared t1 t' → spared t2 t'.
Proof. intros Hle H k τ j Hτ. apply H. lia. Qed.

Lemma notify_persist n : ∀ i d t calls d' t' calls' p k,
  notify subscriber n i d t calls = Some (d', t', calls') →
  spared t t' → P k → d !! p = Some (Some k) → d' !! p = Some (Some k).
Proof.
  induction n as [|n IH]; intros i d t calls d' t' calls' p k H Hsp HP Hk; simpl in H; [done|].
  destruct (d !! i) as [[k0|]|] eqn:E.
  - pose proof (notify_clock _ _ _ _ _ _ _ _ H) as Hclock.
    eapply IH; [done| |done|].
    + eapply spared_weaken; [|done]. lia.
    + apply applyOps_persist; [|done]. apply Hsp; [lia|done].
  - eapply IH; done.
  - by simplify_eq.
Qed.

(** The calls to callbacks that nobody cancels during the loop are the
    entries of those callbacks in the set the loop ends with. *)
Lemma notify_calls n : ∀ i d t calls d' t' calls',
  notify subscriber n i d t calls = Some (d', t', calls') →
  spared t t' →
  filter P calls'.*1 = filter P calls.*1 ++ filter P (values (drop i d')).
Proof.
  induction n as [|n IH]; intros i d t calls d' t' calls' H Hsp; simpl in H; [done|].
  destruct (d !! i) as [[k|]|] eqn:E.
  - pose proof (notify_evolves _ _ _ _ _ _ _ _ H) as [(L & A & _) _].
    pose proof (evolves_applyOps (ops (subscriber k t)) d) as (L' & A' & _).
    pose proof (notify_clock _ _ _ _ _ _ _ _ H) as Hclock.
    assert (spared (S t) t') as Hsp' by (eapply spared_weaken; [|done]; lia).
    assert (i < length d)%nat by (by eapply lookup_lt_Some).
    rewrite (IH _ _ _ _ _ _ _ H Hsp'), fmap_app, filter_app, <- app_assoc. f_equal.
    destruct (d' !! i) as [e|] eqn:E'; [|apply lookup_ge_None_1 in E'; lia].
    rewrite (drop_S _ _ _ E'). cbn [fmap list_fmap fst].
    destruct (decide (P k)) as [HP|HP].
    + assert (d' !! i = Some (Some k)) as E2.
      { eapply notify_persist; [done..|].
        apply applyOps_persist; [|done]. apply Hsp; [lia|done]. }
      simplify_eq. unfold values. cbn [omap list_omap id].
      by rewrite !filter_cons_True.
    + rewrite filter_cons_False, filter_nil by done. cbn [app].
      destruct e as [x|]; [|done].
      apply A in E'; [|lia]. apply A' in E'; [|done]. simplify_eq.
      unfold values. cbn [omap list_omap id]. by rewrite filter_cons_False.
  - pose proof (notify_evolves _ _ _ _ _ _ _ _ H) as [(L & _ & B) _].
    rewrite (IH _ _ _ _ _ _ _ H Hsp). f_equal.
    apply B in E. by rewrite (drop_S _ _ _ E).
  - simplify_eq. apply lookup_ge_None_1 in E. rewrite drop_ge by done.
    by rewrite app_nil_r.
Qed.

Lemma filter_stable_delete k (l : list nat) :
  ¬ P k → filter P (filter (λ x, x ≠ k) l) = filter P l.
Proof.
  intros Hk. induction l as [|x l IH]; [done|].
  rewrite (filter_cons (λ x, x ≠ k)). destruct (decide (x ≠ k)) as [Hx|Hx].
  - rewrite !filter_cons. by rewrite IH.
  - apply dec_stable in Hx as ->. by rewrite filter_cons_False.
Qed.

Lemma applyOps_stable os : ∀ d,
  (∀ j, P j → Cancel j ∉ os) →
  (∀ j, P j → Some j ∈ d) →
  filter P (values (foldl applyOp d os)) = filter P (values d)
  ∧ (∀ j, P j → Some j ∈ foldl applyOp d os).
Proof.
  induction os as [|o os IH]; intros d Hno Hlive; simpl; [done|].
  assert (filter P (values (applyOp d o)) = filter P (values d)
          ∧ (∀ j, P j → Some j ∈ applyOp d o)) as [E1 L1].
  { destruct o as [k|k]; simpl.
    - unfold add. destruct (has k d) eqn:Hk; [done|]. split.
      + rewrite values_snoc, filter_app, filter_cons_False, filter_nil, app_nil_r; [done|].
        intros HP. apply Hlive, has_spec in HP. congruence.
      + intros j Hj. apply elem_of_app. left. by apply Hlive.
    - assert (¬ P k) as HP by (intros HP; apply (Hno k HP); left).
      split.
      + by rewrite values_delete, filter_stable_delete.
      + intros j Hj. apply list_elem_of_lookup.
        destruct (proj1 (list_elem_of_lookup _ _) (Hlive j Hj)) as [p Hp].
        exists p. apply lookup_delete_Some. split; [done|]. congruence. }
  destruct (IH (applyOp d o)) as [E2 L2]; [|done|].
  - intros j Hj Hin. apply (Hno j Hj). by right.
  - split; [by rewrite E2|done].
Qed.

Lemma notify_stable n : ∀ i d t calls d' t' calls',
  notify subscriber n i d t calls = Some (d', t', calls') →
  spared t t' →
  (∀ j, P j → Some j ∈ d) →
  filter P (values d') = filter P (values d) ∧ (∀ j, P j → Some j ∈ d').
Proof.
  induction n as [|n IH]; intros i d t calls d' t' calls' H Hsp Hlive; simpl in H; [done|].
  destruct (d !! i) as [[k|]|] eqn:E.
  - pose proof (notify_clock _ _ _ _ _ _ _ _ H) as Hclock.
    destruct (applyOps_stable (ops (subscriber k t)) d) as [E1 L1]; [|done|].
    { intros j Hj. apply Hsp; [lia|done]. }
    destruct (IH _ _ _ _ _ _ _ H) as [E2 L2]; [|done|].
    { eapply spared_weaken; [|done]. lia. }
    split; [congruence|done].
  - by eapply IH.
  - by simplify_eq.
Qed.

End Stable.
End Notify.
End NotifyFacts.

(** ** The connection manager *)
Module ConnectionFacts.
Import JsSet JsSetFacts Connection NotifyFacts.

Lemma filter_eq_NoDup (k : nat) (l : list nat) :
  NoDup l → filter (λ x, x = k) l = if decide (k ∈ l) then [k] else [].
Proof.
  induction 1 as [|x l Hx Hl IH]; [done|].
  rewrite filter_cons, IH. destruct (decide (x = k)) as [->|Hne].
  - destruct (decide (k ∈ l)); [done|].
    destruct (decide (k ∈ k :: l)) as [_|Hn]; [done|]. destruct Hn. left.
  - destruct (decide (k ∈ l)) as [Hin|Hin].
    + destruct (decide (k ∈ x :: l)) as [_|Hn]; [done|]. destruct Hn. by right.
    + destruct (decide (k ∈ x :: l)) as [Hn|_]; [|done].
      apply elem_of_cons in Hn as [->|Hn]; done.
Qed.

Lemma wf_applyOps os : ∀ d, wf d → wf (foldl applyOp d os).
Proof.
  induction os as [|[k|k] os IH]; intros d H; simpl; [done|..].
  - by apply IH, wf_add.
  - by apply IH, wf_delete.
Qed.

Lemma notify_wf subscriber n : ∀ i d t calls d' t' calls',
  notify subscriber n i d t calls = Some (d', t', calls') → wf d → wf d'.
Proof.
  induction n as [|n IH]; intros i d t calls d' t' calls' H Hwf; simpl in H; [done|].
  destruct (d !! i) as [[k|]|] eqn:E.
  - eapply IH; [done|]. by apply wf_applyOps.
  - by eapply IH.
  - by simplify_eq.
Qed.


Ltac unfold_program :=
  unfold step, session, createConnection, connectResolved, connectionClosed,
    scheduleReconnect, connectWithRetry, catchArm, afterFailure, loopHead, close,
    finishClose, onReconnect, unsubscribe in *.
Ltac program_cases :=
  unfold_program; repeat first [case_match | progress simplify_eq/=].

Section Subscribers.
Variable options : ResilientConnectionOptions.
Variable subscriber : nat → nat → Behaviour.
Variable fuel : nat.
Context (P : nat → Prop) `{Pdec : !∀ k, Decision (P k)}.
Hypothesis never_cancelled : ∀ k t j, P j → Cancel j ∉ ops (subscriber k t).

Local Abbreviation subs m := (reconnectSubscribers (st m)).

Lemma never_spared t t' : spared subscriber P t t'.
Proof. intros k τ j _. apply never_cancelled. Qed.

Lemma step_stable m ev m1 e1 :
  step options subscriber fuel m ev = Some (m1, e1) →
  (∀ j, P j → ev ≠ Unsubscribe j) →
  (∀ j, P j → Some j ∈ subs m) →
  Forall (λ calls, filter P calls = filter P (values (subs m))) (rounds e1)
  ∧ filter P (values (subs m1)) = filter P (values (subs m))
  ∧ (∀ j, P j → Some j ∈ subs m1).
Proof.
  intros H Hev Hlive. destruct ev.
  - (* ConnectResolved *)
    program_cases; try done.
    all: try (unfold rounds; rewrite ?omap_app; simpl; done).
    all: match goal with
         | H : notify _ _ _ _ _ _ = Some _ |- _ =>
             pose proof (notify_calls _ P _ _ _ _ _ _ _ _ H (never_spared _ _)) as Hc;
             pose proof (notify_stable _ P _ _ _ _ _ _ _ _ H (never_spared _ _) Hlive) as [Hs Hl]
         end.
    all: rewrite drop_0 in Hc; simpl in Hc.
    all: unfold rounds; rewrite ?omap_app; simpl.
    all: split_and!; [|done..].
    all: repeat constructor; congruence.
  - program_cases; done.
  - program_cases; done.
  - program_cases; done.
  - program_cases; done.
  - program_cases; done.
  - program_cases; done.
  - (* OnReconnect *)
    program_cases. 
    destruct (applyOps_stable P [Subscribe k] (subs m)) as [E L]; [|done|done].
    intros j _ Hj. apply list_elem_of_singleton in Hj. done.
  - (* Unsubscribe *)
    program_cases.
    destruct (applyOps_stable P [Cancel k] (subs m)) as [E L]; [|done|done].
    intros j Hj Hin. apply list_elem_of_singleton in Hin. simplify_eq.
    by apply (Hev _ Hj).
Qed.

Lemma run_stable evs : ∀ m m' e,
  run options subscriber fuel m evs = Some (m', e) →
  (∀ j, P j → Unsubscribe j ∉ evs) →
  (∀ j, P j → Some j ∈ subs m) →
  Forall (λ calls, filter P calls = filter P (values (subs m))) (rounds e)
  ∧ filter P (values (subs m')) = filter P (values (subs m))
  ∧ (∀ j, P j → Some j ∈ subs m').
Proof.
  induction evs as [|ev evs IH]; intros m m' e H Hev Hlive; simpl in H.
  - simplify_eq. by split_and!.
  - destruct (step options subscriber fuel m ev) as [[m1 e1]|] eqn:E1; [|done].
    destruct (run options subscriber fuel m1 evs) as [[m2 e2]|] eqn:E2; [|done].
    simplify_eq.
    destruct (step_stable _ _ _ _ E1) as (F1 & S1 & L1); [|done|].
    { intros j Hj ->. apply (Hev j Hj). left. }
    destruct (IH _ _ _ E2) as (F2 & S2 & L2); [|done|].
    { intros j Hj Hin. apply (Hev j Hj). by right. }
    split_and!; [|congruence|done].
    unfold rounds. rewrite omap_app. apply Forall_app. split; [done|].
    eapply Forall_impl; [apply F2|]. simpl. intros calls. congruence.
Qed.

End Subscribers.

Section Round.
Variable options : ResilientConnectionOptions.
Variable subscriber : nat → nat → Behaviour.
Variable fuel : nat.
Local Abbreviation subs m := (reconnectSubscribers (st m)).

(** What a step that runs the subscriber loop is. *)
Lemma step_round m ev m' e calls :
  step options subscriber fuel m ev = Some (m', e) →
  NotifySubscribers calls ∈ e →
  ∃ n, notify subscriber n 0 (subs m) (clock m) [] = Some (subs m', clock m', calls).
Proof.
  intros H Hin. destruct ev; program_cases;
    try (by repeat (apply elem_of_cons in Hin as [Hin|Hin]; [done|]);
            apply elem_of_nil in Hin).
  all: repeat (apply elem_of_cons in Hin as [Hin|Hin]; [simplify_eq|]).
  all: try by apply elem_of_nil in Hin.
  all: by eexists.
Qed.

Lemma step_no_skip m ev m' e calls k :
  step options subscriber fuel m ev = Some (m', e) →
  NotifySubscribers calls ∈ e →
  has k (subs m') = true → k ∈ calls.*1.
Proof.
  intros H Hin Hk. destruct (step_round _ _ _ _ _ H Hin) as [n Hn].
  apply has_spec, list_elem_of_lookup in Hk as [p Hp].
  eapply notify_no_skip; [done| |done]. lia.
Qed.

Lemma step_at_most_once m ev m' e calls k :
  step options subscriber fuel m ev = Some (m', e) →
  NotifySubscribers calls ∈ e →
  wf (subs m) →
  spared subscriber (λ x, x = k) (clock m) (clock m') →
  (length (filter (λ x, x = k) calls.*1) ≤ 1)%nat.
Proof.
  intros H Hin Hwf Hsp. destruct (step_round _ _ _ _ _ H Hin) as [n Hn].
  rewrite (notify_calls _ _ _ _ _ _ _ _ _ _ Hn Hsp), drop_0. simpl.
  rewrite filter_eq_NoDup by (eapply notify_wf; done).
  case_decide; simpl; lia.
Qed.

Lemma step_wf m ev m' e :
  step options subscriber fuel m ev = Some (m', e) → wf (subs m) → wf (subs m').
Proof.
  intros H Hwf. destruct ev; program_cases; try done.
  all: try (eapply notify_wf; done).
  - by apply wf_add.
  - by apply wf_delete.
Qed.

(** With callbacks that register nothing, a step returns when the
    subscriber loop is given more steps than the set has entries. *)
Lemma step_returns m ev :
  (∀ k τ j, Subscribe j ∉ ops (subscriber k τ)) →
  (length (subs m) < fuel)%nat →
  ∃ m' e, step options subscriber fuel m ev = Some (m', e)
          ∧ (length (subs m') ≤ length (subs m) + 1)%nat.
Proof.
  intros Hno Hfuel.
  destruct (notify_returns subscriber fuel 0 (subs m) (clock m) [] Hno)
    as (d' & t' & calls' & Hn & Hl); [lia|].
  destruct ev; unfold_program; simpl; repeat case_match; simplify_eq/=.
  all: try (eexists _, _; split; [done|]; simpl; try lia).
  all: try (unfold add; case_match; rewrite ?length_app; simpl; lia).
  by rewrite length_delete; lia.
Qed.

Lemma run_returns evs : ∀ m,
  (∀ k τ j, Subscribe j ∉ ops (subscriber k τ)) →
  (length (subs m) + length evs < fuel)%nat →
  ∃ m' e, run options subscriber fuel m evs = Some (m', e).
Proof.
  induction evs as [|ev evs IH]; intros m Hno Hfuel; simpl in *; [by eexists _, _|].
  destruct (step_returns m ev Hno) as (m1 & e1 & -> & L1); [lia|].
  destruct (IH m1 Hno) as (m2 & e2 & ->); [lia|]. by eexists _, _.
Qed.

(** Every connection established is followed by one run of the subscriber
    loop, when [options.onConnect] returns. *)
Lemma step_established m ev m' e :
  step options subscriber fuel m ev = Some (m', e) →
  observerReturns options ev →
  connectionsEstablished (metrics m')
  = connectionsEstablished (metrics m) + Z.of_nat (length (rounds e)).
Proof.
  intros H Hobs. destruct ev; program_cases; unfold rounds; rewrite ?omap_app; simpl.
  all: try lia.
  all: try (by destruct Hobs as [E|E]; [congruence|edestruct E]).
Qed.

Lemma run_established evs : ∀ m m' e,
  run options subscriber fuel m evs = Some (m', e) →
  Forall (observerReturns options) evs →
  connectionsEstablished (metrics m')
  = connectionsEstablished (metrics m) + Z.of_nat (length (rounds e)).
Proof.
  induction evs as [|ev evs IH]; intros m m' e H Hobs; simpl in H.
  - simplify_eq. simpl. lia.
  - destruct (step options subscriber fuel m ev) as [[m1 e1]|] eqn:E1; [|done].
    destruct (run options subscriber fuel m1 evs) as [[m2 e2]|] eqn:E2; [|done].
    apply Forall_cons in Hobs as [Hev Hobs]. simplify_eq.
    rewrite (IH _ _ _ E2 Hobs), (step_established _ _ _ _ E1 Hev).
    unfold rounds. rewrite omap_app, length_app. lia.
Qed.

Lemma run_wf evs : ∀ m m' e,
  run options subscriber fuel m evs = Some (m', e) → wf (subs m) → wf (subs m').
Proof.
  induction evs as [|ev evs IH]; intros m m' e H Hwf; simpl in H; [by simplify_eq|].
  destruct (step options subscriber fuel m ev) as [[m1 e1]|] eqn:E1; [|done].
  destruct (run options subscriber fuel m1 evs) as [[m2 e2]|] eqn:E2; [|done].
  simplify_eq. eapply IH; [done|]. by eapply step_wf.
Qed.

End Round.

(** *** The connection handle and the state *)

Lemma armed_filter_length (c : nat) (a : list nat) :
  (length (List.filter (λ x, negb (Nat.eqb x c)) a) ≤ length a)%nat.
Proof. induction a as [|x a IH]; simpl; [done|]. destruct (negb _); simpl; lia. Qed.

Lemma armed_filter_last (c : nat) (a : list nat) :
  (length a ≤ 1)%nat → c ∈ a → List.filter (λ x, negb (Nat.eqb x c)) a = [].
Proof.
  destruct a as [|x [|y a]]; simpl; intros Hlen Hin; [done| |lia].
  apply list_elem_of_singleton in Hin as ->. by rewrite Nat.eqb_refl.
Qed.

Section Lifecycle.
Variable options : ResilientConnectionOptions.
Variable subscriber : nat → nat → Behaviour.
Variable fuel : nat.

Lemma step_settled m ev m' e :
  step options subscriber fuel m ev = Some (m', e) → settled m → settled m'.
Proof.
  intros H (J1 & J2 & J3 & J4). destruct ev; program_cases; unfold settled; simpl.
  all: try (rewrite J3 in * by done); simpl in *.
  all: try (rewrite Nat.eqb_refl in *; simpl in *).
  all: pose proof (armed_filter_length) as FL.
  all: split_and!; intros; simplify_eq/=; try done; try lia; eauto.
  all: try (by eapply J2).
  all: try (by apply armed_filter_last; [|eapply bool_decide_eq_true_1]).
  all: try (etrans; [apply FL|done]).
  all: try (by exfalso; eauto).
  all: try (apply J2 with l; [done|]; intros; congruence).
  all: try (exfalso; match goal with H : _ ≠ None |- _ => apply H end;
            apply J2 with l; [done|]; intros; congruence).
  all: try (by match goal with H : ∀ message, AwaitCleanup ?s ≠ _ |- _ => destruct (H s) end).
Qed.

Lemma step_steady m ev m' e :
  step options subscriber fuel m ev = Some (m', e) →
  observerReturns options ev → settled m → steady m → steady m'.
Proof.
  intros H Hobs (J1 & J2 & J3 & J4) (K1 & K2).
  destruct ev; program_cases; unfold steady; simpl.
  all: split_and!; intros; simplify_eq/=; try done; eauto.
  all: try (by destruct Hobs as [E|E]; [congruence|edestruct E]).
  all: try (by edestruct K2).
  all: try (by exfalso; unshelve (epose proof (J2 _ eq_refl _) as X); [intros; congruence|]).
  all: try (by exfalso; apply K1).
Qed.

Lemma run_settled evs : ∀ m m' e,
  run options subscriber fuel m evs = Some (m', e) → settled m → settled m'.
Proof.
  induction evs as [|ev evs IH]; intros m m' e H Hm; simpl in H; [by simplify_eq|].
  destruct (step options subscriber fuel m ev) as [[m1 e1]|] eqn:E1; [|done].
  destruct (run options subscriber fuel m1 evs) as [[m2 e2]|] eqn:E2; [|done].
  simplify_eq. eapply IH; [done|]. by eapply step_settled.
Qed.

Lemma run_steady evs : ∀ m m' e,
  run options subscriber fuel m evs = Some (m', e) →
  Forall (observerReturns options) evs → settled m → steady m → steady m'.
Proof.
  induction evs as [|ev evs IH]; intros m m' e H Hobs Hm Km; simpl in H; [by simplify_eq|].
  destruct (step options subscriber fuel m ev) as [[m1 e1]|] eqn:E1; [|done].
  destruct (run options subscriber fuel m1 evs) as [[m2 e2]|] eqn:E2; [|done].
  apply Forall_cons in Hobs as [Hev Hobs]. simplify_eq.
  eapply IH; [done..| |].
  - by eapply step_settled.
  - by eapply step_steady.
Qed.

Lemma createConnection_settled :
  settled (createConnection options).1 ∧ steady (createConnection options).1.
Proof.
  unfold settled, steady, createConnection, connectWithRetry, loopHead. simpl.
  repeat case_match; simpl.
  all: split_and!; intros; simplify_eq/=; try done; lia.
Qed.

Lemma session_settled evs m e :
  session options subscriber fuel evs = Some (m, e) → settled m.
Proof.
  unfold session. destruct (createConnection options) as [m0 e0] eqn:E0.
  destruct (run options subscriber fuel m0 evs) as [[m1 e1]|] eqn:E1; [|done].
  intros ?; simplify_eq. eapply run_settled; [done|].
  pose proof createConnection_settled as [H _]. by rewrite E0 in H.
Qed.

Lemma session_steady evs m e :
  session options subscriber fuel evs = Some (m, e) →
  Forall (observerReturns options) evs → steady m.
Proof.
  unfold session. destruct (createConnection options) as [m0 e0] eqn:E0.
  destruct (run options subscriber fuel m0 evs) as [[m1 e1]|] eqn:E1; [|done].
  intros ? Hobs; simplify_eq.
  pose proof createConnection_settled as [H K]. rewrite E0 in H, K.
  by eapply run_steady.
Qed.

(** A channel is handed out only while [isConnected()] holds, whatever
    the observers do. *)
Lemma channel_only_while_connected evs m e broker ch :
  session options subscriber fuel evs = Some (m, e) →
  createChannel m broker = Some ch ∨ createConfirmChannel m broker = Some ch →
  isConnected m = true.
Proof.
  intros H Hch. apply session_settled in H as (J1 & _).
  unfold createChannel, createConfirmChannel in Hch. unfold isConnected.
  destruct (connection (st m)) as [c|] eqn:E; [|by destruct Hch].
  rewrite J1 by done. by rewrite !bool_decide_eq_true_2.
Qed.

(** With an [onConnect] observer that returns: [isConnected()] is the
    state [connected], and a connection is held in that state only. *)
Lemma connected_iff_connection evs m e :
  session options subscriber fuel evs = Some (m, e) →
  Forall (observerReturns options) evs →
  (isConnected m = true ↔ getState m = connected)
  ∧ (getConnection m ≠ None ↔ getState m = connected).
Proof.
  intros H Hobs. pose proof (session_settled _ _ _ H) as (J1 & _).
  pose proof (session_steady _ _ _ H Hobs) as (K1 & _).
  unfold isConnected, getState, getConnection. split; [|by split].
  rewrite andb_true_iff, !bool_decide_eq_true. split; [by intros [? _]|].
  intros Hc. split; [done|by apply K1].
Qed.

End Lifecycle.

(** *** Backoff *)

Lemma backoff_S c n :
  backoff c (S n) = Z.min (backoff c n * multiplier c) (maxDelayMs c).
Proof. done. Qed.

Lemma backoff_bounds c n :
  0 ≤ initialDelayMs c ≤ maxDelayMs c → 1 ≤ multiplier c →
  initialDelayMs c ≤ backoff c n ≤ maxDelayMs c ∧ backoff c n ≤ backoff c (S n).
Proof.
  intros Hd Hm. induction n as [|n [IH1 IH2]].
  - rewrite backoff_S. unfold backoff. simpl. nia.
  - rewrite !backoff_S in *. nia.
Qed.

Lemma sleeps_app e1 e2 : sleeps (e1 ++ e2) = sleeps e1 ++ sleeps e2.
Proof. unfold sleeps. apply omap_app. Qed.

Lemma paced_app c e1 : ∀ n e2,
  paced c n (e1 ++ e2) ↔ paced c n e1 ∧ paced c (foldl position n e1) e2.
Proof.
  induction e1 as [|x e1 IH]; intros n e2; simpl; [tauto|].
  rewrite IH. tauto.
Qed.

(** At the start of an invocation, or with none running, the first delay
    slept next is the first of the schedule. *)
Lemma paced_first c e : ∀ n d,
  n = None ∨ n = Some 0%nat →
  paced c n e → sleeps e !! 0%nat = Some d → d = backoff c 0.
Proof.
  induction e as [|x e IH]; intros n d Hn Hp Hd; [done|].
  destruct Hp as [Hx Hp]. destruct x; simpl in *; try (by eapply IH).
  - destruct Hx as (i & -> & ->). destruct Hn as [?|?]; by simplify_eq.
  - eapply IH; [|done..]. by right.
  - eapply IH; [|done..]. by left.
Qed.

Section Backoff.
Variable options : ResilientConnectionOptions.
Variable subscriber : nat → nat → Behaviour.
Variable fuel : nat.
Local Abbreviation cfg := (reconnect options).

Lemma step_paced m ev m' e n :
  step options subscriber fuel m ev = Some (m', e) →
  pacingAt cfg n m →
  paced cfg n e ∧ pacingAt cfg (foldl position n e) m'.
Proof.
  intros H Hp. unfold pacingAt, pacing in *.
  destruct ev; program_cases; rewrite ?foldl_app; simpl; try done.
  all: repeat case_match; simplify_eq/=; try done.
  all: try (by destruct Hp as (n' & -> & Hd); split; [|rewrite backoff_S, <- Hd]).
  all: try (by split_and!; eauto).
  all: try (split_and!; try done; congruence).
  all: exfalso; congruence.
Qed.

Lemma run_paced evs : ∀ m m' e n,
  run options subscriber fuel m evs = Some (m', e) →
  pacingAt cfg n m →
  paced cfg n e.
Proof.
  induction evs as [|ev evs IH]; intros m m' e n H Hp; simpl in H; [by simplify_eq|].
  destruct (step options subscriber fuel m ev) as [[m1 e1]|] eqn:E1; [|done].
  destruct (run options subscriber fuel m1 evs) as [[m2 e2]|] eqn:E2; [|done].
  simplify_eq. destruct (step_paced _ _ _ _ n E1 Hp) as [S1 P1].
  apply paced_app. split; [done|]. by eapply IH.
Qed.

Lemma connectWithRetry_paced m initial :
  paced cfg (Some 0%nat) (connectWithRetry options m initial).2
  ∧ pacingAt cfg (foldl position (Some 0%nat) (connectWithRetry options m initial).2)
      (connectWithRetry options m initial).1.
Proof.
  unfold pacingAt, pacing, connectWithRetry, loopHead.
  destruct (isShuttingDown (st m)); simpl; [done|].
  destruct (if onReconnecting options then _ else _); [|destruct initial]; simpl;
    by destruct (onReconnecting options).
Qed.

End Backoff.


(** *** The retry cap *)

Lemma attempts_app e1 e2 : attempts (e1 ++ e2) = attempts e1 ++ attempts e2.
Proof. unfold attempts. apply omap_app. Qed.

Lemma unreachable_cons message messages :
  unreachable (message :: messages)
  = ConnectRejected message :: SleepElapsed :: unreachable messages.
Proof. done. Qed.

Section Retries.
Variable options : ResilientConnectionOptions.
Variable subscriber : nat → nat → Behaviour.
Variable fuel : nat.
Local Abbreviation cap := (maxRetries (reconnect options)).

Lemma run_app evs1 : ∀ evs2 m m1 e1,
  run options subscriber fuel m evs1 = Some (m1, e1) →
  run options subscriber fuel m (evs1 ++ evs2)
  = match run options subscriber fuel m1 evs2 with
    | Some (m2, e2) => Some (m2, e1 ++ e2)
    | None => None
    end.
Proof.
  induction evs1 as [|ev evs1 IH]; intros evs2 m m1 e1 H; simpl in *.
  - simplify_eq. by destruct (run _ _ _ _ _) as [[??]|].
  - destruct (step options subscriber fuel m ev) as [[m' e']|]; [|done].
    destruct (run options subscriber fuel m' evs1) as [[m'' e'']|] eqn:E; [|done].
    simplify_eq. rewrite (IH _ _ _ _ E).
    destruct (run _ _ _ m1 evs2) as [[??]|]; [|done]. by rewrite app_assoc.
Qed.

(** Once [connectWithRetry] has ended, rejections and timers find nothing
    waiting for them. *)
Lemma run_cons m ev evs :
  run options subscriber fuel m (ev :: evs)
  = match step options subscriber fuel m ev with
    | None => None
    | Some (m1, e1) =>
        match run options subscriber fuel m1 evs with
        | None => None
        | Some (m2, e2) => Some (m2, e1 ++ e2)
        end
    end.
Proof. done. Qed.

Lemma observer_returns n :
  onReconnecting options = false ∨ (∀ n, onReconnectingEnds options 0 n = Returned ()) →
  (if onReconnecting options then onReconnectingEnds options 0 n else Returned ())
  = Returned ().
Proof. intros [->|H]; [done|]. rewrite H. by destruct (onReconnecting options). Qed.

Lemma run_unreachable_idle messages m :
  pending m = None →
  run options subscriber fuel m (unreachable messages) = Some (m, []).
Proof.
  intros Hm. induction messages as [|message messages IH]; [done|].
  rewrite unreachable_cons, run_cons. cbn [step]. rewrite Hm. cbv beta iota.
  rewrite run_cons. cbn [step]. rewrite Hm. cbv beta iota. by rewrite IH.
Qed.

Lemma run_unreachable k : ∀ messages m l,
  cap ≠ -1 →
  onReconnecting options = false ∨ (∀ n, onReconnectingEnds options 0 n = Returned ()) →
  connectionsLost (metrics m) = 0 →
  pending m = Some l → pc l = AwaitConnect → initial l = true →
  isShuttingDown (st m) = false → connection (st m) = None →
  1 ≤ attempt l ≤ Z.max cap 1 →
  k = Z.to_nat (Z.max cap 1 - attempt l) →
  (k < length messages)%nat →
  ∃ m' e message,
    run options subscriber fuel m (unreachable messages) = Some (m', e)
    ∧ messages !! k = Some message
    ∧ failure m'
      = Some ("Failed to connect after " +:+ showZ (Z.max cap 1)
              +:+ " attempts: " +:+ message)%string
    ∧ attempts e = seqZ (attempt l + 1) (Z.max cap 1 - attempt l).
Proof.
  induction k as [|k IH];
    intros messages m l Hcap Hobs Hlost Hl Hpc Hini Hsd Hconn Ha Hk Hlen.
  - destruct messages as [|message messages]; [simpl in Hlen; lia|].
    assert (attempt l = Z.max cap 1) as Ea by lia.
    rewrite unreachable_cons, run_cons. cbn [step].
    rewrite Hl, Hpc. unfold catchArm. rewrite Hconn.
    unfold afterFailure. rewrite Hini.
    rewrite (bool_decide_eq_true_2 (cap ≠ -1)) by done.
    rewrite (bool_decide_eq_true_2 (cap ≤ attempt l)) by lia. cbn [andb].
    rewrite run_cons. cbn [step pending withFailure withPending].
    rewrite (run_unreachable_idle messages) by done.
    eexists _, _, message. split_and!; [done|done|by rewrite Ea|].
    rewrite Ea, Z.sub_diag. done.
  - destruct messages as [|message messages]; [simpl in Hlen; lia|].
    assert (attempt l < Z.max cap 1) as Ea by lia.
    rewrite unreachable_cons, run_cons. cbn [step].
    rewrite Hl, Hpc. unfold catchArm. rewrite Hconn.
    unfold afterFailure.
    rewrite (bool_decide_eq_false_2 (cap ≤ attempt l)) by lia.
    rewrite andb_false_r.
    rewrite run_cons. cbn [step pending withPending withPc pc].
    unfold loopHead. cbn [st metrics withPending]. rewrite Hsd, Hlost.
    rewrite (observer_returns _ Hobs). cbv beta iota.
    match goal with
    | |- context [run _ _ _ ?m2 (unreachable messages)] =>
        destruct (IH messages m2 (withPc AwaitConnect
           {| delay := Z.min (delay l * multiplier (reconnect options))
                         (maxDelayMs (reconnect options));
              attempt := attempt l + 1; pc := AwaitSleep; initial := initial l |}))
          as (m' & e & message' & Hrun & Hmsg & Hfail & Hatt);
        [done|done|done|done|done|done|done|done| | | |rewrite Hrun]
    end.
    { simpl. lia. }
    { simpl. lia. }
    { simpl in Hlen. lia. }
    eexists _, _, message'. split_and!; [done|done|done|].
    simpl in Hatt. cbn [delay attempt initial withPc] in *.
    rewrite !attempts_app. destruct (onReconnecting options); simpl; rewrite Hatt.
    all: rewrite (seqZ_cons (attempt l + 1)) by lia; f_equal; f_equal; lia.
Qed.

Lemma step_never_connected m ev m' e :
  step options subscriber fuel m ev = Some (m', e) →
  (∀ c observer, ev ≠ ConnectResolved c observer) →
  state (st m) ≠ connected → state (st m') ≠ connected.
Proof.
  intros H Hev Hm. destruct ev; program_cases; try done.
  all: by edestruct Hev.
Qed.

Lemma run_never_connected evs : ∀ m m' e,
  run options subscriber fuel m evs = Some (m', e) →
  (∀ c observer, ConnectResolved c observer ∉ evs) →
  state (st m) ≠ connected → state (st m') ≠ connected.
Proof.
  induction evs as [|ev evs IH]; intros m m' e H Hev Hm; simpl in H; [by simplify_eq|].
  destruct (step options subscriber fuel m ev) as [[m1 e1]|] eqn:E1; [|done].
  destruct (run options subscriber fuel m1 evs) as [[m2 e2]|] eqn:E2; [|done].
  simplify_eq. eapply IH; [done| |].
  - intros c o Hin. apply (Hev c o). by right.
  - eapply step_never_connected; [done| |done].
    intros c o ->. apply (Hev c o). left.
Qed.

Lemma unreachable_no_resolve messages c observer :
  ConnectResolved c observer ∉ unreachable messages.
Proof.
  induction messages as [|message messages IH]; [apply not_elem_of_nil|].
  rewrite unreachable_cons, !not_elem_of_cons. by split_and!.
Qed.

End Retries.

(** C5 (amended).  With a retry cap configured (an integer [maxRetries]
    other than -1), a broker that rejects every attempt and an
    [onReconnecting] observer that, if configured, returns,
    [createConnection] is rejected after exactly [max(maxRetries, 1)]
    attempts, that is after exactly [maxRetries] attempts whenever
    [maxRetries >= 1]; the error cites that number and the message of the
    last rejection, and the state is never [connected] on the way. *)
Theorem initial_connect_exhausts_retries
  (options : ResilientConnectionOptions) (subscriber : nat → nat → Behaviour)
  (fuel : nat) (messages : list string) :
  let cap := maxRetries (reconnect options) in
  let n := Z.max cap 1 in
  cap ≠ -1 →
  onReconnecting options = false ∨ (∀ n, onReconnectingEnds options 0 n = Returned ()) →
  (Z.to_nat n ≤ length messages)%nat →
  ∃ m e message,
    session options subscriber fuel (unreachable messages) = Some (m, e)
    ∧ messages !! (Z.to_nat n - 1)%nat = Some message
    ∧ failure m
      = Some ("Failed to connect after " +:+ showZ n +:+ " attempts: " +:+ message)%string
    ∧ attempts e = seqZ 1 n
    ∧ ∀ evs m' e',
        evs `prefix_of` unreachable messages →
        session options subscriber fuel evs = Some (m', e') →
        getState m' ≠ connected.
Proof.
  intros cap n Hcap Hobs Hlen. unfold session.
  destruct (createConnection options) as [m0 e0] eqn:E0.
  unfold createConnection, connectWithRetry, loopHead in E0. simpl in E0.
  rewrite (observer_returns _ _ Hobs) in E0.
  edestruct (run_unreachable options subscriber fuel (Z.to_nat (n - 1)) messages m0)
    as (m & e & message & Hrun & Hmsg & Hfail & Hatt); [done|done|by simplify_eq..| | | |].
  { simplify_eq/=. lia. }
  { simplify_eq/=. done. }
  { lia. }
  rewrite Hrun. exists m, (e0 ++ e), message. split_and!; [done| |done| |].
  - by replace (Z.to_nat n - 1)%nat with (Z.to_nat (n - 1)) by lia.
  - rewrite attempts_app, Hatt. simplify_eq/=.
    rewrite (seqZ_cons 1 n) by lia. rewrite attempts_app.
    destruct (onReconnecting options); simpl; f_equal; f_equal; lia.
  - intros evs m' e' Hpre Hs.
    destruct (run options subscriber fuel m0 evs) as [[m1 e1]|] eqn:E1; [|done].
    simplify_eq. unfold getState.
    eapply run_never_connected; [done| |done].
    intros c o Hin. apply (unreachable_no_resolve messages c o).
    destruct Hpre as [rest ->]. apply elem_of_app. by left.
Qed.

(** *** Reconnect subscribers *)

Lemma invocations_rounds (k : nat) (e : list Effect) :
  Forall (λ calls, filter (λ x, x = k) calls = [k]) (rounds e) →
  invocations k e = length (rounds e).
Proof.
  unfold invocations. induction 1 as [|calls rs Hc Hrs IH]; [done|].
  simpl. rewrite filter_app, length_app, Hc, IH. done.
Qed.


(** *** Examples *)

(** C3.  [options.onConnect] throws after the first connection was
    opened: the [catch] arm closes the connection and forgets it, and
    leaves the state [connected].  The manager is then in state
    [connected] without a connection, [isConnected()] is false, and it
    stays so while it sleeps before the next attempt. *)
Theorem connected_without_connection :
  ∃ m e,
    session observed quiet 0 [ConnectResolved 1 (Thrown "boom"); CleanupSettled]
    = Some (m, e)
    ∧ getState m = connected
    ∧ getConnection m = None
    ∧ isConnected m = false
    ∧ pending m = Some {| delay := 1000; attempt := 1; pc := AwaitSleep; initial := true |}.
Proof. eexists _, _. split; [vm_compute; reflexivity|]. by split_and!. Qed.



(** C5, as stated, fails for the cap 0: one attempt is made, not none,
    and the error cites one attempt. *)
Lemma retry_cap_zero_makes_one_attempt :
  let options :=
    withReconnect {| initialDelayMs := 1000; maxDelayMs := 30000;
                     multiplier := 2; maxRetries := 0 |} in
  ∃ m e,
    session options quiet 0 (unreachable ["ECONNREFUSED"]%string) = Some (m, e)
    ∧ attempts e = [1]
    ∧ failure m = Some "Failed to connect after 1 attempts: ECONNREFUSED"%string
    ∧ Z.of_nat (length (attempts e)) ≠ maxRetries (reconnect options).
Proof. intros options. eexists _, _. split; [vm_compute; reflexivity|]. by split_and!. Qed.

(** Nor does [createConnection] fail after [maxRetries] attempts when
    [options.onReconnecting] throws: it is called before the [try], so
    [createConnection] is rejected with its error before the first
    attempt is made. *)
Lemma throwing_observer_rejects_before_first_attempt :
  let options :=
    {| reconnect := {| initialDelayMs := 1000; maxDelayMs := 30000;
                       multiplier := 2; maxRetries := 3 |};
       onConnect := false; onDisconnect := false; onReconnecting := true;
       onDisconnectEnds := λ _, Returned ();
       onReconnectingEnds := λ _ _, Thrown "observer" |} in
  ∃ m e,
    session options quiet 0 (unreachable ["ECONNREFUSED"; "ECONNREFUSED"; "ECONNREFUSED"]%string)
    = Some (m, e)
    ∧ e = [NotifyReconnecting 1]
    ∧ attempts e = []
    ∧ failure m = Some "observer"%string.
Proof. intros options. eexists _, _. split; [vm_compute; reflexivity|]. by split_and!. Qed.

Lemma initial_connect_exhausts_retries_witness :
  let options :=
    withReconnect {| initialDelayMs := 1000; maxDelayMs := 30000;
                     multiplier := 2; maxRetries := 3 |} in
  let messages := ["ENOTFOUND"; "ETIMEDOUT"; "ECONNREFUSED"; "unused"]%string in
  maxRetries (reconnect options) ≠ -1
  ∧ (onReconnecting options = false
     ∨ (∀ n, onReconnectingEnds options 0 n = Returned ()))
  ∧ (Z.to_nat (Z.max (maxRetries (reconnect options)) 1) ≤ length messages)%nat
  ∧ ∃ m e message,
      session options quiet 0 (unreachable messages) = Some (m, e)
      ∧ messages !! 2%nat = Some message
      ∧ failure m
        = Some ("Failed to connect after " +:+ "3" +:+ " attempts: " +:+ message)%string
      ∧ attempts e = [1; 2; 3].
Proof.
  intros options messages.
  assert (maxRetries (reconnect options) ≠ -1) as H1 by done.
  assert (onReconnecting options = false
          ∨ (∀ n, onReconnectingEnds options 0 n = Returned ())) as Hobs by (by left).
  assert (Z.to_nat (Z.max (maxRetries (reconnect options)) 1) ≤ length messages)%nat as H2
    by (simpl; lia).
  split_and!; [done..|].
  destruct (initial_connect_exhausts_retries options quiet 0%nat messages H1 Hobs H2)
    as (m & e & message & Hs & Hm & Hf & Ha & _).
  by exists m, e, message.
Defined.



End ConnectionFacts.

(** ** Code that makes calls *)
Module JsFacts.

Ltac js_unfold :=
  unfold mbind, mret, M_bind, M_ret, Js.bind, Js.tryCatch, Js.get, Js.modify, Js.when,
    Js.ret, Js.call, Js.throw, Js.settle, Js.eval in *.

End JsFacts.

(** ** The bridge *)
Module BridgeFacts.
Import JsFacts.
Import Js Bridge.

(** *** The error-log limiter *)

Lemma shouldLogError_within now s :
  now - lastErrorLogReset s ≤ ERROR_LOG_WINDOW_MS →
  shouldLogError now s
  = (Returned (bool_decide (errorLogCount s + 1 ≤ ERROR_LOG_LIMIT)),
     setErrorLog (errorLogCount s + 1) (lastErrorLogReset s) s, []).
Proof.
  intros H. unfold ERROR_LOG_WINDOW_MS in *. unfold shouldLogError. js_unfold.
  rewrite bool_decide_eq_false_2 by (unfold ERROR_LOG_WINDOW_MS; lia). done.
Qed.

Lemma shouldLogError_rollover now s :
  now - lastErrorLogReset s > ERROR_LOG_WINDOW_MS →
  shouldLogError now s
  = (Returned true, setErrorLog 1 now s,
     if bool_decide (errorLogCount s > ERROR_LOG_LIMIT)
     then [suppressed (errorLogCount s - ERROR_LOG_LIMIT)] else []).
Proof.
  intros H. unfold ERROR_LOG_WINDOW_MS in *. unfold shouldLogError. js_unfold.
  rewrite bool_decide_eq_true_2 by (unfold ERROR_LOG_WINDOW_MS; lia).
  by destruct (bool_decide (errorLogCount s > ERROR_LOG_LIMIT)).
Qed.

(** Calls within the window, from [c] errors counted: the first
    [limit - c] are logged. *)
Lemma shouldLogErrors_within times : ∀ s,
  Forall (λ now, now - lastErrorLogReset s ≤ ERROR_LOG_WINDOW_MS) times →
  shouldLogErrors times s
  = ((λ i, bool_decide (errorLogCount s + i + 1 ≤ ERROR_LOG_LIMIT))
       <$> seqZ 0 (Z.of_nat (length times)),
     [],
     setErrorLog (errorLogCount s + Z.of_nat (length times)) (lastErrorLogReset s) s).
Proof.
  induction times as [|now times IH]; intros s H.
  - simpl. rewrite Z.add_0_r. by destruct s.
  - apply Forall_cons in H as [H1 H2]. cbn [shouldLogErrors].
    rewrite shouldLogError_within by done. rewrite IH by done. simpl length.
    rewrite Nat2Z.inj_succ, (seqZ_cons 0 (Z.succ _)) by lia.
    cbn [fmap list_fmap]. f_equal; [f_equal|].
    + f_equal; [by rewrite Z.add_0_r|].
      replace (Z.pred (Z.succ (Z.of_nat (length times)))) with (Z.of_nat (length times)) by lia.
      change (Z.succ 0) with (1 + 0). rewrite <- (fmap_add_seqZ 1 0), <- list_fmap_compose.
      apply list_fmap_ext. intros _ i _. simpl. apply bool_decide_ext. lia.
    + destruct s; unfold setErrorLog; simpl. f_equal. lia.
Qed.

Lemma shouldLogErrors_app times1 : ∀ times2 s,
  shouldLogErrors (times1 ++ times2) s
  = let '(bs1, t1, s1) := shouldLogErrors times1 s in
    let '(bs2, t2, s2) := shouldLogErrors times2 s1 in
    (bs1 ++ bs2, t1 ++ t2, s2).
Proof.
  induction times1 as [|now times1 IH]; intros times2 s.
  - simpl. by destruct (shouldLogErrors times2 s) as [[??]?].
  - cbn [app shouldLogErrors].
    assert (∃ b s1 t1, shouldLogError now s = (Returned b, s1, t1)) as (b & s1 & t1 & ->).
    { unfold shouldLogError. js_unfold. repeat case_match; simplify_eq; eauto. }
    rewrite IH. destruct (shouldLogErrors times1 s1) as [[bs1 t1'] s1'].
    destruct (shouldLogErrors times2 s1') as [[bs2 t2] s2].
    by rewrite app_assoc.
Qed.

Lemma fmap_seqZ_const (f : Z → bool) (b : bool) (n : nat) :
  (∀ i, 0 ≤ i < Z.of_nat n → f i = b) → f <$> seqZ 0 (Z.of_nat n) = replicate n b.
Proof.
  intros H. apply list_eq. intros i. rewrite list_lookup_fmap.
  destruct (seqZ 0 (Z.of_nat n) !! i) as [x|] eqn:E; simpl.
  - apply lookup_seqZ in E as [-> Hi].
    rewrite lookup_replicate_2 by lia. f_equal. apply H. lia.
  - symmetry. apply lookup_replicate_None.
    apply lookup_ge_None_1 in E. rewrite length_seqZ in E. lia.
Qed.

Lemma shouldLogErrors_logged times s :
  Forall (λ now, now - lastErrorLogReset s ≤ ERROR_LOG_WINDOW_MS) times →
  errorLogCount s + Z.of_nat (length times) ≤ ERROR_LOG_LIMIT →
  shouldLogErrors times s
  = (replicate (length times) true, [],
     setErrorLog (errorLogCount s + Z.of_nat (length times)) (lastErrorLogReset s) s).
Proof.
  intros H Hc. rewrite shouldLogErrors_within by done. f_equal. f_equal.
  apply fmap_seqZ_const. intros i Hi. apply bool_decide_eq_true_2. lia.
Qed.

Lemma shouldLogErrors_suppressed times s :
  Forall (λ now, now - lastErrorLogReset s ≤ ERROR_LOG_WINDOW_MS) times →
  ERROR_LOG_LIMIT ≤ errorLogCount s →
  shouldLogErrors times s
  = (replicate (length times) false, [],
     setErrorLog (errorLogCount s + Z.of_nat (length times)) (lastErrorLogReset s) s).
Proof.
  intros H Hc. rewrite shouldLogErrors_within by done. f_equal. f_equal.
  apply fmap_seqZ_const. intros i Hi. apply bool_decide_eq_false_2. lia.
Qed.

(** A window that holds [c] errors so far, [c] within the limit, and a
    burst that brings it to [limit + k]: the first [limit - c] are logged
    and the other [k] suppressed. *)
Lemma shouldLogErrors_burst times s (k : nat) :
  Forall (λ now, now - lastErrorLogReset s ≤ ERROR_LOG_WINDOW_MS) times →
  0 ≤ errorLogCount s ≤ ERROR_LOG_LIMIT →
  errorLogCount s + Z.of_nat (length times) = ERROR_LOG_LIMIT + Z.of_nat k →
  shouldLogErrors times s
  = (replicate (Z.to_nat (ERROR_LOG_LIMIT - errorLogCount s)) true ++ replicate k false, [],
     setErrorLog (ERROR_LOG_LIMIT + Z.of_nat k) (lastErrorLogReset s) s).
Proof.
  intros H Hc Hlen.
  remember (Z.to_nat (ERROR_LOG_LIMIT - errorLogCount s)) as a eqn:Ea.
  assert (length times = (a + k)%nat) as Hl by lia.
  rewrite <- (take_drop a times), shouldLogErrors_app.
  rewrite <- (take_drop a times) in H. apply Forall_app in H as [H1 H2].
  rewrite shouldLogErrors_logged; [|done|rewrite length_take; lia].
  rewrite shouldLogErrors_suppressed;
    [|done|cbn [errorLogCount setErrorLog]; rewrite length_take; lia].
  rewrite length_take, length_drop.
  replace (a `min` length times)%nat with a by lia.
  replace (length times - a)%nat with k by lia.
  unfold ERROR_LOG_LIMIT in *.
  f_equal. destruct s; unfold setErrorLog; simpl in *. f_equal. lia.
Qed.

(** C8.  A burst of [limit + k] error logs in one window (10 and 5000
    ms), the first of which opens the window: it comes to a limiter that
    has counted nothing yet, or after the previous window has run out.
    Exactly the first [limit] are logged and the other [k] are not; the
    burst itself logs no summary but the one its first call may log for
    the window before.  The next call after the window has run out logs
    one summary line, "Suppressed k ...", when [k > 0] (none when nothing
    was suppressed), sets the counter back, and counts itself as the
    first error of the new window. *)
Theorem error_log_burst (s : BridgeInternalState) (first : Z) (rest : list Z)
  (k : nat) (next : Z) :
  let rolls := bool_decide (first - lastErrorLogReset s > ERROR_LOG_WINDOW_MS) in
  let opened := if rolls then first else lastErrorLogReset s in
  (rolls = true ∨ errorLogCount s = 0) →
  length (first :: rest) = (Z.to_nat ERROR_LOG_LIMIT + k)%nat →
  Forall (λ now, now - opened ≤ ERROR_LOG_WINDOW_MS) rest →
  next - opened > ERROR_LOG_WINDOW_MS →
  ∃ s1 s2,
    shouldLogErrors (first :: rest) s
    = (replicate (Z.to_nat ERROR_LOG_LIMIT) true ++ replicate k false,
       (shouldLogError first s).2, s1)
    ∧ ((shouldLogError first s).2 = []
       ∨ ∃ n, (shouldLogError first s).2 = [suppressed n])
    ∧ shouldLogError next s1
      = (Returned true, s2, if bool_decide (k = 0%nat) then [] else [suppressed (Z.of_nat k)])
    ∧ errorLogCount s2 = 1
    ∧ lastErrorLogReset s2 = next.
Proof.
  intros rolls opened Hopen Hlen Hrest Hnext.
  cbn [shouldLogErrors].
  destruct (shouldLogError first s) as [[r s0] t0] eqn:E. cbn [snd].
  assert (r = Returned true ∧ s0 = setErrorLog 1 opened s
          ∧ (t0 = [] ∨ ∃ n, t0 = [suppressed n])) as (-> & -> & Ht).
  { unfold opened, rolls in *. case_bool_decide as Hr.
    - rewrite shouldLogError_rollover in E by done. simplify_eq.
      split_and!; [done|done|]. case_bool_decide; eauto.
    - destruct Hopen as [?|Hc]; [done|].
      rewrite shouldLogError_within in E by lia. rewrite Hc in E. simpl in E.
      simplify_eq. split_and!; [done|done|by left]. }
  rewrite (shouldLogErrors_burst rest (setErrorLog 1 opened s) k).
  - cbn [errorLogCount setErrorLog]. rewrite app_nil_r.
    eexists _, _. split; [by unfold ERROR_LOG_LIMIT|]. split; [exact Ht|].
    rewrite shouldLogError_rollover by (simpl; lia). cbn [errorLogCount setErrorLog].
    split.
    + f_equal. unfold ERROR_LOG_LIMIT. destruct k as [|k].
      * rewrite bool_decide_eq_false_2 by lia. done.
      * rewrite bool_decide_eq_true_2 by lia.
        rewrite (bool_decide_eq_false_2 (S k = 0%nat)) by done.
        do 2 f_equal. lia.
    + by split.
  - done.
  - simpl. unfold ERROR_LOG_LIMIT. lia.
  - simpl in *. unfold ERROR_LOG_LIMIT in *. lia.
Qed.

(** *** Forwarding failures *)

Lemma shouldLogError_returns now s :
  ∃ b s1 t1, shouldLogError now s = (Returned b, s1, t1) ∧ acknowledgements t1 = [].
Proof.
  unfold shouldLogError. js_unfold. repeat case_match; simplify_eq; eauto 10.
Qed.

(** A forward that fails for another reason than a closed channel: the
    source message is nacked once, on the consumer channel the handler
    started with, with requeue unless it was redelivered; nothing is
    acked, and no exception leaves [handleMessage], whatever [nack]
    does. *)
Lemma handleMessage_forward_failed options msg exchange env meanwhile s cc pc message :
  consumerChannel s = Some cc →
  producerChannel s = Some pc →
  forwarded env = Thrown message →
  includes "Channel closed" message || includes "channel closed" message = false →
  ∃ s1 t1,
    handleMessage options (Some msg) exchange env meanwhile s = (Returned (), s1, t1)
    ∧ acknowledgements t1 = [Nack cc msg false (negb (redelivered msg))].
Proof.
  intros Hc Hp Hf Hi.
  unfold handleMessage, forwardMessage, logForwarded, shouldLogError. js_unfold.
  rewrite Hc, Hp, Hf, Hi. cbn -[String.append showZ].
  repeat case_match; simplify_eq; eexists _, _; (split; [reflexivity|]); done.
Qed.

(** A forward that fails because the channel is closed: the source
    message is neither acked nor nacked. *)
Lemma handleMessage_channel_closed options msg exchange env meanwhile s cc pc message :
  consumerChannel s = Some cc →
  producerChannel s = Some pc →
  forwarded env = Thrown message →
  includes "Channel closed" message || includes "channel closed" message = true →
  ∃ s1 t1,
    handleMessage options (Some msg) exchange env meanwhile s = (Returned (), s1, t1)
    ∧ acknowledgements t1 = [].
Proof.
  intros Hc Hp Hf Hi.
  unfold handleMessage, forwardMessage, logForwarded, shouldLogError. js_unfold.
  rewrite Hc, Hp, Hf, Hi. cbn -[String.append showZ].
  repeat case_match; simplify_eq; eexists _, _; (split; [reflexivity|]); done.
Qed.

(** One failed forward of a redelivered message takes two places in the
    limiter's window: one for the error, one for the permanent failure. *)
Lemma handleMessage_counts_twice options msg exchange env s cc pc message :
  consumerChannel s = Some cc →
  producerChannel s = Some pc →
  forwarded env = Thrown message →
  includes "Channel closed" message || includes "channel closed" message = false →
  redelivered msg = true →
  nacked env = Returned () →
  now1 env - lastErrorLogReset s ≤ ERROR_LOG_WINDOW_MS →
  now2 env - lastErrorLogReset s ≤ ERROR_LOG_WINDOW_MS →
  errorLogCount (handleMessage options (Some msg) exchange env id s).1.2
  = errorLogCount s + 2.
Proof.
  intros Hc Hp Hf Hi Hr Hn H1 H2. unfold ERROR_LOG_WINDOW_MS in *.
  unfold handleMessage, forwardMessage, logForwarded, shouldLogError. js_unfold.
  rewrite Hc, Hp, Hf, Hi, Hr, Hn. cbn -[String.append showZ].
  rewrite (bool_decide_eq_false_2 (now1 env - _ > _)) by (unfold ERROR_LOG_WINDOW_MS; lia).
  cbn -[String.append showZ].
  repeat case_match; simplify_eq/=; try lia.
  all: rewrite (bool_decide_eq_false_2 (now2 env - _ > _)) in *
         by (unfold ERROR_LOG_WINDOW_MS; lia).
  all: simplify_eq/=; lia.
Qed.

(** Twelve errors in the window opened at time 0: ten are logged, two
    are not, and the first error after the window reports the two. *)
Lemma error_log_burst_witness :
  let s := {| consumerChannel := None; producerChannel := None; isRunning := false;
              consumerTags := []; metrics := {| messagesForwarded := 0; messagesFailed := 0;
                                                lastMessageAt := None |};
              errorLogCount := 0; lastErrorLogReset := 0 |} in
  let burst := [100; 200; 300; 400; 500; 600; 700; 800; 900; 1000; 1100; 5000] in
  ∃ s1 s2,
    shouldLogErrors burst s = (replicate 10 true ++ replicate 2 false, [], s1)
    ∧ shouldLogError 5001 s1 = (Returned true, s2, [suppressed 2])
    ∧ errorLogCount s2 = 1 ∧ lastErrorLogReset s2 = 5001.
Proof.
  intros s burst.
  destruct (error_log_burst s 100 (tail burst) 2 5001) as (s1 & s2 & H1 & _ & H2 & H3 & H4).
  - right. reflexivity.
  - reflexivity.
  - vm_compute. repeat constructor; discriminate.
  - vm_compute. reflexivity.
  - exists s1, s2. split_and!; [exact H1 | exact H2 | exact H3 | exact H4].
Defined.

(** A forward fails with "Channel closed": nothing is acked or nacked. *)
Lemma handleMessage_channel_closed_witness :
  let bopts := {| exchanges := ["events"%string]; prefetch := None; queuePrefix := None;
                  deliveryMode := None; logEveryNMessages := None; onStart := false;
                  onStop := false |} in
  let s := {| consumerChannel := Some 1%nat; producerChannel := Some 2%nat; isRunning := true;
              consumerTags := ["t"%string];
              metrics := {| messagesForwarded := 0; messagesFailed := 0;
                            lastMessageAt := None |};
              errorLogCount := 0; lastErrorLogReset := 0 |} in
  let msg := {| content := "{}"; routingKey := "user.created"; redelivered := false |} in
  let env := {| forwarded := Thrown "Channel closed"; acked := Returned ();
                nacked := Returned (); date := 100; now1 := 100; now2 := 100 |} in
  ∃ s1 t1,
    handleMessage bopts (Some msg) "events" env id s = (Returned (), s1, t1)
    ∧ acknowledgements t1 = [].
Proof.
  intros bopts s msg env.
  exact (handleMessage_channel_closed bopts msg "events" env id s 1%nat 2%nat
           "Channel closed" eq_refl eq_refl eq_refl eq_refl).
Defined.

(** A redelivered message fails again, inside the window: the limiter's
    count goes from 3 to 5. *)
Lemma handleMessage_counts_twice_witness :
  let bopts := {| exchanges := ["events"%string]; prefetch := None; queuePrefix := None;
                  deliveryMode := None; logEveryNMessages := None; onStart := false;
                  onStop := false |} in
  let s := {| consumerChannel := Some 1%nat; producerChannel := Some 2%nat; isRunning := true;
              consumerTags := ["t"%string];
              metrics := {| messagesForwarded := 0; messagesFailed := 0;
                            lastMessageAt := None |};
              errorLogCount := 3; lastErrorLogReset := 0 |} in
  let msg := {| content := "{}"; routingKey := "user.created"; redelivered := true |} in
  let env := {| forwarded := Thrown "boom"; acked := Returned ();
                nacked := Returned (); date := 100; now1 := 100; now2 := 101 |} in
  errorLogCount (handleMessage bopts (Some msg) "events" env id s).1.2 = 5.
Proof.
  intros bopts s msg env.
  apply (handleMessage_counts_twice bopts msg "events" env s 1%nat 2%nat "boom");
    try reflexivity; by vm_compute.
Defined.

(** Exactly ten errors in the window opened at time 0: all ten are
    logged, and the first error after the window logs no summary line at
    all, rather than one that reports 0 suppressed. *)
Lemma error_log_burst_of_limit_has_no_summary :
  let s := {| consumerChannel := None; producerChannel := None; isRunning := false;
              consumerTags := []; metrics := {| messagesForwarded := 0; messagesFailed := 0;
                                                lastMessageAt := None |};
              errorLogCount := 0; lastErrorLogReset := 0 |} in
  let burst := [100; 200; 300; 400; 500; 600; 700; 800; 900; 5000] in
  ∃ s1 s2,
    shouldLogErrors burst s = (replicate 10 true ++ replicate 0 false, [], s1)
    ∧ shouldLogError 5001 s1 = (Returned true, s2, [])
    ∧ (shouldLogError 5001 s1).2 ≠ [suppressed 0]
    ∧ errorLogCount s2 = 1.
Proof.
  intros s burst. eexists _, _. split.
  - vm_compute. reflexivity.
  - split; [vm_compute; reflexivity|]. split; [|reflexivity].
    vm_compute. discriminate.
Qed.

End BridgeFacts.

(** ** The consumer *)
Module ConsumerFacts.
Import Js JsFacts Consumer.

(** A handler that fails, with an [onError] callback that returns, if
    one is given: the message is nacked once, on the channel the consumer
    holds when the handler settles, with requeue unless it was
    redelivered; with no channel left there is nothing to nack on and the
    [TypeError] is swallowed.  Nothing is acked, and no exception leaves
    [handleMessage], whatever [nack] does. *)
Lemma handleMessage_handler_failed options msg env meanwhile now s message :
  is_Some (channel s) →
  onMessage env = Thrown message →
  onError options = false ∨ onErrored env = Returned () →
  ∃ s1 t1,
    handleMessage options (Some msg) env meanwhile now s = (Returned (), s1, t1)
    ∧ acknowledgements t1
      = match channel (meanwhile s) with
        | Some ch => [Nack ch msg false (negb (redelivered msg))]
        | None => []
        end
    ∧ messagesConsumeFailed s1 = messagesConsumeFailed (meanwhile s) + 1.
Proof.
  intros [ch0 Hc] Hf Hobs. unfold handleMessage, channelOrTypeError. js_unfold.
  rewrite Hc, Hf. cbn -[String.append].
  destruct (onError options) eqn:Ho; [destruct Hobs as [?|Ho']; [done|rewrite Ho']|].
  all: repeat case_match; simplify_eq/=.
  all: repeat match goal with a : () |- _ => destruct a end.
  all: eexists _, _; (split; [reflexivity|]); done.
Qed.

(** [createConsumer] registers its one callback, when [setup] succeeds. *)
Lemma createConsumer_registers options m env callback s t m' :
  createConsumer options m env callback = ((Returned (), s, t), m') →
  m' = Connection.onReconnect callback m
  ∧ unsubscribeReconnect s = Some callback
  ∧ (JsSet.has callback (Connection.reconnectSubscribers (Connection.st m)) = false →
     JsSet.values (Connection.reconnectSubscribers (Connection.st m'))
     = JsSet.values (Connection.reconnectSubscribers (Connection.st m)) ++ [callback]).
Proof.
  unfold createConsumer. intros H.
  destruct (setup options m env _) as [[[[]|message] s0] t0]; simplify_eq.
  split_and!; [done..|]. intros Hfresh. simpl. unfold JsSet.add. rewrite Hfresh.
  apply JsSetFacts.values_snoc.
Qed.

(** On a reconnect signal the consumer tears the stale channel down,
    whatever [close] does, sets the channel up again, and resumes when
    the was-active flag is set: it consumes again and is active. *)
Lemma handleReconnect_resumes options m env tag s :
  Connection.getConnection m ≠ None →
  (∃ ch, newChannel env = Returned ch) →
  prefetched env = Returned () → assertQueue env = Returned () →
  assertExchange env = Returned () → bindQueue env = Returned () →
  ∃ s1 t1 ch,
    handleReconnect options m env (Returned tag) s = (Returned (), s1, t1)
    ∧ newChannel env = Returned ch
    ∧ channel s1 = Some ch
    ∧ (∀ stale, channel s = Some stale → ChannelClose stale ∈ t1)
    ∧ AssertQueue ch (queue options) (opt_durable options) ∈ t1
    ∧ let resumed :=
        if closeEvent env && bool_decide (is_Some (channel s)) then isActive s
        else wasActive s in
      if resumed
      then Consume ch (queue options) ∈ t1 ∧ isActive s1 = true ∧ wasActive s1 = true
           ∧ consumerTag s1 = Some tag
      else Consume ch (queue options) ∉ t1.
Proof.
  intros Hconn [ch Hch] Hp Hq He Hb.
  unfold handleReconnect, setup, startConsuming, channelClosed, Connection.createChannel,
    Connection.getConnection in *.
  js_unfold. rewrite Hch, Hp, Hq, He, Hb.
  destruct (Connection.connection (Connection.st m)) as [c|]; [|done].
  destruct s as [chan tg act was n1 n2 lc un]. cbn -[String.append].
  destruct chan as [stale|], (closeStale env) as [[]|?], (closeEvent env),
    act, was, (exchange options) as [ex|]; cbn -[String.append].
  all: repeat case_bool_decide; cbn -[String.append].
  all: eexists _, _, ch; split; [reflexivity|].
  all: split_and!; try done.
  all: try (intros ? [= <-]).
  all: rewrite ?elem_of_cons, ?not_elem_of_cons; try (split_and!; try done); eauto 20.
  all: try apply not_elem_of_nil.
  all: try (intros Hor; repeat (destruct Hor as [Hor|Hor]; [discriminate|]);
            by apply elem_of_nil in Hor).
Qed.

End ConsumerFacts.

(** ** The publisher *)
Module PublisherFacts.
Import Js JsFacts Publisher.

(** [createPublisher] hands the manager back as it was: it never calls
    [connection.onReconnect]. *)
Lemma createPublisher_manager options m env :
  (createPublisher options m env).2 = m.
Proof. done. Qed.

(** With a channel and ready, [publish] makes the broker's call when a
    buffer can be made of the content. *)
Lemma publish_ready options routingKey content buffer s ch :
  channel s = Some ch → isReady s = true → body content = Returned buffer →
  publish options routingKey content (Returned ()) s
  = (Returned Pending, s,
     [Publish ch (opt_exchange (withDefaults options)) routingKey buffer
        (opt_contentType (withDefaults options)) (opt_deliveryMode (withDefaults options))
        (bool_decide (opt_deliveryMode (withDefaults options) = 2))]).
Proof.
  intros Hc Hr Hb. unfold publish. js_unfold. rewrite Hc, Hr, Hb. done.
Qed.

(** C9.  [publish] without a channel, or while not ready: the promise it
    returns is rejected already, with "Publisher not ready"; the failure
    counter goes up by one and nothing else changes; no call is made, on
    the broker or anywhere else, so nothing is published and nothing is
    tried again. *)
Theorem publish_not_ready
  (options : PublisherOptions) (routingKey : string) (content : Content)
  (broker : outcome unit) (s : PublisherState) :
  channel s = None ∨ isReady s = false →
  publish options routingKey content broker s
  = (Returned (Rejected "Publisher not ready"), countFailed s, [])
  ∧ messagesPublishFailed (countFailed s) = messagesPublishFailed s + 1
  ∧ messagesPublished (countFailed s) = messagesPublished s
  ∧ channel (countFailed s) = channel s
  ∧ isReady (countFailed s) = isReady s.
Proof.
  intros H. split; [|done]. unfold publish. js_unfold.
  destruct (channel s) as [ch|]; [|done].
  destruct H as [?|Hr]; [done|]. by rewrite Hr.
Qed.

Lemma publish_not_ready_witness :
  let s := {| channel := Some 4%nat; isReady := false; messagesPublished := 7;
              messagesPublishFailed := 2; lastPublishAt := Some 1700 |} in
  let options := {| exchange := "events"; exchangeType := None; durable := None;
                    deliveryMode := None; contentType := None |} in
  (channel s = None ∨ isReady s = false)
  ∧ publish options "user.created" (Value "{}") (Returned ()) s
    = (Returned (Rejected "Publisher not ready"),
       {| channel := Some 4%nat; isReady := false; messagesPublished := 7;
          messagesPublishFailed := 3; lastPublishAt := Some 1700 |}, []).
Proof.
  intros s options. assert (channel s = None ∨ isReady s = false) as H by (by right).
  split; [done|].
  exact (proj1 (publish_not_ready options "user.created" (Value "{}") (Returned ()) s H)).
Defined.

End PublisherFacts.

(** ** Recovery after a reconnect, and message failures *)
Module RecoveryFacts.
Import Js JsSet Connection.

(** C1.  [createPublisher] hands the manager back as it was: no
    reconnect subscriber is registered.  So, for a publisher made on a
    connected manager: when its channel closes and the manager connects
    again, the subscriber loop calls nobody, [setup] is not run again, and
    [publish] is still rejected with "Publisher not ready". *)
Theorem publisher_not_recovered_on_reconnect :
  let options := withReconnect DEFAULT_RECONNECT in
  let popts := {| Publisher.exchange := "events"; Publisher.exchangeType := None;
                  Publisher.durable := None; Publisher.deliveryMode := None;
                  Publisher.contentType := None |} in
  let penv := {| Publisher.confirmChannel := Returned 5%nat;
                 Publisher.assertExchange := Returned () |} in
  (∀ popts m penv, (Publisher.createPublisher popts m penv).2 = m)
  ∧ ∃ m1 e1 p calls m2 e2,
      session options quiet 10 [ConnectResolved 1 (Returned ())] = Some (m1, e1)
      ∧ Publisher.createPublisher popts m1 penv = ((Returned (), p, calls), m1)
      ∧ Publisher.channel p = Some 5%nat ∧ Publisher.isReady p = true
      ∧ values (reconnectSubscribers (st m1)) = []
      ∧ run options quiet 10 m1 [ConnectionClosed 1; ConnectResolved 2 (Returned ())]
        = Some (m2, e2)
      ∧ isConnected m2 = true
      ∧ rounds e2 = [[]]
      ∧ let closed := (Publisher.channelClosed popts p).1.2 in
        Publisher.channel closed = None
        ∧ Publisher.publish popts "user.created" (Publisher.Text "hello") (Returned ()) closed
          = (Returned (Publisher.Rejected "Publisher not ready"),
             Publisher.countFailed closed, []).
Proof.
  intros options popts penv. split; [done|].
  eexists _, _, _, _, _, _.
  split; [vm_compute; reflexivity|].
  split; [vm_compute; reflexivity|].
  split; [done|]. split; [done|]. split; [done|].
  split; [vm_compute; reflexivity|].
  by split_and!.
Qed.

(** C2.  [createBridge] hands both managers back as they were: no
    reconnect subscriber is registered on either.  So when the source, or
    the target, loses its connection and connects again, the subscriber
    loop calls nobody: [start()] is not invoked again. *)
Theorem bridge_not_restarted_on_reconnect :
  let options := withReconnect DEFAULT_RECONNECT in
  let bopts := {| Bridge.exchanges := ["events"%string]; Bridge.prefetch := None;
                  Bridge.queuePrefix := None; Bridge.deliveryMode := None;
                  Bridge.logEveryNMessages := None; Bridge.onStart := false;
                  Bridge.onStop := false |} in
  (∀ bopts source target now,
     (Bridge.createBridge bopts source target now).1.2 = source
     ∧ (Bridge.createBridge bopts source target now).2 = target)
  ∧ ∃ m e source target source' es target' et,
      session options quiet 10 [ConnectResolved 1 (Returned ())] = Some (m, e)
      ∧ (Bridge.createBridge bopts m m 1700).1.2 = source
      ∧ (Bridge.createBridge bopts m m 1700).2 = target
      ∧ values (reconnectSubscribers (st source)) = []
      ∧ values (reconnectSubscribers (st target)) = []
      ∧ run options quiet 10 source [ConnectionClosed 1; ConnectResolved 2 (Returned ())]
        = Some (source', es)
      ∧ isConnected source' = true ∧ rounds es = [[]]
      ∧ run options quiet 10 target [ConnectionClosed 1; ConnectResolved 3 (Returned ())]
        = Some (target', et)
      ∧ isConnected target' = true ∧ rounds et = [[]].
Proof.
  intros options bopts. split; [done|].
  eexists _, _, _, _, _, _, _, _.
  split; [vm_compute; reflexivity|].
  split; [reflexivity|]. split; [reflexivity|].
  split; [done|]. split; [done|].
  split; [vm_compute; reflexivity|]. split; [done|]. split; [done|].
  split; [vm_compute; reflexivity|]. by split.
Qed.

(** C6 (amended).  A consumed message whose handler fails is nacked with
    [requeue = !redelivered], provided the [onError] callback, if one is
    given, returns: requeued when it was not redelivered, not requeued
    when it was.  The nack goes to the channel the consumer holds when the
    handler settles (with none left, the [TypeError] of the call is
    swallowed and nothing is sent); nothing is acked; and [handleMessage]
    returns whatever [nack] does, so an exception of the nack call is
    swallowed.  The bridge does the same for a forward that fails with a
    message that does not say the channel is closed. *)
Theorem failed_message_requeued_unless_redelivered
  (copts : Consumer.ConsumerOptions) (bopts : Bridge.BridgeOptions)
  (msg : ConsumeMessage) (message : string) :
  (∀ env meanwhile now s,
     is_Some (Consumer.channel s) →
     Consumer.onMessage env = Thrown message →
     Consumer.onError copts = false ∨ Consumer.onErrored env = Returned () →
     ∃ s1 t1,
       Consumer.handleMessage copts (Some msg) env meanwhile now s = (Returned (), s1, t1)
       ∧ acknowledgements t1
         = match Consumer.channel (meanwhile s) with
           | Some ch => [Nack ch msg false (negb (redelivered msg))]
           | None => []
           end)
  ∧ (∀ exchange env meanwhile s cc pc,
       Bridge.consumerChannel s = Some cc →
       Bridge.producerChannel s = Some pc →
       Bridge.forwarded env = Thrown message →
       Bridge.includes "Channel closed" message
       || Bridge.includes "channel closed" message = false →
       ∃ s1 t1,
         Bridge.handleMessage bopts (Some msg) exchange env meanwhile s = (Returned (), s1, t1)
         ∧ acknowledgements t1 = [Nack cc msg false (negb (redelivered msg))]).
Proof.
  split.
  - intros env meanwhile now s Hc Hf Hobs.
    destruct (ConsumerFacts.handleMessage_handler_failed copts msg env meanwhile now s
                message Hc Hf Hobs) as (s1 & t1 & E & A & _).
    by exists s1, t1.
  - intros exchange env meanwhile s cc pc Hc Hp Hf Hi.
    by apply BridgeFacts.handleMessage_forward_failed with pc message.
Qed.

(** C6, as stated, fails when the [onError] callback throws: it is called
    in the [catch] arm before the inner [try], so [handleMessage] is
    rejected with its error and the message is neither nacked nor acked. *)
Lemma failed_message_not_nacked_when_onError_throws :
  let copts := {| Consumer.queue := "jobs"; Consumer.exchange := None;
                  Consumer.routingKey := None; Consumer.durable := None;
                  Consumer.prefetch := None; Consumer.onError := true |} in
  let s := {| Consumer.channel := Some 3%nat; Consumer.consumerTag := Some "tag"%string;
              Consumer.isActive := true; Consumer.wasActive := true;
              Consumer.messagesConsumed := 0; Consumer.messagesConsumeFailed := 0;
              Consumer.lastConsumeAt := None; Consumer.unsubscribeReconnect := Some 0%nat |} in
  let fresh := {| content := "{}"; routingKey := "user.created"; redelivered := false |} in
  let env := {| Consumer.onMessage := Thrown "boom"; Consumer.acked := Returned ();
                Consumer.onErrored := Thrown "observer"; Consumer.nacked := Returned () |} in
  ∃ s1 t1,
    Consumer.handleMessage copts (Some fresh) env id 1700 s = (Thrown "observer", s1, t1)
    ∧ t1 = [OnMessage fresh; OnError "boom" fresh]
    ∧ acknowledgements t1 = [].
Proof. intros copts s fresh env. eexists _, _. split; [vm_compute; reflexivity|]. done. Qed.

(** The message fails on first delivery and is requeued; it comes back
    redelivered, fails again and is dropped; the second time the nack
    call throws and nothing escapes.  A redelivered message that the
    bridge fails to forward is dropped too. *)
Lemma failed_message_requeued_unless_redelivered_witness :
  let copts := {| Consumer.queue := "jobs"; Consumer.exchange := None;
                  Consumer.routingKey := None; Consumer.durable := None;
                  Consumer.prefetch := None; Consumer.onError := true |} in
  let s := {| Consumer.channel := Some 3%nat; Consumer.consumerTag := Some "tag"%string;
              Consumer.isActive := true; Consumer.wasActive := true;
              Consumer.messagesConsumed := 0; Consumer.messagesConsumeFailed := 0;
              Consumer.lastConsumeAt := None; Consumer.unsubscribeReconnect := Some 0%nat |} in
  let fresh := {| content := "{}"; routingKey := "user.created"; redelivered := false |} in
  let again := {| content := "{}"; routingKey := "user.created"; redelivered := true |} in
  let fails := λ nack, {| Consumer.onMessage := Thrown "boom"; Consumer.acked := Returned ();
                          Consumer.onErrored := Returned (); Consumer.nacked := nack |} in
  let unconfirmed := {| Bridge.forwarded := Thrown "boom"; Bridge.acked := Returned ();
                        Bridge.nacked := Returned (); Bridge.date := 1900;
                        Bridge.now1 := 1900; Bridge.now2 := 1900 |} in
  (∃ s1 t1,
     Consumer.handleMessage copts (Some fresh) (fails (Returned ())) id 1700 s
     = (Returned (), s1, t1)
     ∧ acknowledgements t1 = [Nack 3 fresh false true])
  ∧ (∃ s1 t1,
       Consumer.handleMessage copts (Some again) (fails (Thrown "closed")) id 1800 s
       = (Returned (), s1, t1)
       ∧ acknowledgements t1 = [Nack 3 again false false])
  ∧ (∃ s1 t1,
       Bridge.handleMessage Examples.twoExchanges (Some again) "events" unconfirmed id
         Examples.runningBridge
       = (Returned (), s1, t1)
       ∧ acknowledgements t1 = [Nack 1 again false false]).
Proof.
  intros copts s fresh again fails unconfirmed.
  assert (is_Some (Consumer.channel s)) as Hc by (by eexists).
  pose proof (failed_message_requeued_unless_redelivered copts Examples.twoExchanges) as T.
  split_and!.
  - destruct (T fresh "boom"%string) as [C _].
    exact (C (fails (Returned ())) id 1700 s Hc eq_refl (or_intror eq_refl)).
  - destruct (T again "boom"%string) as [C _].
    exact (C (fails (Thrown "closed")) id 1800 s Hc eq_refl (or_intror eq_refl)).
  - destruct (T again "boom"%string) as [_ B].
    exact (B "events"%string unconfirmed id Examples.runningBridge 1%nat 2%nat
             eq_refl eq_refl eq_refl eq_refl).
Defined.

(** C10.  The object [createBridge] returns has the five members [start],
    [stop], [isRunning], [getMetrics] and [getState], and no other: there
    is no [close], which [interface Bridge] declares, so reading [close]
    from it gives [undefined]. *)
Theorem bridge_object_has_no_close
  (bopts : Bridge.BridgeOptions) (source target : Manager) (now : Z) :
  let object := (Bridge.createBridge bopts source target now).1.1.2 in
  dom object = {[ "start"; "stop"; "isRunning"; "getMetrics"; "getState" ]}%string
  ∧ size object = 5%nat
  ∧ object !! "close"%string = None
  ∧ "close"%string ∈ Bridge.BridgeInterface.
Proof.
  intros object. unfold object, Bridge.createBridge. simpl. split_and!.
  - rewrite !dom_insert_L. set_solver.
  - done.
  - done.
  - unfold Bridge.BridgeInterface. set_solver.
Qed.

(** *** Evaluations *)

(** Connected, then the connection is lost: [isConnected()] is false,
    the state is [connecting] again and no connection is held. *)
Lemma connected_iff_connection_witness :
  ∃ m e,
    session (withReconnect DEFAULT_RECONNECT) quiet 10
      [ConnectResolved 1 (Returned ()); ConnectionClosed 1] = Some (m, e)
    ∧ getState m = connecting
    ∧ (isConnected m = true ↔ getState m = connected)
    ∧ (getConnection m ≠ None ↔ getState m = connected).
Proof.
  destruct (session (withReconnect DEFAULT_RECONNECT) quiet 10
              [ConnectResolved 1 (Returned ()); ConnectionClosed 1]) as [[m e]|] eqn:H;
    [|by vm_compute in H].
  exists m, e. split; [done|].
  split; [vm_compute in H; injection H as <- <-; reflexivity|].
  apply (ConnectionFacts.connected_iff_connection _ _ _ _ _ _ H).
  repeat constructor; by left.
Defined.

(** A channel is asked for on a connected manager. *)
Lemma channel_only_while_connected_witness :
  ∃ m e,
    session (withReconnect DEFAULT_RECONNECT) quiet 10 [ConnectResolved 1 (Returned ())]
    = Some (m, e)
    ∧ createChannel m (Returned 7%nat) = Some 7%nat
    ∧ isConnected m = true.
Proof.
  destruct (session (withReconnect DEFAULT_RECONNECT) quiet 10
              [ConnectResolved 1 (Returned ())]) as [[m e]|] eqn:H;
    [|by vm_compute in H].
  exists m, e. split; [done|].
  assert (createChannel m (Returned 7%nat) = Some 7%nat) as Hch
    by (vm_compute in H; injection H as <- <-; reflexivity).
  split; [done|].
  exact (ConnectionFacts.channel_only_while_connected _ _ _ _ _ _ (Returned 7%nat) 7%nat H
           (or_introl Hch)).
Defined.

(** A consumer made on a connected manager registers callback 4, and the
    next successful reconnect calls it, once. *)
Lemma createConsumer_registers_witness :
  let copts := {| Consumer.queue := "jobs"; Consumer.exchange := Some "events"%string;
                  Consumer.routingKey := None; Consumer.durable := None;
                  Consumer.prefetch := None; Consumer.onError := false |} in
  let env := {| Consumer.closeStale := Returned (); Consumer.closeEvent := true;
                Consumer.newChannel := Returned 3%nat; Consumer.prefetched := Returned ();
                Consumer.assertQueue := Returned (); Consumer.assertExchange := Returned ();
                Consumer.bindQueue := Returned () |} in
  let options := withReconnect DEFAULT_RECONNECT in
  let subscriber := λ (_ _ : nat), Consumer.reconnectCallback in
  ∃ m e s t m1 m2 e2,
    session options subscriber 10 [ConnectResolved 1 (Returned ())] = Some (m, e)
    ∧ Consumer.createConsumer copts m env 4%nat = ((Returned (), s, t), m1)
    ∧ m1 = onReconnect 4%nat m
    ∧ Consumer.unsubscribeReconnect s = Some 4%nat
    ∧ values (reconnectSubscribers (st m1)) = [4%nat]
    ∧ run options subscriber 10 m1 [ConnectionClosed 1; ConnectResolved 2 (Returned ())]
      = Some (m2, e2)
    ∧ rounds e2 = [[4%nat]].
Proof.
  intros copts env options subscriber.
  destruct (session options subscriber 10 [ConnectResolved 1 (Returned ())])
    as [[m e]|] eqn:H; [|by vm_compute in H].
  destruct (Consumer.createConsumer copts m env 4%nat) as [[[r s] t] m1] eqn:C.
  assert (r = Returned ()) as ->
    by (vm_compute in H; injection H as <- <-; vm_compute in C; by injection C as <-).
  destruct (ConsumerFacts.createConsumer_registers _ _ _ _ _ _ _ C) as (H1 & H2 & H3).
  assert (values (reconnectSubscribers (st m1)) = [4%nat]) as Hv.
  { rewrite H3; vm_compute in H; injection H as <- <-; reflexivity. }
  destruct (run options subscriber 10 m1
              [ConnectionClosed 1; ConnectResolved 2 (Returned ())]) as [[m2 e2]|] eqn:R;
    [|subst m1; vm_compute in H; injection H as <- <-; by vm_compute in R].
  exists m, e, s, t, m1, m2, e2. split_and!; try done.
  subst m1. vm_compute in H. injection H as <- <-. vm_compute in R.
  by injection R as <- <-.
Defined.

(** The consumer was consuming when its channel closed: on the reconnect
    signal it sets the channel up again and consumes again. *)
Lemma handleReconnect_resumes_witness :
  let copts := {| Consumer.queue := "jobs"; Consumer.exchange := None;
                  Consumer.routingKey := None; Consumer.durable := None;
                  Consumer.prefetch := None; Consumer.onError := false |} in
  let env := {| Consumer.closeStale := Returned (); Consumer.closeEvent := true;
                Consumer.newChannel := Returned 8%nat; Consumer.prefetched := Returned ();
                Consumer.assertQueue := Returned (); Consumer.assertExchange := Returned ();
                Consumer.bindQueue := Returned () |} in
  let s := {| Consumer.channel := None; Consumer.consumerTag := None;
              Consumer.isActive := false; Consumer.wasActive := true;
              Consumer.messagesConsumed := 5; Consumer.messagesConsumeFailed := 0;
              Consumer.lastConsumeAt := Some 1700; Consumer.unsubscribeReconnect := Some 4%nat |} in
  ∃ m e s1 t1,
    session (withReconnect DEFAULT_RECONNECT) quiet 10 [ConnectResolved 1 (Returned ())]
    = Some (m, e)
    ∧ Consumer.handleReconnect copts m env (Returned "tag-2"%string) s = (Returned (), s1, t1)
    ∧ Consumer.channel s1 = Some 8%nat
    ∧ Consume 8 "jobs" ∈ t1
    ∧ Consumer.isActive s1 = true ∧ Consumer.wasActive s1 = true
    ∧ Consumer.consumerTag s1 = Some "tag-2"%string.
Proof.
  intros copts env s.
  destruct (session (withReconnect DEFAULT_RECONNECT) quiet 10
              [ConnectResolved 1 (Returned ())]) as [[m e]|] eqn:H; [|by vm_compute in H].
  assert (getConnection m ≠ None) as Hc
    by (vm_compute in H; injection H as <- <-; discriminate).
  destruct (ConsumerFacts.handleReconnect_resumes copts m env "tag-2"%string s Hc
              (ex_intro _ 8%nat eq_refl) eq_refl eq_refl eq_refl eq_refl)
    as (s1 & t1 & ch & E & N & C & _ & _ & R).
  injection N as <-. simpl in R. destruct R as (R1 & R2 & R3 & R4).
  by exists m, e, s1, t1.
Defined.

End RecoveryFacts.

(** ** The manager: shutting down, giving up, metrics, unsubscribing *)
Module ManagerFacts.
Import JsSet JsSetFacts Connection NotifyFacts ConnectionFacts ManagerInvariants.

Lemma rounds_app e1 e2 : rounds (e1 ++ e2) = rounds e1 ++ rounds e2.
Proof. unfold rounds. apply omap_app. Qed.

(** [run] keeps what every [step] keeps. *)
Lemma run_invariant options subscriber fuel (I : Manager → Prop) :
  (∀ m ev m' e, step options subscriber fuel m ev = Some (m', e) → I m → I m') →
  ∀ evs m m' e, run options subscriber fuel m evs = Some (m', e) → I m → I m'.
Proof.
  intros Hstep. induction evs as [|ev evs IH]; intros m m' e H Hm; simpl in H;
    [by simplify_eq|].
  destruct (step options subscriber fuel m ev) as [[m1 e1]|] eqn:E1; [|done].
  destruct (run options subscriber fuel m1 evs) as [[m2 e2]|] eqn:E2; [|done].
  simplify_eq. eapply IH; [done|]. by eapply Hstep.
Qed.

Lemma session_invariant options subscriber fuel (I : Manager → Prop) :
  I (createConnection options).1 →
  (∀ m ev m' e, step options subscriber fuel m ev = Some (m', e) → I m → I m') →
  ∀ evs m e, session options subscriber fuel evs = Some (m, e) → I m.
Proof.
  intros H0 Hstep evs m e. unfold session.
  destruct (createConnection options) as [m0 e0] eqn:E0.
  destruct (run options subscriber fuel m0 evs) as [[m1 e1]|] eqn:E1; [|done].
  intros ?; simplify_eq. by eapply run_invariant.
Qed.

Section Idle.
Variable options : ResilientConnectionOptions.
Variable subscriber : nat → nat → Behaviour.
Variable fuel : nat.

Lemma step_idle m ev :
  idle m →
  ∃ m' e, step options subscriber fuel m ev = Some (m', e)
    ∧ attempts e = [] ∧ sleeps e = [] ∧ rounds e = []
    ∧ idle m'
    ∧ (isShuttingDown (st m) = true → isShuttingDown (st m') = true)
    ∧ (armed m = [] → armed m' = [])
    ∧ (isConnected m = false → isConnected m' = false)
    ∧ (closing m = 0%nat → ev ≠ CloseCalled →
       closing m' = 0%nat ∧ getState m' = getState m).
Proof.
  intros [Hp Hi]. unfold idle, isConnected, getState.
  destruct ev; unfold_program; rewrite ?Hp; simpl.
  all: repeat case_match; simplify_eq/=.
  all: eexists _, _; (split; [reflexivity|]); simpl.
  all: destruct Hi as [Hi|Hi]; rewrite ?Hi in *; simplify_eq/=.
  all: split_and!; try done; auto.
  all: try (by apply elem_of_nil in H).
  all: try (by rewrite bool_decide_eq_true in *; set_solver).
  all: try (by intros ->).
  all: try (by match goal with H : connection _ = Some _ |- _ => rewrite H end).
Qed.

Lemma run_idle evs : ∀ m,
  idle m →
  ∃ m' e, run options subscriber fuel m evs = Some (m', e)
    ∧ attempts e = [] ∧ sleeps e = [] ∧ rounds e = []
    ∧ idle m'
    ∧ (isShuttingDown (st m) = true → isShuttingDown (st m') = true)
    ∧ (armed m = [] → armed m' = [])
    ∧ (isConnected m = false → isConnected m' = false)
    ∧ (closing m = 0%nat → CloseCalled ∉ evs →
       closing m' = 0%nat ∧ getState m' = getState m).
Proof.
  induction evs as [|ev evs IH]; intros m Hm.
  - exists m, []. by split_and!.
  - destruct (step_idle m ev Hm) as (m1 & e1 & E1 & A1 & S1 & R1 & I1 & D1 & W1 & C1 & Q1).
    destruct (IH m1 I1) as (m2 & e2 & E2 & A2 & S2 & R2 & I2 & D2 & W2 & C2 & Q2).
    exists m2, (e1 ++ e2). simpl. rewrite E1, E2.
    rewrite attempts_app, sleeps_app, rounds_app, A1, A2, S1, S2, R1, R2.
    split_and!; auto.
    intros Hc Hno. apply not_elem_of_cons in Hno as [Hne Hno].
    destruct (Q1 Hc) as [Hc1 G1]; [done|].
    destruct (Q2 Hc1 Hno) as [Hc2 G2]. split; [done|congruence].
Qed.

End Idle.

(** Once [close()] has been called with no connection attempt in flight,
    whatever happens next the manager makes no connection attempt, sleeps
    for no retry and calls no reconnect subscriber; it stays shut down,
    and not connected if it was not. *)
Theorem no_attempt_after_close options subscriber fuel (m : Manager) (evs : list Event) :
  isShuttingDown (st m) = true → pending m = None →
  ∃ m' e, run options subscriber fuel m evs = Some (m', e)
    ∧ attempts e = [] ∧ sleeps e = [] ∧ rounds e = []
    ∧ isShuttingDown (st m') = true ∧ pending m' = None
    ∧ (isConnected m = false → isConnected m' = false).
Proof.
  intros Hs Hp.
  destruct (run_idle options subscriber fuel evs m) as
    (m' & e & E & A & S & R & [I _] & D & _ & C & _); [split; auto|].
  exists m', e. split_and!; auto.
Qed.

(** A manager with no connection attempt in flight and no open connection
    watched, which is how a reconnect loop that gave up after [maxRetries]
    leaves it, never tries again: whatever happens next there is no
    attempt, no sleep and no subscriber call, it is not connected if it was
    not, and unless [close()] is called [getState()] keeps its value. *)
Lemma no_attempt_after_giving_up options subscriber fuel (m : Manager) (evs : list Event) :
  pending m = None → armed m = [] →
  ∃ m' e, run options subscriber fuel m evs = Some (m', e)
    ∧ attempts e = [] ∧ sleeps e = [] ∧ rounds e = []
    ∧ pending m' = None ∧ armed m' = []
    ∧ (isConnected m = false → isConnected m' = false)
    ∧ (closing m = 0%nat → CloseCalled ∉ evs → getState m' = getState m).
Proof.
  intros Hp Ha.
  destruct (run_idle options subscriber fuel evs m) as
    (m' & e & E & A & S & R & [I _] & _ & W & C & Q); [split; auto|].
  exists m', e. split_and!; auto. intros Hc Hno. by destruct (Q Hc Hno).
Qed.

Lemma armed_filter_lt (c : nat) (a : list nat) :
  c ∈ a → (length (List.filter (λ x, negb (Nat.eqb x c)) a) < length a)%nat.
Proof.
  induction a as [|x a IH]; simpl; intros Hin; [by apply elem_of_nil in Hin|].
  destruct (Nat.eqb_spec x c) as [->|Hne]; simpl.
  - pose proof (armed_filter_length c a). lia.
  - apply elem_of_cons in Hin as [->|Hin]; [done|]. apply IH in Hin. lia.
Qed.

Section Consistent.
Variable options : ResilientConnectionOptions.
Variable subscriber : nat → nat → Behaviour.
Variable fuel : nat.

Lemma step_consistent m ev m' e :
  step options subscriber fuel m ev = Some (m', e) → consistent m → consistent m'.
Proof.
  intros H (N1 & N2 & N4 & N5 & N6 & N7 & N8).
  destruct (isShuttingDown (st m)) eqn:Hs;
    [clear N1 N2|specialize (N1 eq_refl); specialize (N2 eq_refl)].
  all: destruct ev; program_cases; unfold consistent; simpl.
  all: try congruence.
  all: try (match goal with H : bool_decide (_ ∈ _) = true |- _ =>
              apply bool_decide_eq_true_1, armed_filter_lt in H end).
  all: repeat match goal with
         | H : bool_decide _ = true |- _ => apply bool_decide_eq_true_1 in H
         | H : bool_decide _ = false |- _ => apply bool_decide_eq_false_1 in H
         end.
  all: try done.
  all: split_and!; intros; simplify_eq/=; try done; try congruence; try lia; eauto.
  all: try (match goal with |- context [List.filter (λ x, negb (Nat.eqb x ?c)) ?a] =>
              pose proof (armed_filter_length c a); lia end).
Qed.

Lemma createConnection_consistent :
  consistent (createConnection options).1 ∧ agrees (createConnection options).1.
Proof.
  unfold consistent, agrees, createConnection, connectWithRetry, loopHead. simpl.
  repeat case_match; simpl.
  all: split_and!; intros; simplify_eq/=; done.
Qed.

Lemma session_consistent evs m e :
  session options subscriber fuel evs = Some (m, e) → consistent m.
Proof.
  apply session_invariant; [apply createConnection_consistent|].
  intros ????. apply step_consistent.
Qed.

Lemma step_agrees m ev m' e :
  step options subscriber fuel m ev = Some (m', e) →
  disconnectReturns options →
  consistent m ∧ agrees m → consistent m' ∧ agrees m'.
Proof.
  intros H Hobs [Hc N3]. split; [by eapply step_consistent|].
  destruct Hc as (N1 & N2 & N4 & N5 & N6 & N7 & N8). unfold agrees in *.
  destruct (isShuttingDown (st m)) eqn:Hs;
    [clear N1 N2 N3
    |specialize (N1 eq_refl); specialize (N2 eq_refl); specialize (N3 eq_refl)].
  all: destruct ev; program_cases; simpl; try done.
  all: try congruence.
  all: try (by destruct Hobs as [E|E]; [congruence|rewrite E in *]).
  all: by repeat match goal with
            | H : bool_decide _ = true |- _ => apply bool_decide_eq_true_1 in H
            end.
Qed.

Lemma session_agrees evs m e :
  session options subscriber fuel evs = Some (m, e) →
  disconnectReturns options → consistent m ∧ agrees m.
Proof.
  intros H Hobs. revert H.
  apply (session_invariant options subscriber fuel (λ m, consistent m ∧ agrees m));
    [apply createConnection_consistent|].
  intros ???? Hs. by eapply step_agrees.
Qed.

End Consistent.

(** [getMetrics()] agrees with the manager, when every connection emits
    "close" at most once (the events of a connection whose "close"
    observer has run, or was removed, are no events of the manager).
    With an [onDisconnect] observer that returns, if one is configured,
    [connectionState] is [getState()] until [close()] is called.  Whatever
    the observers do, the reconnect attempt reads 0 in state [connected],
    and no more connections were lost than were established. *)
Theorem metrics_agree_with_state options subscriber fuel evs (m : Manager) e :
  session options subscriber fuel evs = Some (m, e) →
  (disconnectReturns options →
   isShuttingDown (st m) = false → connectionState (metrics m) = getState m)
  ∧ (getState m = connected → reconnectAttempt (metrics m) = 0)
  ∧ 0 ≤ connectionsLost (metrics m) ≤ connectionsEstablished (metrics m).
Proof.
  intros H. split.
  - intros Hobs. by destruct (session_agrees _ _ _ _ _ _ H Hobs) as [_ N3].
  - apply session_consistent in H as (N1 & N2 & N4 & N5 & N6 & N7 & N8).
    unfold getState. split_and!; auto. lia.
Qed.

(** Between two events the state is never [reconnecting]:
    [scheduleReconnect] sets it and calls [connectWithRetry], which sets
    [connecting] before it first suspends.  Neither [getState()] nor
    [getMetrics().connectionState] ever reads [reconnecting]. *)
Theorem reconnecting_is_never_read options subscriber fuel evs (m : Manager) e :
  session options subscriber fuel evs = Some (m, e) →
  getState m ≠ reconnecting ∧ connectionState (metrics m) ≠ reconnecting.
Proof.
  intros H. apply session_consistent in H as (N1 & N2 & N4 & N5 & N6 & N7 & N8).
  done.
Qed.

(** When a reconnect loop (not the initial one) has used up a finite
    [maxRetries] and its attempt is rejected, the failure is only logged:
    the manager is left in state [connecting], not connected, and as long
    as [close()] is not called nothing that happens next makes it try
    again, sleep, call a subscriber or change state. *)
Theorem reconnect_gives_up_for_good options subscriber fuel evs0 (m : Manager) e0
  (l : Loop) (message : string) (evs : list Event) :
  session options subscriber fuel evs0 = Some (m, e0) →
  isShuttingDown (st m) = false →
  pending m = Some l → pc l = AwaitConnect → initial l = false →
  maxRetries (reconnect options) ≠ -1 → maxRetries (reconnect options) ≤ attempt l →
  CloseCalled ∉ evs →
  ∃ m' e, run options subscriber fuel m (ConnectRejected message :: evs)
          = Some (m', [LogConnectionFailed message;
                       LogReconnectionFailed ("Failed to connect after " +:+ showZ (attempt l)
                                              +:+ " attempts: " +:+ message)] ++ e)
    ∧ attempts e = [] ∧ sleeps e = [] ∧ rounds e = []
    ∧ getState m' = connecting ∧ isConnected m' = false ∧ pending m' = None.
Proof.
  intros H Hs Hp Hpc Hi Hcap Hle Hno.
  pose proof (session_settled _ _ _ _ _ _ H) as (J1 & J2 & J3 & J4).
  pose proof (session_consistent _ _ _ _ _ _ H) as (N1 & N2 & N4 & N5 & N6 & N7 & N8).
  assert (connection (st m) = None) as Hc by (apply J2 with l; [done|]; intros; congruence).
  assert (armed m = []) as Ha by (apply J3; congruence).
  assert (state (st m) = connecting) as Hst by eauto.
  rewrite run_cons. unfold step. rewrite Hp, Hpc. unfold catchArm, afterFailure.
  rewrite Hc, Hi, (bool_decide_eq_true_2 _ Hcap), (bool_decide_eq_true_2 _ Hle). simpl.
  destruct (run_idle options subscriber fuel evs (withPending None m))
    as (m' & e & E & A & S & R & [P _] & _ & W & C & Q); [split; auto|].
  rewrite E. exists m', e. split; [done|].
  destruct Q as [_ Q]; [by apply N1|done|].
  split_and!; try done.
  - by rewrite Q.
  - apply C. unfold isConnected. simpl. by rewrite Hc, andb_false_r.
Qed.

(** *** Unsubscribing *)

Lemma has_add_ne k j d : j ≠ k → has k (add j d) = has k d.
Proof.
  intros Hne. unfold add. destruct (has j d); [done|].
  unfold has. apply bool_decide_ext. rewrite elem_of_app, list_elem_of_singleton.
  split; [intros [?|?]; [done|congruence]|by left].
Qed.

Lemma has_delete_false k j d : has k d = false → has k (delete j d) = false.
Proof.
  unfold has, delete. rewrite !bool_decide_eq_false. intros Hk Hin. apply Hk.
  apply list_elem_of_fmap in Hin as (x & Hx & Hin).
  case_bool_decide; [done|]. by subst.
Qed.

Lemma has_delete_self k d : has k (delete k d) = false.
Proof.
  unfold has, delete. rewrite bool_decide_eq_false. intros Hin.
  apply list_elem_of_fmap in Hin as (x & Hx & Hin). case_bool_decide; simplify_eq.
Qed.

Lemma filter_absent (k : nat) (l : list nat) : k ∉ l → filter (λ x, x = k) l = [].
Proof.
  intros Hk. destruct (filter (λ x, x = k) l) as [|x l'] eqn:E; [done|].
  assert (x ∈ filter (λ x, x = k) l) as Hx by (rewrite E; left).
  apply list_elem_of_filter in Hx as [-> Hx]. done.
Qed.

Section Unsubscribed.
Variable options : ResilientConnectionOptions.
Variable subscriber : nat → nat → Behaviour.
Variable fuel : nat.
Variable k : nat.
Hypothesis never_subscribed : ∀ j t, Subscribe k ∉ ops (subscriber j t).
Local Abbreviation subs m := (reconnectSubscribers (st m)).

Lemma applyOps_absent os d :
  Subscribe k ∉ os → has k d = false → has k (foldl applyOp d os) = false.
Proof.
  revert d. induction os as [|o os IH]; intros d Hno H; simpl; [done|].
  apply not_elem_of_cons in Hno as [Ho Hno]. apply IH; [done|].
  destruct o as [j|j]; simpl.
  - rewrite has_add_ne; [done|congruence].
  - by apply has_delete_false.
Qed.

Lemma notify_absent n : ∀ i d t calls d' t' calls',
  notify subscriber n i d t calls = Some (d', t', calls') →
  has k d = false → k ∉ calls.*1 →
  has k d' = false ∧ k ∉ calls'.*1.
Proof.
  induction n as [|n IH]; intros i d t calls d' t' calls' H Hd Hc; simpl in H; [done|].
  destruct (d !! i) as [[j|]|] eqn:E.
  - eapply IH; [done| |].
    + by apply applyOps_absent.
    + rewrite fmap_app, not_elem_of_app. split; [done|]. simpl.
      rewrite list_elem_of_singleton. intros ->.
      apply bool_decide_eq_false in Hd. apply Hd. by eapply list_elem_of_lookup_2.
  - by eapply IH.
  - by simplify_eq.
Qed.

Lemma step_absent m ev m' e :
  step options subscriber fuel m ev = Some (m', e) →
  ev ≠ OnReconnect k → has k (subs m) = false →
  has k (subs m') = false ∧ invocations k e = 0%nat.
Proof.
  intros H Hne Hk. destruct ev; program_cases; try done.
  all: try (by rewrite has_add_ne by congruence).
  all: try (by split; [apply has_delete_false|]).
  all: match goal with H : context [notify] |- _ =>
         destruct (notify_absent _ _ _ _ _ _ _ _ H Hk) as [Habs Hcalls];
           [simpl; apply not_elem_of_nil|] end.
  all: split; [done|]. all: unfold invocations, rounds; simpl.
  all: by rewrite app_nil_r, filter_absent.
Qed.

Lemma run_absent evs : ∀ m m' e,
  run options subscriber fuel m evs = Some (m', e) →
  OnReconnect k ∉ evs → has k (subs m) = false →
  has k (subs m') = false ∧ invocations k e = 0%nat.
Proof.
  induction evs as [|ev evs IH]; intros m m' e H Hno Hk; simpl in H; [by simplify_eq|].
  destruct (step options subscriber fuel m ev) as [[m1 e1]|] eqn:E1; [|done].
  destruct (run options subscriber fuel m1 evs) as [[m2 e2]|] eqn:E2; [|done].
  simplify_eq. apply not_elem_of_cons in Hno as [Hne Hno].
  destruct (step_absent _ _ _ _ E1) as [K1 Z1]; [done..|].
  destruct (IH _ _ _ E2 Hno K1) as [K2 Z2]. split; [done|].
  unfold invocations in *. rewrite rounds_app, concat_app, filter_app, length_app. lia.
Qed.

End Unsubscribed.

(** The function [onReconnect] returns works: once it has been called,
    the callback is not called on any later reconnect, as long as nobody
    registers it again. *)
Theorem unsubscribed_callback_not_called options subscriber fuel (m : Manager) (k : nat)
  (evs : list Event) m' e :
  (∀ j t, Subscribe k ∉ ops (subscriber j t)) →
  OnReconnect k ∉ evs →
  run options subscriber fuel m (Unsubscribe k :: evs) = Some (m', e) →
  invocations k e = 0%nat ∧ has k (reconnectSubscribers (st m')) = false.
Proof.
  intros Hsub Hno H. rewrite run_cons in H. simpl in H.
  destruct (run options subscriber fuel (unsubscribe k m) evs) as [[m2 e2]|] eqn:E; [|done].
  simplify_eq/=.
  destruct (run_absent options subscriber fuel k Hsub evs _ _ _ E Hno) as [K Z]; [|done].
  simpl. apply has_delete_self.
Qed.

(** [close()] does not cancel a connection attempt in flight: when the
    attempt then succeeds, the manager is connected, holds the new
    connection and has notified its subscribers, although it is shut
    down. *)
Theorem close_does_not_cancel_attempt options subscriber fuel (m : Manager) (l : Loop)
  (c : nat) (observer : outcome unit) m' e :
  pending m = Some l → pc l = AwaitConnect → connection (st m) = None →
  onConnect options = false ∨ observer = Returned () →
  run options subscriber fuel m [CloseCalled; ConnectResolved c observer] = Some (m', e) →
  isShuttingDown (st m') = true ∧ getState m' = connected ∧ isConnected m' = true
  ∧ getConnection m' = Some c ∧ length (rounds e) = 1%nat ∧ closing m' = closing m.
Proof.
  intros Hp Hpc Hc Hobs H. rewrite !run_cons in H. simpl in H.
  unfold close, finishClose in H. simpl in H. rewrite Hc in H. simpl in H.
  rewrite Hp, Hpc in H. unfold connectResolved in H. simpl in H.
  destruct Hobs as [Ho| ->]; rewrite ?Ho in H.
  all: repeat case_match; simplify_eq/=; done.
Qed.

(** *** Evaluations *)

(** Connected, then [close()]: the connection closes, [close()] settles,
    and a late timer and a late connection change nothing. *)
Lemma no_attempt_after_close_witness :
  let options := withReconnect DEFAULT_RECONNECT in
  let evs := [ConnectionClosed 1; CloseSettled true; SleepElapsed;
              ConnectResolved 2 (Returned ())] in
  ∃ m e0 m' e,
    session options quiet 10 [ConnectResolved 1 (Returned ()); CloseCalled] = Some (m, e0)
    ∧ run options quiet 10 m evs = Some (m', e)
    ∧ attempts e = [] ∧ sleeps e = [] ∧ rounds e = []
    ∧ isShuttingDown (st m') = true ∧ getState m' = disconnected.
Proof.
  intros options evs.
  destruct (session options quiet 10 [ConnectResolved 1 (Returned ()); CloseCalled])
    as [[m e0]|] eqn:H; [|by vm_compute in H].
  assert (isShuttingDown (st m) = true ∧ pending m = None) as [Hs Hp]
    by (vm_compute in H; injection H as <- <-; done).
  destruct (no_attempt_after_close options quiet 10 m evs Hs Hp)
    as (m' & e & E & A & S & R & D & _ & _).
  exists m, e0, m', e. split_and!; try done.
  vm_compute in H. injection H as <- <-. vm_compute in E. by injection E as <- <-.
Defined.

(** Two retries at most.  The connection is lost and the two attempts
    fail: the loop gives up, and a late timer, a late "close" and a late
    connection change nothing. *)
Lemma reconnect_gives_up_for_good_witness :
  let options := withReconnect {| initialDelayMs := 1000; maxDelayMs := 30000;
                                  multiplier := 2; maxRetries := 2 |} in
  let evs0 := [ConnectResolved 1 (Returned ()); ConnectionClosed 1;
               ConnectRejected "down"; SleepElapsed] in
  let evs := [SleepElapsed; ConnectionClosed 1; ConnectResolved 2 (Returned ())] in
  ∃ m e0 m' e,
    session options quiet 10 evs0 = Some (m, e0)
    ∧ run options quiet 10 m (ConnectRejected "still down" :: evs)
      = Some (m', [LogConnectionFailed "still down";
                   LogReconnectionFailed "Failed to connect after 2 attempts: still down"]
                  ++ e)
    ∧ attempts e = [] ∧ sleeps e = [] ∧ rounds e = []
    ∧ getState m' = connecting ∧ isConnected m' = false.
Proof.
  intros options evs0 evs.
  destruct (session options quiet 10 evs0) as [[m e0]|] eqn:H; [|by vm_compute in H].
  assert (isShuttingDown (st m) = false
          ∧ pending m = Some {| delay := 2000; attempt := 2; pc := AwaitConnect;
                                initial := false |}) as [Hs Hp]
    by (vm_compute in H; injection H as <- <-; done).
  assert (CloseCalled ∉ evs) as Hno.
  { unfold evs. rewrite !not_elem_of_cons. split_and!; try done. apply not_elem_of_nil. }
  destruct (reconnect_gives_up_for_good options quiet 10 evs0 m e0 _ "still down" evs
              H Hs Hp eq_refl eq_refl) as (m' & e & E & A & S & R & G & C & _);
    [done|simpl; lia|done|].
  exists m, e0, m', e. by split_and!.
Defined.

(** Connected, lost, connecting again. *)
Lemma metrics_agree_with_state_witness :
  let options := withReconnect DEFAULT_RECONNECT in
  ∃ m e,
    session options quiet 10 [ConnectResolved 1 (Returned ()); ConnectionClosed 1]
    = Some (m, e)
    ∧ getState m = connecting ∧ connectionState (metrics m) = connecting
    ∧ disconnectReturns options
    ∧ getState m = connecting ∧ connectionState (metrics m) = getState m
    ∧ connectionsEstablished (metrics m) = 1 ∧ connectionsLost (metrics m) = 1
    ∧ 0 ≤ connectionsLost (metrics m) ≤ connectionsEstablished (metrics m).
Proof.
  intros options.
  destruct (session options quiet 10 [ConnectResolved 1 (Returned ()); ConnectionClosed 1])
    as [[m e]|] eqn:H; [|by vm_compute in H].
  assert (disconnectReturns options) as Hobs by (by left).
  destruct (metrics_agree_with_state options quiet 10 _ m e H) as (A & B & C).
  specialize (A Hobs).
  exists m, e. split; [done|].
  vm_compute in H. injection H as <- <-.
  split_and!; try exact Hobs; try (by apply A); try apply C; done.
Defined.

Lemma reconnecting_is_never_read_witness :
  let options := withReconnect DEFAULT_RECONNECT in
  ∃ m e,
    session options quiet 10 [ConnectResolved 1 (Returned ()); ConnectionClosed 1]
    = Some (m, e)
    ∧ LogScheduling ∈ e
    ∧ getState m ≠ reconnecting ∧ connectionState (metrics m) ≠ reconnecting.
Proof.
  intros options.
  destruct (session options quiet 10 [ConnectResolved 1 (Returned ()); ConnectionClosed 1])
    as [[m e]|] eqn:H; [|by vm_compute in H].
  destruct (reconnecting_is_never_read options quiet 10 _ m e H) as (A & B).
  exists m, e. split; [done|]. split; [|done].
  vm_compute in H. injection H as <- <-. rewrite !elem_of_cons. auto 10.
Defined.

(** Callbacks 4 and 5 are registered on a connected manager and called
    on the first reconnect; 4 is unsubscribed; the next reconnect calls 5
    only. *)
Lemma unsubscribed_callback_not_called_witness :
  let options := withReconnect DEFAULT_RECONNECT in
  let evs := [ConnectionClosed 2; ConnectResolved 3 (Returned ())] in
  ∃ m e0 m' e,
    session options quiet 10
      [ConnectResolved 1 (Returned ()); OnReconnect 4; OnReconnect 5;
       ConnectionClosed 1; ConnectResolved 2 (Returned ())]
    = Some (m, e0)
    ∧ rounds e0 = [[]; [4; 5]%nat]
    ∧ run options quiet 10 m (Unsubscribe 4 :: evs) = Some (m', e)
    ∧ rounds e = [[5%nat]]
    ∧ invocations 4 e = 0%nat.
Proof.
  intros options evs.
  destruct (session options quiet 10
              [ConnectResolved 1 (Returned ()); OnReconnect 4; OnReconnect 5;
               ConnectionClosed 1; ConnectResolved 2 (Returned ())])
    as [[m e0]|] eqn:H; [|by vm_compute in H].
  destruct (run options quiet 10 m (Unsubscribe 4 :: evs)) as [[m' e]|] eqn:R;
    [|by vm_compute in H; injection H as <- <-; vm_compute in R].
  assert (OnReconnect 4 ∉ evs) as Hno.
  { unfold evs. rewrite !not_elem_of_cons. split_and!; try done. apply not_elem_of_nil. }
  destruct (unsubscribed_callback_not_called options quiet 10 m 4 evs m' e) as [Z _];
    [intros j t; apply not_elem_of_nil|done|done|].
  exists m, e0, m', e. split_and!; try done.
  all: vm_compute in H; injection H as <- <-; try done.
  vm_compute in R. by injection R as <- <-.
Defined.

(** The connection is lost; [close()] is called while the new attempt is
    in flight; the attempt succeeds. *)
Lemma close_does_not_cancel_attempt_witness :
  let options := withReconnect DEFAULT_RECONNECT in
  ∃ m e0 m' e,
    session options quiet 10 [ConnectResolved 1 (Returned ()); ConnectionClosed 1]
    = Some (m, e0)
    ∧ run options quiet 10 m [CloseCalled; ConnectResolved 2 (Returned ())] = Some (m', e)
    ∧ isShuttingDown (st m') = true ∧ isConnected m' = true ∧ getConnection m' = Some 2%nat.
Proof.
  intros options.
  destruct (session options quiet 10 [ConnectResolved 1 (Returned ()); ConnectionClosed 1])
    as [[m e0]|] eqn:H; [|by vm_compute in H].
  destruct (run options quiet 10 m [CloseCalled; ConnectResolved 2 (Returned ())])
    as [[m' e]|] eqn:R; [|by vm_compute in H; injection H as <- <-; vm_compute in R].
  assert (pending m = Some {| delay := 1000; attempt := 1; pc := AwaitConnect;
                              initial := false |} ∧ connection (st m) = None) as [Hp Hc]
    by (vm_compute in H; injection H as <- <-; done).
  destruct (close_does_not_cancel_attempt options quiet 10 m _ 2 (Returned ()) m' e
              Hp eq_refl Hc (or_introl eq_refl) R) as (A & B & C & D & _).
  by exists m, e0, m', e.
Defined.

End ManagerFacts.

(** ** The metrics collector *)
Module MetricsFacts.
Import MetricsCollector.

(** The manager's four fields are written the way the collector writes
    them. *)
Lemma view_commutes (s : MutableMetrics) x n :
  view createMetricsCollector = Connection.createMetricsCollector
  ∧ view (recordConnect s) = Connection.recordConnect (view s)
  ∧ view (recordDisconnect s) = Connection.recordDisconnect (view s)
  ∧ view (setConnectionState x s) = Connection.setConnectionState x (view s)
  ∧ view (setReconnectAttempt n s) = Connection.setReconnectAttempt n (view s).
Proof. done. Qed.

Lemma count_snoc p ops op :
  count p (ops ++ [op]) = count p ops + (if p op then 1 else 0).
Proof.
  unfold count. rewrite List.filter_app, length_app. simpl.
  destruct (p op); simpl; lia.
Qed.

Lemma applyAll_counted ops : ∀ acc s,
  counted acc s →
  counted (foldl (λ acc op, match op with Reset => [] | _ => acc ++ [op] end) acc ops)
    (applyAll ops s).
Proof.
  induction ops as [|op ops IH]; intros acc s H; simpl; [done|].
  apply IH. destruct H as (H1 & H2 & H3 & H4 & H5 & H6).
  destruct op; unfold counted; rewrite ?count_snoc; simpl; split_and!; try done; lia.
Qed.

(** Counters accumulate: after any sequence of calls on a new collector,
    each of the six counters is the number of calls of its kind made since
    the last [reset()]. *)
Theorem counters_accumulate (ops : list Op) :
  let s := getMetrics (applyAll ops createMetricsCollector) in
  connectionsEstablished s = count isRecordConnect (sinceReset ops)
  ∧ connectionsLost s = count isRecordDisconnect (sinceReset ops)
  ∧ messagesPublished s = count isRecordPublish (sinceReset ops)
  ∧ messagesPublishFailed s = count isRecordPublishFailed (sinceReset ops)
  ∧ messagesConsumed s = count isRecordConsume (sinceReset ops)
  ∧ messagesConsumeFailed s = count isRecordConsumeFailed (sinceReset ops).
Proof.
  apply (applyAll_counted ops [] createMetricsCollector). by split_and!.
Qed.

Lemma apply_coherent s op : coherent s → coherent (apply s op).
Proof.
  intros (H1 & H2 & [H3 H3'] & [H4 H4']).
  destruct op; unfold coherent; simpl; split_and!; try done; try lia.
  all: split; intros; try done; try lia.
Qed.

(** The time of the last publish is [null] exactly when the publish
    counter is 0, and likewise for consuming, after any sequence of calls
    on a new collector. *)
Theorem last_time_iff_counted (ops : list Op) :
  let s := getMetrics (applyAll ops createMetricsCollector) in
  (lastPublishAt s = None ↔ messagesPublished s = 0)
  ∧ (lastConsumeAt s = None ↔ messagesConsumed s = 0).
Proof.
  assert (∀ s, coherent s → coherent (applyAll ops s)) as H.
  { induction ops as [|op ops IH]; intros s Hs; simpl; [done|].
    apply IH. by apply apply_coherent. }
  destruct (H createMetricsCollector) as (_ & _ & H3 & H4); [|done].
  unfold coherent. simpl. by split_and!.
Qed.

End MetricsFacts.

(** ** The publisher: creation, counting, closing *)
Module PublisherRestFacts.
Import Js JsFacts Publisher PublisherRest.

(** [createPublisher] resolves only with a publisher that is ready.  With
    no confirm channel (the manager holds no connection, or the broker
    refuses) it is rejected with "Failed to create confirm channel" before
    any call is made.  When [assertExchange] fails it is rejected with
    that error, and the channel it opened is neither closed nor ready. *)
Theorem createPublisher_ready_or_rejected (options : PublisherOptions)
  (m : Connection.Manager) (env : SetupEnv) :
  let '(r, s, t) := (createPublisher options m env).1 in
  match Connection.createConfirmChannel m (confirmChannel env), assertExchange env with
  | None, _ =>
      r = Thrown "Failed to create confirm channel" ∧ t = []
      ∧ channel s = None ∧ isReady_ s = false
  | Some ch, Thrown message =>
      r = Thrown message ∧ channel s = Some ch ∧ isReady_ s = false
      ∧ ChannelClose ch ∉ t
  | Some ch, Returned _ =>
      r = Returned () ∧ channel s = Some ch ∧ isReady_ s = true
      ∧ t = [AssertExchange ch (opt_exchange (withDefaults options))
               (opt_exchangeType (withDefaults options)) (opt_durable (withDefaults options));
             OnClose ch;
             Info ("[burrow:publisher] Ready on exchange "
                   +:+ opt_exchange (withDefaults options))]
  end.
Proof.
  unfold createPublisher, setup, isReady_. js_unfold. simpl.
  destruct (Connection.createConfirmChannel m (confirmChannel env)) as [ch|]; simpl.
  - destruct (assertExchange env) as [[]|message]; simpl.
    all: split_and!; try done.
    all: try (by rewrite bool_decide_eq_true_2).
    all: try (by rewrite list_elem_of_singleton).
  - done.
Qed.

(** Every [publish] that returns a promise is counted once: when the
    promise has settled (at once if the publisher is not ready or the
    broker's call throws, with the confirmation otherwise), exactly one of
    [messagesPublished] and [messagesPublishFailed] has gone up, by one;
    the success counter goes up only for a confirmation without error.
    When the publisher is ready and no buffer can be made of the content,
    [publish] throws before it makes a promise or a call, and counts
    nothing. *)
Theorem publish_counted_once_unless_thrown (options : PublisherOptions)
  (routingKey : string) (content : Content) (broker : outcome unit) (err : option string)
  (now : Z) (s : PublisherState) :
  let s' := publishAndConfirm options routingKey content broker err now s in
  let thrown :=
    isReady_ s && match body content with Returned _ => false | Thrown _ => true end in
  let success :=
    isReady_ s
    && match body content with Returned _ => true | Thrown _ => false end
    && match broker with Returned _ => true | Thrown _ => false end
    && match err with None => true | Some _ => false end in
  messagesPublished s' = messagesPublished s + (if success then 1 else 0)
  ∧ messagesPublishFailed s' = messagesPublishFailed s + (if success || thrown then 0 else 1)
  ∧ lastPublishAt s' = (if success then Some now else lastPublishAt s)
  ∧ channel s' = channel s ∧ isReady s' = isReady s
  ∧ match publish options routingKey content broker s with
    | (Returned _, _, _) => thrown = false
    | (Thrown error, s1, t) => thrown = true ∧ body content = Thrown error ∧ s1 = s ∧ t = []
    end.
Proof.
  unfold publishAndConfirm, publish, confirmed, isReady_. js_unfold.
  destruct (channel s) as [ch|] eqn:Hc, (isReady s) eqn:Hr, (body content) as [buffer|?],
    broker as [[]|?], err as [e|]; simpl; rewrite ?Hc, ?Hr; simpl.
  all: repeat case_bool_decide; simplify_eq/=; split_and!; try done; lia.
Qed.

(** [close()] never throws and leaves the publisher without a channel and
    not ready, whatever closing the channel does; it closes the channel it
    held, once, and none when it held none; the counters are kept. *)
Theorem close_leaves_not_ready (options : PublisherOptions) (env : CloseEnv)
  (s : PublisherState) :
  ∃ s' t,
    close options env s = (Returned (), s', t)
    ∧ channel s' = None ∧ isReady_ s' = false
    ∧ getMetrics s' = getMetrics s
    ∧ List.filter (λ c, match c with ChannelClose _ => true | _ => false end) t
      = match channel s with Some ch => [ChannelClose ch] | None => [] end
    ∧ ∀ routingKey content broker,
        publish options routingKey content broker s'
        = (Returned (Rejected "Publisher not ready"), countFailed s', []).
Proof.
  unfold close, channelClosed, getMetrics, isReady_. js_unfold.
  destruct (channel s) as [ch|] eqn:Hc, (closed env) as [[]|?], (closeEvent env); simpl.
  all: eexists _, _; split; [reflexivity|]; simpl.
  all: split_and!; try done.
Qed.

End PublisherRestFacts.

(** ** The consumer: starting, stopping, closing, handling *)
Module ConsumerRestFacts.
Import Js JsFacts Consumer ConsumerRest Examples.

Ltac units := repeat match goal with a : () |- _ => destruct a end.

(** [start()] on a consumer that holds a channel.  Already active: it
    only warns, makes no call on the broker and changes nothing.  Not
    active: it calls [consume] once; the consumer is active with the tag
    the broker gave, or, when [consume] failed, [start()] is rejected with
    that error and the consumer is as before. *)
Theorem start_consumes_once (options : ConsumerOptions) (m : Connection.Manager)
  (env : SetupEnv) (consumed : outcome string) (s : ConsumerState) (ch : nat) :
  channel s = Some ch →
  start options m env consumed s
  = if isActive s then
      (Returned (), s, [Warn ("[burrow:consumer] Already consuming from " +:+ queue options)])
    else
      match consumed with
      | Returned tag =>
          (Returned (),
           setWasActive true (setActive true (setConsumerTag (Some tag) s)),
           [Consume ch (queue options);
            Info ("[burrow:consumer] Started consuming from " +:+ queue options)])
      | Thrown message => (Thrown message, s, [Consume ch (queue options)])
      end.
Proof.
  intros Hc. unfold start, startConsuming. js_unfold. rewrite Hc. simpl. rewrite Hc.
  destruct (isActive s); [done|]. simpl. rewrite Hc.
  destruct consumed; done.
Qed.

(** What [handleReconnect] does in every case. *)
Lemma handleReconnect_outcome (options : ConsumerOptions) (m : Connection.Manager)
  (env : SetupEnv) (consumed : outcome string) (s : ConsumerState) :
  ∃ s2 t2,
    handleReconnect options m env consumed s = (Returned (), s2, t2)
    ∧ wasActive s2 = toResume env s
    ∧ getMetrics s2 = getMetrics s
    ∧ unsubscribeReconnect s2 = unsubscribeReconnect s
    ∧ (toResume env s = false → consumes t2 = [])
    ∧ (toResume env s = false → isActive s = false → isActive s2 = false).
Proof.
  unfold handleReconnect, setup, startConsuming, channelClosed, Connection.createChannel,
    toResume, getMetrics, consumes.
  js_unfold. destruct s as [chan tg act was n1 n2 lc un]. cbn -[String.append].
  destruct chan as [stale|], (Consumer.closeEvent env); cbn -[String.append].
  all: repeat (case_match; simplify_eq/=); units.
  all: eexists _, _; (split; [reflexivity|]); simpl.
  all: split_and!; intros; simplify_eq/=; try done.
  all: try (by match goal with H : is_Some None |- _ => destruct H end).
  all: try (by match goal with H : ¬ is_Some (Some _) |- _ => destruct H; eexists end).
Qed.

(** [stop()] never throws, whatever [cancel] does, and leaves the
    consumer inactive with no tag and the was-active flag down, keeping
    its channel and counters.  So a stopped consumer is not resumed by a
    later reconnect: [handleReconnect] then makes no [consume] call and
    leaves it inactive. *)
Theorem stopped_consumer_not_resumed (options : ConsumerOptions) (cancelled : outcome unit)
  (s : ConsumerState) :
  ∃ s1 t1,
    stop options cancelled s = (Returned (), s1, t1)
    ∧ isActive s1 = false ∧ wasActive s1 = false ∧ consumerTag s1 = None
    ∧ channel s1 = channel s ∧ getMetrics s1 = getMetrics s
    ∧ ∀ m env consumed, ∃ s2 t2,
        handleReconnect options m env consumed s1 = (Returned (), s2, t2)
        ∧ isActive s2 = false ∧ consumes t2 = [].
Proof.
  assert (∃ t1, stop options cancelled s
                = (Returned (), setWasActive false (setActive false (setConsumerTag None s)),
                   t1)) as [t1 E].
  { unfold stop. js_unfold. destruct (channel s), (consumerTag s) as [tag|];
      try (destruct (bool_decide (tag = ""%string))); try destruct cancelled as [[]|?];
      simpl; eexists; reflexivity. }
  eexists _, t1. split; [exact E|]. split_and!; try done.
  intros m env consumed.
  destruct (handleReconnect_outcome options m env consumed
              (setWasActive false (setActive false (setConsumerTag None s))))
    as (s2 & t2 & E2 & _ & _ & _ & H1 & H2).
  assert (toResume env (setWasActive false (setActive false (setConsumerTag None s))) = false)
    as Hr by (unfold toResume; simpl; by destruct (_ && _)).
  exists s2, t2. split; [done|]. split; [by apply H2|by apply H1].
Qed.

(** [handleReconnect] never throws, and whether the new setup, or the
    new [consume], succeeds or fails, it keeps the counters and leaves the
    was-active flag telling whether the consumer was consuming when its
    channel was lost; it calls [consume] only then.  A later
    [handleReconnect] reads the same from the flag, when the channel it
    finds emits no "close". *)
Theorem handleReconnect_keeps_intent (options : ConsumerOptions) (m : Connection.Manager)
  (env : SetupEnv) (consumed : outcome string) (s : ConsumerState) :
  ∃ s2 t2,
    handleReconnect options m env consumed s = (Returned (), s2, t2)
    ∧ wasActive s2 = toResume env s
    ∧ getMetrics s2 = getMetrics s
    ∧ (toResume env s = false → consumes t2 = [])
    ∧ (∀ env', Consumer.closeEvent env' = false → toResume env' s2 = toResume env s).
Proof.
  destruct (handleReconnect_outcome options m env consumed s)
    as (s2 & t2 & E & H1 & H2 & _ & H3 & _).
  exists s2, t2. split_and!; try done.
  intros env' Hc. unfold toResume at 1. by rewrite Hc.
Qed.

Lemma values_delete_snoc (k : nat) (d : JsSet.SetData) :
  JsSet.has k d = false → JsSet.values (JsSet.delete k (d ++ [Some k])) = JsSet.values d.
Proof.
  intros Hk. rewrite JsSetFacts.values_delete, JsSetFacts.values_snoc, filter_app.
  rewrite filter_cons, decide_False, filter_nil, app_nil_r by naive_solver.
  apply bool_decide_eq_false in Hk.
  induction d as [|[x|] d IH]; simpl; [done| |].
  - rewrite filter_cons. rewrite not_elem_of_cons in Hk. destruct Hk as [Hx Hk].
    rewrite decide_True by congruence. f_equal. by apply IH.
  - rewrite not_elem_of_cons in Hk. destruct Hk as [_ Hk]. by apply IH.
Qed.

(** [close()] of a consumer, in any state in which it is registered on
    the manager.  It never throws, whatever [cancel] and [close] of the
    channel do.  The reconnect callback is unregistered.  The consumer is
    stopped: it is left inactive, with no tag and the was-active flag
    down, and when it held a channel and a tag the outcome of [cancel] is
    logged.  The channel it held is closed, once, and forgotten; the
    counters are kept.  After [createConsumer], the manager's subscribers
    are those it had before the consumer was made. *)
Theorem close_unregisters (options : ConsumerOptions) (m1 : Connection.Manager)
  (cenv : CloseEnv) (s : ConsumerState) (callback : nat) :
  unsubscribeReconnect s = Some callback →
  ∃ s' t' m',
    close options m1 cenv s = ((Returned (), s', t'), m')
    ∧ m' = Connection.unsubscribe callback m1
    ∧ JsSet.has callback (Connection.reconnectSubscribers (Connection.st m')) = false
    ∧ JsSet.values (Connection.reconnectSubscribers (Connection.st m'))
      = filter (λ x, x ≠ callback)
          (JsSet.values (Connection.reconnectSubscribers (Connection.st m1)))
    ∧ channel s' = None ∧ consumerTag s' = None
    ∧ isActive s' = false ∧ wasActive s' = false
    ∧ unsubscribeReconnect s' = None ∧ getMetrics s' = getMetrics s
    ∧ List.filter (λ c, match c with ChannelClose _ => true | _ => false end) t'
      = match channel s with Some ch => [ChannelClose ch] | None => [] end
    ∧ (∀ ch tag, channel s = Some ch → consumerTag s = Some tag → tag ≠ ""%string →
         (match cancelled cenv with
          | Returned _ =>
              Info ("[burrow:consumer] Stopped consuming from " +:+ queue options)
          | Thrown message => Error ("[burrow:consumer] Error stopping: " +:+ message)
          end) ∈ t')
    ∧ (∀ m env t,
         createConsumer options m env callback = ((Returned (), s, t), m1) →
         JsSet.has callback (Connection.reconnectSubscribers (Connection.st m)) = false →
         JsSet.values (Connection.reconnectSubscribers (Connection.st m'))
         = JsSet.values (Connection.reconnectSubscribers (Connection.st m))).
Proof.
  intros Hun.
  assert (∃ s' t',
    (close options m1 cenv s).1 = (Returned (), s', t')
    ∧ channel s' = None ∧ consumerTag s' = None
    ∧ isActive s' = false ∧ wasActive s' = false
    ∧ unsubscribeReconnect s' = None ∧ getMetrics s' = getMetrics s
    ∧ List.filter (λ c, match c with ChannelClose _ => true | _ => false end) t'
      = match channel s with Some ch => [ChannelClose ch] | None => [] end
    ∧ (∀ ch tag, channel s = Some ch → consumerTag s = Some tag → tag ≠ ""%string →
         (match cancelled cenv with
          | Returned _ =>
              Info ("[burrow:consumer] Stopped consuming from " +:+ queue options)
          | Thrown message => Error ("[burrow:consumer] Error stopping: " +:+ message)
          end) ∈ t')) as (s' & t' & E & R).
  { unfold close, stop, channelClosed, getMetrics. js_unfold.
    destruct s as [chan tg act was n1 n2 lc un]. cbn -[String.append].
    destruct chan as [ch|], tg as [tag|]; cbn -[String.append];
      try (case_bool_decide; cbn -[String.append]);
      try (destruct (cancelled cenv) as [[]|?]; cbn -[String.append]).
    all: destruct (closed cenv) as [[]|?], (closeEvent cenv); cbn -[String.append].
    all: eexists _, _; (split; [reflexivity|]); simpl.
    all: split_and!; try done.
    all: intros; simplify_eq/=; rewrite ?elem_of_cons; auto 10. }
  exists s', t', (Connection.unsubscribe callback m1).
  destruct R as (R1 & R2 & R3 & R4 & R5 & R6 & R7 & R8).
  split_and!; try done.
  - unfold close in *. rewrite Hun. simpl in E. by rewrite E.
  - apply ManagerFacts.has_delete_self.
  - apply JsSetFacts.values_delete.
  - intros m env t C Hk. unfold createConsumer in C.
    destruct (setup options m env _) as [[[[]|message] s0] t0]; simplify_eq.
    simpl. unfold JsSet.add. rewrite Hk. by apply values_delete_snoc.
Qed.

(** Every message handled is counted once.  When the handler returns,
    the consumer still holds a channel and [ack] returns, [handleMessage]
    returns, the message is acked once on that channel, nothing is nacked
    and [messagesConsumed] goes up by one.  In every other case
    [messagesConsumeFailed] goes up by one and [messagesConsumed] is kept;
    [handleMessage] then returns when no [onError] callback is given or
    the callback returns, and is rejected with the callback's error, the
    message neither acked again nor nacked, when it throws. *)
Theorem message_counted_once (options : ConsumerOptions) (msg : ConsumeMessage)
  (env : MessageEnv) (meanwhile : ConsumerState → ConsumerState) (now : Z)
  (s : ConsumerState) :
  is_Some (channel s) →
  ∃ r s1 t1,
    handleMessage options (Some msg) env meanwhile now s = (r, s1, t1)
    ∧ match onMessage env, channel (meanwhile s), acked env with
      | Returned _, Some ch, Returned _ =>
          r = Returned ()
          ∧ acknowledgements t1 = [Ack ch msg]
          ∧ messagesConsumed s1 = messagesConsumed (meanwhile s) + 1
          ∧ messagesConsumeFailed s1 = messagesConsumeFailed (meanwhile s)
          ∧ lastConsumeAt s1 = Some now
      | _, _, _ =>
          messagesConsumed s1 = messagesConsumed (meanwhile s)
          ∧ messagesConsumeFailed s1 = messagesConsumeFailed (meanwhile s) + 1
          ∧ lastConsumeAt s1 = lastConsumeAt (meanwhile s)
          ∧ r = (if onError options then onErrored env else Returned ())
          ∧ (∀ message, r = Thrown message →
               List.filter (λ c, match c with Nack _ _ _ _ => true | _ => false end) t1 = [])
      end.
Proof.
  intros [ch0 Hc]. unfold handleMessage, channelOrTypeError. js_unfold.
  rewrite Hc. cbn -[String.append].
  destruct (onMessage env) as [[]|?], (channel (meanwhile s)) as [ch|] eqn:Hm,
    (acked env) as [[]|?]; cbn -[String.append]; rewrite ?Hm; cbn -[String.append].
  all: destruct (onError options); [destruct (onErrored env) as [[]|?]|];
    cbn -[String.append]; rewrite ?Hm; cbn -[String.append].
  all: repeat (case_match; simplify_eq/=); units.
  all: eexists _, _, _; (split; [reflexivity|]); done.
Qed.

(** When the handler returned but [ack] throws, the message is treated as
    failed: the error goes to [onError] (or the log) and, when that
    returns, the message is nacked on the same channel with
    [requeue = !redelivered], although the handler has processed it. *)
Theorem ack_failure_nacks (options : ConsumerOptions) (msg : ConsumeMessage)
  (env : MessageEnv) (now : Z) (s : ConsumerState) (ch : nat) (message : string) :
  channel s = Some ch →
  onMessage env = Returned () →
  acked env = Thrown message →
  onError options = false ∨ onErrored env = Returned () →
  ∃ s1 t1,
    handleMessage options (Some msg) env id now s = (Returned (), s1, t1)
    ∧ acknowledgements t1 = [Ack ch msg; Nack ch msg false (negb (redelivered msg))]
    ∧ (if onError options then OnError message msg
       else Error ("[burrow:consumer] Message processing failed: " +:+ message)) ∈ t1
    ∧ messagesConsumeFailed s1 = messagesConsumeFailed s + 1
    ∧ messagesConsumed s1 = messagesConsumed s.
Proof.
  intros Hc Hm Ha Hobs. unfold handleMessage, channelOrTypeError. js_unfold.
  destruct s as [chan tg act was n1 n2 lc un]. simpl in Hc. subst chan.
  rewrite Hm, Ha. cbn -[String.append].
  destruct (onError options) eqn:Ho; [destruct Hobs as [?|Ho']; [done|rewrite Ho']|].
  all: destruct (nacked env) as [[]|?]; cbn -[String.append].
  all: eexists _, _; (split; [reflexivity|]); split_and!; try done.
  all: rewrite !elem_of_cons; auto 10.
Qed.

(** [createConsumer] that fails registers nothing: when [setup] throws
    (in particular "Failed to create channel", before any call on a
    channel, when the manager gives no channel), [createConsumer] is
    rejected with that error and the manager is as it was. *)
Theorem createConsumer_rejected_registers_nothing (options : ConsumerOptions)
  (m : Connection.Manager) (env : SetupEnv) (callback : nat) :
  (∀ message s t m',
     createConsumer options m env callback = ((Thrown message, s, t), m') →
     m' = m ∧ unsubscribeReconnect s = None)
  ∧ (Connection.createChannel m (newChannel env) = None →
     ∃ s, createConsumer options m env callback
          = ((Thrown "Failed to create channel", s, []), m)).
Proof.
  split.
  - intros message s t m'. unfold createConsumer.
    destruct (setup options m env _) as [[[[]|message'] s0] t0] eqn:Hsetup; [done|].
    intros ?; simplify_eq. split; [done|].
    revert Hsetup. unfold setup. js_unfold. cbn -[String.append].
    repeat (case_match; simplify_eq/=); intros; simplify_eq/=; done.
  - intros Hn. unfold createConsumer, setup. js_unfold. cbn -[String.append].
    rewrite Hn. cbn. by eexists.
Qed.

(** *** Evaluations *)

(** [start()], and [start()] again. *)
Lemma start_consumes_once_witness :
  let m := (Connection.createConnection (Connection.withReconnect Connection.DEFAULT_RECONNECT)).1 in
  ∃ s1,
    start jobs m brokerAccepts (Returned "tag-1"%string) idleConsumer
    = (Returned (), s1,
       [Consume 3 "jobs"; Info "[burrow:consumer] Started consuming from jobs"])
    ∧ isActive s1 = true ∧ consumerTag s1 = Some "tag-1"%string
    ∧ start jobs m brokerAccepts (Returned "tag-2"%string) s1
      = (Returned (), s1, [Warn "[burrow:consumer] Already consuming from jobs"]).
Proof.
  intros m.
  exists (setWasActive true (setActive true (setConsumerTag (Some "tag-1"%string)
            idleConsumer))).
  split; [|split; [|split]].
  - by rewrite (start_consumes_once jobs m brokerAccepts (Returned "tag-1"%string)
                  idleConsumer 3).
  - reflexivity.
  - reflexivity.
  - by rewrite (start_consumes_once jobs m brokerAccepts (Returned "tag-2"%string) _ 3).
Defined.

(** A consumer is made on a connected manager, started, and closed. *)
Lemma close_unregisters_witness :
  let options := Connection.withReconnect Connection.DEFAULT_RECONNECT in
  let cenv := {| cancelled := Returned (); closed := Thrown "already closed";
                 closeEvent := false |} in
  ∃ m e s t m1 s1 t1 s' t' m',
    Connection.session options Connection.quiet 10
      [Connection.ConnectResolved 1 (Returned ()); Connection.OnReconnect 9] = Some (m, e)
    ∧ createConsumer jobs m brokerAccepts 4%nat = ((Returned (), s, t), m1)
    ∧ JsSet.values (Connection.reconnectSubscribers (Connection.st m1)) = [9; 4]%nat
    ∧ start jobs m1 brokerAccepts (Returned "tag-1"%string) s = (Returned (), s1, t1)
    ∧ isActive s1 = true
    ∧ close jobs m1 cenv s1 = ((Returned (), s', t'), m')
    ∧ JsSet.values (Connection.reconnectSubscribers (Connection.st m')) = [9%nat]
    ∧ t' = [Info "[burrow:consumer] Stopped consuming from jobs"; ChannelClose 3]
    ∧ channel s' = None ∧ isActive s' = false.
Proof.
  intros options cenv.
  destruct (Connection.session options Connection.quiet 10
              [Connection.ConnectResolved 1 (Returned ()); Connection.OnReconnect 9])
    as [[m e]|] eqn:H; [|by vm_compute in H].
  destruct (createConsumer jobs m brokerAccepts 4%nat) as [[[r s] t] m1] eqn:C.
  destruct (start jobs m1 brokerAccepts (Returned "tag-1"%string) s) as [[r1 s1] t1] eqn:S.
  assert (r = Returned () ∧ r1 = Returned ()
          ∧ JsSet.values (Connection.reconnectSubscribers (Connection.st m1)) = [9; 4]%nat
          ∧ isActive s1 = true
          ∧ unsubscribeReconnect s1 = Some 4%nat)
    as (-> & -> & Hv1 & Ha & Hun).
  { vm_compute in H. injection H as <- <-. vm_compute in C. injection C as <- <- <- <-.
    vm_compute in S. injection S as <- <- <-. done. }
  destruct (close_unregisters jobs m1 cenv s1 4 Hun)
    as (s' & t' & m' & E & M & _ & V & Hc' & _ & Ha' & _).
  exists m, e, s, t, m1, s1, t1, s', t', m'. split_and!; try done.
  - rewrite V, Hv1. done.
  - vm_compute in H. injection H as <- <-. vm_compute in C. injection C as <- <- <-.
    vm_compute in S. injection S as <- <-. vm_compute in E. by injection E as <- <- <-.
Defined.

(** A message is handled and acked. *)
Lemma message_counted_once_witness :
  let ok := {| onMessage := Returned (); acked := Returned (); onErrored := Returned ();
               nacked := Returned () |} in
  ∃ s1 t1,
    handleMessage jobs (Some userCreated) ok id 1700 idleConsumer = (Returned (), s1, t1)
    ∧ acknowledgements t1 = [Ack 3 userCreated]
    ∧ messagesConsumed s1 = 1 ∧ messagesConsumeFailed s1 = 0
    ∧ lastConsumeAt s1 = Some 1700.
Proof.
  intros ok.
  destruct (message_counted_once jobs userCreated ok id 1700 idleConsumer)
    as (r & s1 & t1 & E & H); [by eexists|].
  unfold ok in H. simpl in H. destruct H as (-> & A & B & C & D).
  exists s1, t1. by split_and!.
Defined.

(** The handler returned, [ack] throws: the message is nacked. *)
Lemma ack_failure_nacks_witness :
  let env := {| onMessage := Returned (); acked := Thrown "channel gone";
                onErrored := Returned (); nacked := Returned () |} in
  ∃ s1 t1,
    handleMessage jobs (Some userCreated) env id 1700 idleConsumer = (Returned (), s1, t1)
    ∧ acknowledgements t1 = [Ack 3 userCreated; Nack 3 userCreated false true]
    ∧ Error "[burrow:consumer] Message processing failed: channel gone" ∈ t1
    ∧ messagesConsumeFailed s1 = 1 ∧ messagesConsumed s1 = 0.
Proof.
  intros env.
  exact (ack_failure_nacks jobs userCreated env 1700 idleConsumer 3 "channel gone"
           eq_refl eq_refl eq_refl (or_introl eq_refl)).
Defined.

End ConsumerRestFacts.

(** ** The bridge: starting and stopping *)
Module BridgeRestFacts.
Import Js JsFacts Bridge BridgeRest Examples.

Lemma consumes_app t1 t2 : consumes (t1 ++ t2) = consumes t1 ++ consumes t2.
Proof. unfold consumes. apply List.filter_app. Qed.

Section Loop.
Variable options : BridgeOptions.
Variable env : StartEnv.

(** The loop over the exchanges when all goes well: one [consume] per
    exchange, in order, on the queue named after it, and one tag each. *)
Lemma consumeAll_cooperative exchanges : ∀ i s cc pc,
  consumerChannel s = Some cc → producerChannel s = Some pc →
  cooperative env i (i + length exchanges) →
  ∃ t,
    consumeAll options env i exchanges s
    = (Returned (),
       setConsumerTags
         (consumerTags s
          ++ omap (λ p, match consumed env p with
                        | Returned tag => Some tag | Thrown _ => None end)
               (seq i (length exchanges))) s,
       t)
    ∧ consumes t = queuesOf options cc exchanges.
Proof.
  induction exchanges as [|exchange exchanges IH]; intros i s cc pc Hc Hp Hco.
  - simpl. exists []. rewrite app_nil_r. by destruct s.
  - destruct (Hco i) as (H1 & H2 & H3 & tag & H4); [simpl; lia|].
    destruct (IH (S i) (setConsumerTags (consumerTags s ++ [tag]) s) cc pc) as (t & E & Ht);
      [done|done|intros p Hp'; apply Hco; simpl; lia|].
    cbn [consumeAll]. unfold consumerChannelOrTypeError, producerChannelOrTypeError.
    js_unfold. rewrite Hc, Hp, H1, H2, H3, H4. cbn -[String.append consumeAll].
    rewrite Hc. cbn -[String.append consumeAll].
    destruct (queueAsserted env i) as [[]|message]; cbn -[String.append consumeAll];
      rewrite ?Hc; cbn -[String.append consumeAll]; rewrite E; cbn -[String.append].
    all: eexists; split;
      [rewrite H4; cbn; rewrite <- app_assoc; reflexivity|].
    all: unfold consumes in *; cbn -[String.append]; rewrite Ht; reflexivity.
Qed.

End Loop.

Lemma tags_length (env : StartEnv) (exchanges : list string) : ∀ i,
  cooperative env i (i + length exchanges) →
  length (omap (λ p, match consumed env p with
                     | Returned tag => Some tag | Thrown _ => None end)
            (seq i (length exchanges))) = length exchanges.
Proof.
  induction exchanges as [|x l IH]; intros i Hco; simpl; [done|].
  destruct (Hco i) as (_ & _ & _ & tag & ->); [simpl; lia|]. simpl. f_equal.
  apply IH. intros p Hp. apply Hco. simpl. lia.
Qed.

(** [start()] when both connections are up and the broker accepts every
    call (a failed [assertQueue] is only a warning): it returns [true],
    or, when an [onStart] observer is given and throws, is rejected with
    the observer's error.  Either way the bridge is running on the
    channels it held or on new ones, it has called [consume] once per
    exchange, in order, on the queue named prefix + exchange, and
    [consumerTags] are the tags of these calls.  [start()] does not look
    at [isRunning]: on a running bridge it consumes from every queue once
    more and forgets the earlier tags. *)
Theorem start_consumes_every_exchange (options : BridgeOptions)
  (source target : Connection.Manager) (env : StartEnv) (s : BridgeInternalState)
  (cc pc : nat) :
  Connection.isConnected source = true → Connection.isConnected target = true →
  channelsFor source target env s = (Some cc, Some pc) →
  prefetched env = Returned () →
  cooperative env 0 (length (exchanges options)) →
  ∃ r s' t,
    start options source target env s = (r, s', t)
    ∧ r = (if onStart options
           then match started env with
                | Returned _ => Returned true
                | Thrown message => Thrown message
                end
           else Returned true)
    ∧ isRunning s' = true
    ∧ consumerChannel s' = Some cc ∧ producerChannel s' = Some pc
    ∧ consumerTags s' = tagsOf env (exchanges options)
    ∧ length (consumerTags s') = length (exchanges options)
    ∧ consumes t = queuesOf options cc (exchanges options)
    ∧ metrics s' = metrics s.
Proof.
  intros Hs Ht Hch Hpre Hco. unfold start, channelsFor in *. rewrite Hs, Ht. simpl.
  set (s1 := setConsumerTags [] (setProducerChannel (Some pc) (setConsumerChannel (Some cc) s))).
  destruct (consumeAll_cooperative options env (exchanges options) 0 s1 cc pc)
    as (t & E & Hq); [done..|].
  pose proof (tags_length env (exchanges options) 0 Hco) as Hlen.
  unfold consumerChannelOrTypeError. js_unfold.
  destruct s as [c0 p0 r0 tags0 m0 e0 l0]. simpl in *.
  destruct c0 as [c0|], p0 as [p0|]; simplify_eq/=; rewrite ?Hch; simpl.
  all: repeat match goal with H : _ = Some _ |- _ => rewrite H; simpl end.
  all: rewrite Hpre; simpl.
  all: unfold s1, setConsumerTags, setProducerChannel, setConsumerChannel in E; simpl in E.
  all: unfold setConsumerTags, setProducerChannel, setConsumerChannel; simpl.
  all: rewrite E; simpl.
  all: destruct (onStart options); [destruct (started env) as [[]|?]|]; simpl.
  all: eexists _, _, _; (split; [reflexivity|]); simpl.
  all: split_and!; try done.
  all: unfold consumes in *; simpl.
  all: by rewrite ?List.filter_app, Hq, ?app_nil_r.
Qed.

(** The loop over the exchanges when a call fails for the exchange after
    [pre]: the exchanges of [pre] are consumed from and their tags kept. *)
Lemma consumeAll_fails (options : BridgeOptions) (env : StartEnv) pre :
  ∀ i s cc pc exchange post message,
  consumerChannel s = Some cc → producerChannel s = Some pc →
  cooperative env i (i + length pre) →
  failsAt env (i + length pre) message →
  ∃ t rest,
    consumeAll options env i (pre ++ exchange :: post) s
    = (Thrown message,
       setConsumerTags
         (consumerTags s
          ++ omap (λ p, match consumed env p with
                        | Returned tag => Some tag | Thrown _ => None end)
               (seq i (length pre))) s,
       t)
    ∧ consumes t = queuesOf options cc pre ++ rest.
Proof.
  induction pre as [|x pre IH]; intros i s cc pc exchange post message Hc Hp Hco Hf.
  - simpl in *. rewrite Nat.add_0_r in Hf. rewrite app_nil_r.
    unfold consumerChannelOrTypeError, producerChannelOrTypeError. js_unfold.
    rewrite Hc, Hp. cbn -[String.append consumeAll].
    destruct Hf as [H1|[[H1 H2]|[(H1 & H2 & H3)|(H1 & H2 & H3 & H4)]]].
    all: rewrite ?H1, ?H2; cbn -[String.append consumeAll];
      rewrite ?Hc; cbn -[String.append consumeAll].
    all: try (destruct (queueAsserted env i) as [[]|?]; cbn -[String.append consumeAll];
              rewrite ?Hc, ?H3; cbn -[String.append consumeAll];
              rewrite ?Hc, ?H4; cbn -[String.append consumeAll]).
    all: destruct s; eexists _, _; split; [reflexivity|]; simpl; reflexivity.
  - destruct (Hco i) as (H1 & H2 & H3 & tag & H4); [simpl; lia|].
    destruct (IH (S i) (setConsumerTags (consumerTags s ++ [tag]) s) cc pc exchange post
                message) as (t & rest & E & Ht);
      [done|done|intros p Hp'; apply Hco; simpl; lia
      |by replace (S i + length pre)%nat with (i + length (x :: pre))%nat by (simpl; lia)|].
    cbn [consumeAll app]. unfold consumerChannelOrTypeError, producerChannelOrTypeError.
    js_unfold. rewrite Hc, Hp, H1, H2, H3, H4. cbn -[String.append consumeAll].
    rewrite Hc. cbn -[String.append consumeAll].
    destruct (queueAsserted env i) as [[]|?]; cbn -[String.append consumeAll];
      rewrite ?Hc; cbn -[String.append consumeAll]; rewrite E; cbn -[String.append].
    all: eexists _, rest; split;
      [rewrite H4; cbn; rewrite <- app_assoc; reflexivity|].
    all: unfold consumes in *; cbn -[String.append]; rewrite Ht; reflexivity.
Qed.

(** [start()] that fails part of the way leaves the bridge consuming
    without running.  When a call fails for one exchange (other than
    [assertQueue]) after all went well for the exchanges before it,
    [start()] is rejected with that error, [isRunning()] is as before, so
    [false] on a bridge that was not running, and yet the bridge holds
    both channels and consumes from the queues of the exchanges before,
    with their tags in [consumerTags]. *)
Theorem start_fails_part_way (options : BridgeOptions)
  (source target : Connection.Manager) (env : StartEnv) (s : BridgeInternalState)
  (cc pc : nat) (pre : list string) (exchange : string) (post : list string)
  (message : string) :
  Connection.isConnected source = true → Connection.isConnected target = true →
  channelsFor source target env s = (Some cc, Some pc) →
  prefetched env = Returned () →
  exchanges options = pre ++ exchange :: post →
  cooperative env 0 (length pre) →
  failsAt env (length pre) message →
  ∃ s' t rest,
    start options source target env s = (Thrown message, s', t)
    ∧ isRunning s' = isRunning s
    ∧ consumerChannel s' = Some cc ∧ producerChannel s' = Some pc
    ∧ consumerTags s' = tagsOf env pre
    ∧ length (consumerTags s') = length pre
    ∧ consumes t = queuesOf options cc pre ++ rest.
Proof.
  intros Hs Ht Hch Hpre Hex Hco Hf. unfold start, channelsFor in *. rewrite Hs, Ht, Hex.
  simpl.
  set (s1 := setConsumerTags [] (setProducerChannel (Some pc) (setConsumerChannel (Some cc) s))).
  destruct (consumeAll_fails options env pre 0 s1 cc pc exchange post message)
    as (t & rest & E & Hq); [done..|].
  pose proof (tags_length env pre 0 Hco) as Hlen.
  unfold consumerChannelOrTypeError. js_unfold.
  destruct s as [c0 p0 r0 tags0 m0 e0 l0]. simpl in *.
  destruct c0 as [c0|], p0 as [p0|]; simplify_eq/=; rewrite ?Hch; simpl.
  all: repeat match goal with H : _ = Some _ |- _ => rewrite H; simpl end.
  all: rewrite Hpre; simpl.
  all: unfold s1, setConsumerTags, setProducerChannel, setConsumerChannel in E; simpl in E.
  all: unfold setConsumerTags, setProducerChannel, setConsumerChannel; simpl.
  all: rewrite E; simpl.
  all: eexists _, _, rest; (split; [reflexivity|]); simpl.
  all: split_and!; try done.
Qed.

Lemma cancelAll_returns (env : StopEnv) tags : ∀ i s,
  cancelAll env i tags s = (Returned (), s, []).
Proof.
  induction tags as [|tag tags IH]; intros i s; [done|].
  cbn [cancelAll]. js_unfold.
  destruct (consumerChannel s); [destruct (cancelled env i) as [[]|?]|]; simpl;
    by rewrite IH.
Qed.

(** [stop()], whatever [cancel] and [close] do, leaves the bridge without
    channels, without tags and not running, with its metrics kept; it
    closes each channel it held, once, the consumer's first.  It returns,
    or, when an [onStop] observer is given and throws, is rejected with
    the observer's error, the bridge stopped all the same. *)
Theorem stop_resets (options : BridgeOptions) (env : StopEnv) (s : BridgeInternalState) :
  ∃ t,
    stop options env s
    = (if onStop options then stopped env else Returned (),
       {| consumerChannel := None; producerChannel := None; isRunning := false;
          consumerTags := []; metrics := metrics s;
          errorLogCount := errorLogCount s; lastErrorLogReset := lastErrorLogReset s |},
       t)
    ∧ List.filter (λ c, match c with ChannelClose _ => true | _ => false end) t
      = match consumerChannel s with Some cc => [ChannelClose cc] | None => [] end
        ++ match producerChannel s with Some pc => [ChannelClose pc] | None => [] end.
Proof.
  unfold stop. js_unfold. rewrite cancelAll_returns.
  destruct s as [[cc|] [pc|] r0 tags0 m0 e0 l0],
    (consumerClosed env) as [[]|?], (producerClosed env) as [[]|?]; simpl.
  all: destruct (onStop options); [destruct (stopped env) as [[]|?]|]; simpl.
  all: eexists; split; reflexivity.
Qed.

(** *** Forwarding *)

(** A message that is forwarded and acked: it is published once, on the
    producer channel, to the exchange it came from, with its routing key
    and body, as persistent exactly when the delivery mode is 2; it is
    acked once on the consumer channel and not nacked;
    [messagesForwarded] goes up by one and [messagesFailed] is kept. *)
Theorem message_forwarded (options : BridgeOptions) (msg : ConsumeMessage)
  (exchange : string) (env : MessageEnv)
  (meanwhile : BridgeInternalState → BridgeInternalState) (s : BridgeInternalState)
  (cc pc : nat) :
  consumerChannel s = Some cc → producerChannel s = Some pc →
  forwarded env = Returned () → acked env = Returned () →
  ∃ s1 t1,
    handleMessage options (Some msg) exchange env meanwhile s = (Returned (), s1, t1)
    ∧ publishes t1
      = [Publish pc exchange (routingKey msg) (content msg) "application/json"
           (opt_deliveryMode options) (bool_decide (opt_deliveryMode options = 2))]
    ∧ acknowledgements t1 = [Ack cc msg]
    ∧ messagesForwarded (metrics s1) = messagesForwarded (metrics (meanwhile s)) + 1
    ∧ messagesFailed (metrics s1) = messagesFailed (metrics (meanwhile s))
    ∧ lastMessageAt (metrics s1) = Some (date env).
Proof.
  intros Hc Hp Hf Ha. unfold handleMessage, forwardMessage, logForwarded. js_unfold.
  rewrite Hc, Hp, Hf, Ha. cbn -[String.append showZ].
  destruct (bool_decide (opt_logEveryNMessages options > 0) && _);
    cbn -[String.append showZ].
  all: eexists _, _; (split; [reflexivity|]); done.
Qed.

(** The limiter only counts and may log a summary: it returns, makes no
    call on a channel and keeps the metrics. *)
Lemma shouldLogError_quiet now s :
  ∃ b s1 t1, shouldLogError now s = (Returned b, s1, t1)
    ∧ acknowledgements t1 = [] ∧ publishes t1 = [] ∧ metrics s1 = metrics s.
Proof.
  unfold shouldLogError. js_unfold. repeat case_match; simplify_eq; eauto 10.
Qed.

(** When the forward succeeded but [ack] throws (with an error that does
    not say the channel is closed), the message, already published to the
    target, is counted both as forwarded and as failed and is nacked on
    the consumer channel with [requeue = !redelivered]. *)
Theorem forwarded_then_ack_fails (options : BridgeOptions) (msg : ConsumeMessage)
  (exchange : string) (env : MessageEnv) (s : BridgeInternalState) (cc pc : nat)
  (message : string) :
  consumerChannel s = Some cc → producerChannel s = Some pc →
  forwarded env = Returned () → acked env = Thrown message →
  includes "Channel closed" message || includes "channel closed" message = false →
  ∃ s1 t1,
    handleMessage options (Some msg) exchange env id s = (Returned (), s1, t1)
    ∧ length (publishes t1) = 1%nat
    ∧ acknowledgements t1 = [Ack cc msg; Nack cc msg false (negb (redelivered msg))]
    ∧ messagesForwarded (metrics s1) = messagesForwarded (metrics s) + 1
    ∧ messagesFailed (metrics s1) = messagesFailed (metrics s) + 1.
Proof.
  intros Hc Hp Hf Ha Hi. unfold handleMessage, forwardMessage, logForwarded.
  js_unfold. rewrite Hc, Hp, Hf, Ha. cbn -[String.append showZ shouldLogError].
  destruct (bool_decide (opt_logEveryNMessages options > 0) && _);
    cbn -[String.append showZ shouldLogError]; rewrite Hi;
    cbn -[String.append showZ shouldLogError].
  all: match goal with |- context [shouldLogError ?n ?x] =>
         destruct (shouldLogError_quiet n x) as (b1 & x1 & u1 & -> & A1 & P1 & M1) end.
  all: cbn -[String.append showZ shouldLogError].
  all: destruct b1, (nacked env) as [[]|?], (redelivered msg);
    cbn -[String.append showZ shouldLogError].
  all: try match goal with |- context [shouldLogError ?n ?x] =>
         destruct (shouldLogError_quiet n x) as (b2 & x2 & u2 & -> & A2 & P2 & M2) end.
  all: cbn -[String.append showZ shouldLogError]; try destruct b2;
    cbn -[String.append showZ shouldLogError].
  all: eexists _, _; (split; [reflexivity|]).
  all: unfold publishes, acknowledgements in *; cbn -[String.append showZ].
  all: rewrite ?List.filter_app, ?A1, ?P1, ?A2, ?P2; cbn -[String.append showZ].
  all: rewrite ?List.filter_app, ?A1, ?P1, ?A2, ?P2; cbn -[String.append showZ].
  all: rewrite ?M2, ?M1; simpl; done.
Qed.

Lemma multiple_step (c n : Z) :
  0 ≤ c → 0 < n →
  (c + 1) / n - c / n = if bool_decide (Z.rem (c + 1) n = 0) then 1 else 0.
Proof.
  intros Hc Hn. rewrite Z.rem_mod_nonneg by lia.
  case_bool_decide as E; Z.to_euclidean_division_equations; nia.
Qed.

Lemma infos_app t1 t2 : infos (t1 ++ t2) = infos t1 ++ infos t2.
Proof. unfold infos. apply List.filter_app. Qed.

(** Progress is logged every [logEveryNMessages] messages: over any run
    of forwarded messages, the "Forwarded ..." line is written once each
    time the counter reaches a multiple of that number, and never when
    the number is 0 or less; every message is counted. *)
Theorem progress_logged_every_n (options : BridgeOptions)
  (messages : list (string * string * Z)) (s : BridgeInternalState) :
  0 ≤ messagesForwarded (metrics s) →
  ∃ s' t,
    logForwardedAll options messages s = (Returned (), s', t)
    ∧ messagesForwarded (metrics s')
      = messagesForwarded (metrics s) + Z.of_nat (length messages)
    ∧ messagesFailed (metrics s') = messagesFailed (metrics s)
    ∧ Z.of_nat (length (infos t))
      = if bool_decide (opt_logEveryNMessages options > 0)
        then messagesForwarded (metrics s') / opt_logEveryNMessages options
             - messagesForwarded (metrics s) / opt_logEveryNMessages options
        else 0.
Proof.
  revert s. induction messages as [|[[exchange routingKey] date] messages IH]; intros s Hc.
  - exists s, []. simpl. split_and!; try done; try lia.
    case_bool_decide; lia.
  - cbn [logForwardedAll]. unfold logForwarded. js_unfold. cbn -[String.append showZ].
    set (s1 := setMetrics _ s).
    destruct (IH s1) as (s' & t & E & F & G & I); [simpl; lia|].
    simpl in F, G.
    destruct (bool_decide (opt_logEveryNMessages options > 0)) eqn:Hn;
      cbn -[String.append showZ].
    + apply bool_decide_eq_true_1 in Hn.
      pose proof (multiple_step (messagesForwarded (metrics s))
                    (opt_logEveryNMessages options) Hc ltac:(lia)) as Hstep.
      destruct (bool_decide (Z.rem _ _ = 0)); cbn -[String.append showZ]; rewrite E.
      all: eexists _, _; (split; [reflexivity|]).
      all: split_and!; try done; try lia.
      all: unfold infos in *; cbn -[String.append showZ]; simpl length; simpl in I; lia.
    + rewrite E. eexists _, _; (split; [reflexivity|]).
      split_and!; try done; lia.
Qed.

(** *** Evaluations *)

(** A new bridge is started between two connected managers. *)
Lemma start_consumes_every_exchange_witness :
  let options := Connection.withReconnect Connection.DEFAULT_RECONNECT in
  ∃ m e s' t,
    Connection.session options Connection.quiet 10 [Connection.ConnectResolved 7 (Returned ())]
    = Some (m, e)
    ∧ start twoExchanges m m startAccepted newBridge = (Returned true, s', t)
    ∧ isRunning s' = true
    ∧ consumerChannel s' = Some 1%nat ∧ producerChannel s' = Some 2%nat
    ∧ consumerTags s' = ["tag-0"; "tag-n"]%string
    ∧ consumes t = [Consume 1 "bridge_events"; Consume 1 "bridge_audit"].
Proof.
  intros options.
  destruct (Connection.session options Connection.quiet 10
              [Connection.ConnectResolved 7 (Returned ())]) as [[m e]|] eqn:H;
    [|by vm_compute in H].
  assert (Connection.isConnected m = true
          ∧ channelsFor m m startAccepted newBridge = (Some 1%nat, Some 2%nat)) as [Hc Hch]
    by (vm_compute in H; injection H as <- <-; done).
  destruct (start_consumes_every_exchange twoExchanges m m startAccepted newBridge 1 2
              Hc Hc Hch eq_refl) as (r & s' & t & E & -> & R & C & P & T & _ & Q & _).
  { intros p Hp. split_and!; try done. by eexists. }
  by exists m, e, s', t.
Defined.

(** As before, but [consume] fails for the second exchange. *)
Lemma start_fails_part_way_witness :
  let options := Connection.withReconnect Connection.DEFAULT_RECONNECT in
  ∃ m e s' t,
    Connection.session options Connection.quiet 10 [Connection.ConnectResolved 7 (Returned ())]
    = Some (m, e)
    ∧ start twoExchanges m m secondConsumeFails newBridge = (Thrown "access refused", s', t)
    ∧ isRunning s' = false
    ∧ consumerChannel s' = Some 1%nat ∧ producerChannel s' = Some 2%nat
    ∧ consumerTags s' = ["tag-0"%string]
    ∧ Consume 1 "bridge_events" ∈ t.
Proof.
  intros options.
  destruct (Connection.session options Connection.quiet 10
              [Connection.ConnectResolved 7 (Returned ())]) as [[m e]|] eqn:H;
    [|by vm_compute in H].
  assert (Connection.isConnected m = true
          ∧ channelsFor m m secondConsumeFails newBridge = (Some 1%nat, Some 2%nat))
    as [Hc Hch] by (vm_compute in H; injection H as <- <-; done).
  destruct (start_fails_part_way twoExchanges m m secondConsumeFails newBridge 1 2
              ["events"%string] "audit" [] "access refused" Hc Hc Hch eq_refl eq_refl)
    as (s' & t & rest & E & R & C & P & T & _ & Q).
  { intros p Hp. assert (p = 0%nat) as -> by (simpl in Hp; lia).
    split_and!; try done. by eexists. }
  { right. right. right. by split_and!. }
  exists m, e, s', t. split_and!; try done.
  assert (Consume 1 "bridge_events" ∈ consumes t) as Hin by (rewrite Q; left).
  unfold consumes in Hin. apply list_elem_of_In, List.filter_In in Hin as [Hin _].
  by apply list_elem_of_In.
Defined.

(** A message is forwarded and acked. *)
Lemma message_forwarded_witness :
  let env := {| forwarded := Returned (); acked := Returned (); nacked := Returned ();
                date := 1700; now1 := 1700; now2 := 1700 |} in
  ∃ s1 t1,
    handleMessage twoExchanges (Some userCreated) "events" env id runningBridge
    = (Returned (), s1, t1)
    ∧ publishes t1 = [Publish 2 "events" "user.created" "{}" "application/json" 2 true]
    ∧ acknowledgements t1 = [Ack 1 userCreated]
    ∧ messagesForwarded (metrics s1) = 1 ∧ messagesFailed (metrics s1) = 0.
Proof.
  intros env.
  destruct (message_forwarded twoExchanges userCreated "events" env id runningBridge 1 2
              eq_refl eq_refl eq_refl eq_refl) as (s1 & t1 & E & P & A & F & G & _).
  by exists s1, t1.
Defined.

(** A message is forwarded, and [ack] throws. *)
Lemma forwarded_then_ack_fails_witness :
  let env := {| forwarded := Returned (); acked := Thrown "ack failed";
                nacked := Returned (); date := 1700; now1 := 1700; now2 := 1700 |} in
  ∃ s1 t1,
    handleMessage twoExchanges (Some userCreated) "events" env id runningBridge
    = (Returned (), s1, t1)
    ∧ acknowledgements t1 = [Ack 1 userCreated; Nack 1 userCreated false true]
    ∧ messagesForwarded (metrics s1) = 1 ∧ messagesFailed (metrics s1) = 1.
Proof.
  intros env.
  destruct (forwarded_then_ack_fails twoExchanges userCreated "events" env runningBridge 1 2
              "ack failed" eq_refl eq_refl eq_refl eq_refl eq_refl)
    as (s1 & t1 & E & P & A & F & G).
  by exists s1, t1.
Defined.

(** Five messages with a line every two: two lines. *)
Lemma progress_logged_every_n_witness :
  let messages := replicate 5 ("events", "user.created", 1700)%string in
  ∃ s' t,
    logForwardedAll twoExchanges messages runningBridge = (Returned (), s', t)
    ∧ messagesForwarded (metrics s') = 5
    ∧ length (infos t) = 2%nat.
Proof.
  intros messages.
  destruct (progress_logged_every_n twoExchanges messages runningBridge)
    as (s' & t & E & F & _ & I); [done|].
  exists s', t. split_and!; try done.
  apply Nat2Z.inj. rewrite I, F. reflexivity.
Defined.

End BridgeRestFacts.
